(** * DuETT on PhysioNet-2012: binner, masking policy, embedder, fusion,
      checkpoint hook.

    A shallow embedding of [dl4h_team_27.py].

    Conventions.
    - A tensor is a nested list; a tensor entry is a rational.  Where the
      source can hold a NaN (the raw PhysioNet table, the per-feature
      statistics, the standardized cells) the entry is a [scalar], that is
      an [option Q] whose [None] stands for a non-finite value.
    - Inside the dataset every arithmetic result goes through a rounding
      operator [fl : Q -> Q], left arbitrary: the identity gives exact
      arithmetic, a round-to-nearest function gives machine arithmetic.
    - A Python exception is [None] in the option monad.
    - The float reductions of torch ([mean], [std]) round, in an order of
      accumulation that belongs to the library: their value on a tensor
      that holds enough entries is a parameter, a [reductions]; [max] and
      [min] select an entry and are computed.
    - Library code that is not part of the repository (torchtime's loader,
      numpy's generator, the transformer encoders, the learned layers) is
      taken as a parameter; a layer constructor records its arguments. *)

From Stdlib Require Import QArith Qminmax ZArith Lia.
From stdpp Require Import base option list strings.

Open Scope Q_scope.

(** ** Tensor primitives *)

Module Torch.

Abbreviation scalar := (option Q).
Definition NaN : scalar := None.

Definition isnan (x : scalar) : bool :=
  match x with Some _ => false | None => true end.

(** [int(x)]: truncation toward zero. *)
Definition trunc (q : Q) : Z := Z.quot (Qnum q) (Z.pos (Qden q)).

Definition Qsum (l : list Q) : Q := foldr Qplus 0 l.

Definition of_nat (n : nat) : Q := inject_Z (Z.of_nat n).

(** Square root, rounded down to a multiple of [1 / (den * 2^32)]; it is
    exact on the square of a rational. *)
Definition sqrt (q : Q) : Q :=
  Z.sqrt (Qnum q * Z.pos (Qden q) * 4 ^ 32) # (Qden q * 2 ^ 32).

(** The kernels of the float reductions: [mean_kernel] is the value of
    [vals.mean()] on a tensor with an entry, [std_kernel] the value of
    [vals.std()] on a tensor with two entries or more. *)
Record reductions := {
  mean_kernel : list Q -> Q;
  std_kernel : list Q -> Q
}.

(** [vals.mean()]: NaN on an empty tensor. *)
Definition mean (k : reductions) (vals : list Q) : scalar :=
  match vals with
  | [] => NaN
  | _ => Some (mean_kernel k vals)
  end.

(** [vals.std()]: Bessel-corrected; NaN with fewer than two values. *)
Definition std (k : reductions) (vals : list Q) : scalar :=
  match vals with
  | [] | [_] => NaN
  | _ => Some (std_kernel k vals)
  end.

(** [vals.max()] and [vals.min()] raise on an empty tensor. *)
Definition max (vals : list Q) : option Q :=
  match vals with
  | [] => None
  | x :: r => Some (foldr Qmax x r)
  end.

Definition min (vals : list Q) : option Q :=
  match vals with
  | [] => None
  | x :: r => Some (foldr Qmin x r)
  end.

(** Resolution of an integer index against a dimension of size [n]:
    negative indices count from the end, anything else out of range
    raises. *)
Definition index (n : nat) (i : Z) : option nat :=
  if (0 <=? i)%Z && (i <? Z.of_nat n)%Z then Some (Z.to_nat i)
  else if (- Z.of_nat n <=? i)%Z && (i <? 0)%Z then Some (Z.to_nat (i + Z.of_nat n))
  else None.

Definition zeros (n : nat) : list Q := replicate n 0.

(** Two rounding operators: exact arithmetic, and rounding to the nearest
    binary float with [p] bits of significand, ties to even (the exponent
    range is not bounded). *)
Definition exact (q : Q) : Q := q.

Definition round_to (p : Z) (q : Q) : Q :=
  let n := Z.abs (Qnum q) in
  let d := Z.pos (Qden q) in
  if (n =? 0)%Z then 0
  else
    let e0 := (Z.log2 n - Z.log2 d)%Z in
    let below :=
      if (0 <=? e0)%Z then (n <? d * 2 ^ e0)%Z else (n * 2 ^ (- e0) <? d)%Z in
    let e := if below then (e0 - 1)%Z else e0 in
    let s := (p - 1 - e)%Z in
    let N := (n * 2 ^ Z.max s 0)%Z in
    let D := (d * 2 ^ Z.max (- s) 0)%Z in
    let f := (N / D)%Z in
    let r := (N mod D)%Z in
    let m :=
      if (2 * r <? D)%Z then f
      else if (D <? 2 * r)%Z then (f + 1)%Z
      else if Z.even f then f else (f + 1)%Z in
    Qred (inject_Z (Z.sgn (Qnum q) * m * 2 ^ Z.max (- s) 0) / inject_Z (2 ^ Z.max s 0)).

Definition float32 : Q -> Q := round_to 24.
Definition float64 : Q -> Q := round_to 53.

(** The reductions without rounding but for the square root, and the
    mean that accumulates the entries in their order, rounding each sum
    and the final quotient with [fl]. *)
Definition exact_reductions : reductions :=
  {| mean_kernel := fun vals => Qred (Qsum vals / of_nat (length vals));
     std_kernel := fun vals =>
       let m := Qsum vals / of_nat (length vals) in
       let ss := Qsum (map (fun x => (x - m) * (x - m)) vals) in
       Qred (sqrt (Qred (ss / of_nat (length vals - 1)))) |}.

Definition sequential_mean (fl : Q -> Q) (vals : list Q) : Q :=
  fl (foldl (fun acc x => fl (acc + x)) 0 vals / of_nat (length vals)).

End Torch.

(** Monadic left fold: a [for] loop whose body may raise. *)
Fixpoint foldlM {A B : Type} (f : A -> B -> option A) (l : list B) (a : A) : option A :=
  match l with
  | [] => Some a
  | b :: r => a' ← f a b; foldlM f r a'
  end.

(** ** The binner: [PhysioNetDataset] *)

Module PhysioNetDataset.

Import Torch.

Inductive split := train | val | test.

(** The raw table [X] of a split: samples x rows x channels.  Channel 0
    is the time stamp in minutes, channels 1..36 the time series,
    channels 37..44 the static attributes. *)
Record tensor3 := { shape2 : nat; data : list (list (list scalar)) }.

(** One item: [((x_ts, x_static, bin_ends), y)]. *)
Record item := {
  x_ts : list (list scalar);
  x_static : list Q;
  bin_ends : list Q;
  label : scalar
}.

Record t := {
  split_name : split;
  n_timesteps : nat;
  temp_cache : option (list (nat * item));
  X : tensor3;
  y : list (list scalar);
  means : list scalar;
  stds : list scalar;
  maxes : list Q;
  mins : list Q
}.

Definition d_static_num : nat := 8.
Definition d_time_series_num : nat := 36.
Definition d_target : nat := 1.

(** [__init__]: the table and the statistics only exist after [setup]. *)
Definition init (s : split) (T : nat) (use_temp_cache : bool) : t :=
  {| split_name := s; n_timesteps := T;
     temp_cache := if use_temp_cache then Some [] else None;
     X := {| shape2 := 0; data := [] |}; y := [];
     means := []; stds := []; maxes := []; mins := [] |}.

(** [X[:, :, i].flatten()] followed by [vals[~torch.isnan(vals)]]. *)
Definition channel (X : tensor3) (i : nat) : list Q :=
  omap (fun row => mjoin (row !! i)) (concat (data X)).

Section Setup.

(** The kernels of [vals.mean()] and [vals.std()]. *)
Variable kernels : reductions.

(** torchtime's [PhysioNet2012(split, train_prop=0.7, val_prop=0.15,
    time=False, seed=0)]: the table and the labels of one split. *)
Variable PhysioNet2012 : split -> tensor3 * list (list scalar).

Definition feature_stats (X : tensor3) (i : nat) : option (scalar * scalar * Q * Q) :=
  let vals := channel X i in
  mx ← max vals; mn ← min vals;
  Some (mean kernels vals, std kernels vals, mx, mn).

Definition setup (ds : t) : option t :=
  let tt_data := PhysioNet2012 (split_name ds) in
  stats ← mapM (feature_stats tt_data.1) (seq 0 (shape2 tt_data.1));
  Some {| split_name := split_name ds; n_timesteps := n_timesteps ds;
          temp_cache := temp_cache ds;
          X := tt_data.1; y := tt_data.2;
          means := map (fun s => s.1.1.1) stats;
          stds := map (fun s => s.1.1.2) stats;
          maxes := map (fun s => s.1.2) stats;
          mins := map (fun s => s.2) stats |}.

End Setup.

Section GetItem.

Variable fl : Q -> Q.

Definition sub (a b : scalar) : scalar := x ← a; y ← b; Some (fl (x - y)).
Definition add (a b : scalar) : scalar := x ← a; y ← b; Some (fl (x + y)).
Definition div (a b : scalar) : scalar :=
  x ← a; y ← b; if Qeq_bool y 0 then NaN else Some (fl (x / y)).

(** [(x_i - self.means[k]) / (self.stds[k] + 1e-7)] *)
Definition standardize (x_i mean_k std_k : scalar) : scalar :=
  div (sub x_i mean_k) (add std_k (Some 1e-7)).

(** The rows of sample [i] whose time stamp is not NaN, each paired
    with [time = ins[:, 0] / 60 / 24]. *)
Definition observations (sample : list (list scalar)) : list (Q * list scalar) :=
  omap (fun row => t ← mjoin (row !! 0%nat); Some (fl (fl (t / 60) / 24), row)) sample.

(** [n_timesteps - 1 if t == time[-1] else int(t / time[-1] * n_timesteps)];
    a division by zero makes [int] raise. *)
Definition bin_of (T : nat) (t tlast : Q) : option Z :=
  if Qeq_bool t tlast then Some (Z.of_nat T - 1)%Z
  else if Qeq_bool tlast 0 then None
  else Some (trunc (fl (fl (t / tlast) * of_nat T))).

Section Fitted.

Variable ds : t.

(** Body of [for i_ts in range(1, 37)]. *)
Definition record_value (bin : Z) (row : list scalar)
    (x_ts : list (list scalar)) (i_ts : nat) : option (list (list scalar)) :=
  x_i ← row !! i_ts;
  if isnan x_i then Some x_ts
  else
    m ← means ds !! i_ts;
    s ← stds ds !! i_ts;
    b ← index (length x_ts) bin;
    let x_ts := alter (<[(i_ts - 1)%nat := standardize x_i m s]>) b x_ts in
    Some (alter (alter (fun c => add c (Some 1)) (i_ts - 1 + d_time_series_num)%nat) b x_ts).

(** Body of [for i_t, t in enumerate(time)]. *)
Definition record_row (tlast : Q) (x_ts : list (list scalar))
    (ob : Q * list scalar) : option (list (list scalar)) :=
  bin ← bin_of (n_timesteps ds) ob.1 tlast;
  foldlM (record_value bin ob.2) (seq 1 36) x_ts.

(** [x_static[i_tab - 37] = standardized.nan_to_num(0.)] *)
Definition static_value (row0 : list scalar) (i_tab : nat) : option Q :=
  x_i ← row0 !! i_tab;
  m ← means ds !! i_tab;
  s ← stds ds !! i_tab;
  Some (default 0 (standardize x_i m s)).

Definition compute_item (i : nat) : option item :=
  sample ← data (X ds) !! i;
  let ins := observations sample in
  let x_ts0 :=
    replicate (n_timesteps ds) (replicate (d_time_series_num * 2) (Some 0)) in
  tlast ← last (map fst ins);
  x_ts ← foldlM (record_row tlast) ins x_ts0;
  let bin_ends :=
    map (fun k => fl (fl (of_nat k / of_nat (n_timesteps ds)) * tlast))
        (seq 1 (n_timesteps ds)) in
  row0 ← head (map snd ins);
  x_static ← mapM (static_value row0) (seq 37 d_static_num);
  yi ← y ds !! i;
  y0 ← yi !! 0%nat;
  Some {| x_ts := x_ts; x_static := x_static; bin_ends := bin_ends; label := y0 |}.

End Fitted.

Definition cache_get (c : list (nat * item)) (i : nat) : option item :=
  snd <$> find (fun e => Nat.eqb e.1 i) c.

Definition cache_put (c : list (nat * item)) (i : nat) (it : item) : list (nat * item) :=
  if cache_get c i is Some _
  then map (fun e => if Nat.eqb e.1 i then (i, it) else e) c
  else c ++ [(i, it)].

Definition with_cache (ds : t) (c : option (list (nat * item))) : t :=
  {| split_name := split_name ds; n_timesteps := n_timesteps ds;
     temp_cache := c;
     X := X ds; y := y ds;
     means := means ds; stds := stds ds; maxes := maxes ds; mins := mins ds |}.

(** [__getitem__]: the item and the dataset with its cache updated. *)
Definition getitem (ds : t) (i : nat) : option (item * t) :=
  match temp_cache ds ≫= (fun c => cache_get c i) with
  | Some it => Some (it, ds)
  | None =>
    it ← compute_item ds i;
    Some (it, with_cache ds ((fun c => cache_put c i it) <$> temp_cache ds))
  end.

End GetItem.

End PhysioNetDataset.


(** ** The data module: three datasets, each set up on its own *)

Module PhysioNetDataModule.

Record t := {
  ds_train : PhysioNetDataset.t;
  ds_val : PhysioNetDataset.t;
  ds_test : PhysioNetDataset.t;
  batch_size : nat
}.

Inductive stage := fit | validate | test.

Definition init (use_temp_cache : bool) (batch_size : nat) : t :=
  {| ds_train := PhysioNetDataset.init PhysioNetDataset.train 32 use_temp_cache;
     ds_val := PhysioNetDataset.init PhysioNetDataset.val 32 use_temp_cache;
     ds_test := PhysioNetDataset.init PhysioNetDataset.test 32 use_temp_cache;
     batch_size := batch_size |}.

Section Setup.

Variable kernels : Torch.reductions.

Variable PhysioNet2012 :
  PhysioNetDataset.split -> PhysioNetDataset.tensor3 * list (list Torch.scalar).

Definition setup (dm : t) (st : option stage) : option t :=
  match st with
  | None =>
    tr ← PhysioNetDataset.setup kernels PhysioNet2012 (ds_train dm);
    va ← PhysioNetDataset.setup kernels PhysioNet2012 (ds_val dm);
    te ← PhysioNetDataset.setup kernels PhysioNet2012 (ds_test dm);
    Some {| ds_train := tr; ds_val := va; ds_test := te; batch_size := batch_size dm |}
  | Some fit =>
    tr ← PhysioNetDataset.setup kernels PhysioNet2012 (ds_train dm);
    va ← PhysioNetDataset.setup kernels PhysioNet2012 (ds_val dm);
    Some {| ds_train := tr; ds_val := va; ds_test := ds_test dm; batch_size := batch_size dm |}
  | Some validate =>
    va ← PhysioNetDataset.setup kernels PhysioNet2012 (ds_val dm);
    Some {| ds_train := ds_train dm; ds_val := va; ds_test := ds_test dm;
            batch_size := batch_size dm |}
  | Some test =>
    te ← PhysioNetDataset.setup kernels PhysioNet2012 (ds_test dm);
    Some {| ds_train := ds_train dm; ds_val := ds_val dm; ds_test := te;
            batch_size := batch_size dm |}
  end.

End Setup.

End PhysioNetDataModule.


(** ** The model: masking policy, embedder, fusion, checkpoint hook *)

Module Model.

Import Torch.

Abbreviation vec := (list Q).
Abbreviation tensor2 := (list (list Q)).
Abbreviation tensor3 := (list (list (list Q))).
Abbreviation tensor4 := (list (list (list (list Q)))).

(** A stacked tensor of rank two or three. *)
Inductive tensor :=
| Mat (m : tensor2)
| Cube (c : tensor3).

(** A tensor of [forward] from the fusion on, where [squeeze] can leave
    rank one or zero. *)
Inductive array :=
| Rank0 (x : Q)
| Rank1 (v : vec)
| Rank2 (m : tensor2)
| Rank3 (c : tensor3).

(** *** numpy's generator

    [np.random.default_rng(seed)] is the stream of its raw outputs and a
    position in it.  [choice] leaves [replace] at numpy's default, [True]:
    every index is an independent draw from [0, n), here one raw output
    reduced modulo [n]. *)

Record Generator := { draws : nat -> nat; pos : nat }.

Definition next (g : Generator) : nat * Generator :=
  (draws g (pos g), {| draws := draws g; pos := S (pos g) |}).

(** [rng.choice(np.arange(n))]; an empty population raises. *)
Definition choice (g : Generator) (n : nat) : option (nat * Generator) :=
  if (n =? 0)%nat then None
  else Some (((next g).1 mod n)%nat, (next g).2).

(** [rng.choice(np.arange(n), size=k)] *)
Fixpoint choice_size (g : Generator) (n k : nat) : option (list nat * Generator) :=
  match k with
  | O => Some ([], g)
  | S k' =>
    r ← choice g n;
    rs ← choice_size r.2 n k';
    Some (r.1 :: rs.1, rs.2)
  end.

(** [rng.random()]: a float of [0, 1) with 53 random bits. *)
Definition random (g : Generator) : Q * Generator :=
  (inject_Z (Z.of_nat (next g).1 mod 2 ^ 53) / inject_Z (2 ^ 53), (next g).2).

Fixpoint random_size (g : Generator) (k : nat) : list Q * Generator :=
  match k with
  | O => ([], g)
  | S k' =>
    let r := random g in
    let rs := random_size r.2 k' in
    (r.1 :: rs.1, rs.2)
  end.

(** *** Indexing a tensor by [mask_i]: an integer or an index array *)

Inductive mask_index :=
| Int (i : nat)
| Array (l : list nat).

Inductive sel (A : Type) :=
| One (x : A)
| Many (l : list A).
Arguments One {A} x.
Arguments Many {A} l.

(** [rows[mask_i]] *)
Definition gather {A : Type} (rows : list A) (mi : mask_index) : option (sel A) :=
  match mi with
  | Int i => One <$> rows !! i
  | Array l => Many <$> mapM (fun i => rows !! i) l
  end.

(** [rows[mask_i] = f(rows[mask_i])] *)
Definition assign_row {A : Type} (f : A -> A) (rows : list A) (i : nat) : option (list A) :=
  if (i <? length rows)%nat then Some (alter f i rows) else None.

Definition assign_rows {A : Type} (f : A -> A) (mi : mask_index) (rows : list A)
    : option (list A) :=
  match mi with
  | Int i => assign_row f rows i
  | Array l => foldlM (assign_row f) l rows
  end.

Definition set_last (v : Q) (row : list Q) : list Q := <[(length row - 1)%nat := v]> row.

Definition clip01 (x : Q) : Q := Qmax 0 (Qmin x 1).

Definition uniform {A : Type} (f : A -> nat) (l : list A) : bool :=
  match l with
  | [] => true
  | x :: r => forallb (fun y => (f y =? f x)%nat) r
  end.


Definition stack_rows (l : list (list Q)) : option tensor2 :=
  match l with
  | [] => None
  | _ => if uniform length l then Some l else None
  end.

(** *** The masking policy *)

(** The choice of [mask_i] for a record with [n] real bins. *)
Definition select_mask (pretrain_masked_steps : nat) (g : Generator) (n : nat)
    : option (mask_index * Generator) :=
  if (n <? 2)%nat then Some (Int n, g)
  else if (1 <? pretrain_masked_steps)%nat then
    if (n <? pretrain_masked_steps)%nat then Some (Array (seq 0 n), g)
    else r ← choice_size g n pretrain_masked_steps; Some (Array r.1, r.2)
  else r ← choice g n; Some (Int r.1, r.2).

(** *** The module's state

    The learned layers are functions on tensors; a layer with batch
    normalisation sees the whole batch, so each one maps a tensor to a
    tensor.  The stack of event and time encoders of [forward], with the
    time embeddings it adds, is the field [dual_attention]. *)

Record t := {
  d_time_series_num : nat;
  d_embedding : nat;
  max_len : nat;
  pretrain_masked_steps : nat;
  pretrain_dropout : Q;
  predict_events : bool;
  pretrain_presence : bool;
  pretrain_value : bool;
  fusion_method : string;
  save_representation : bool;
  masked_transform_timesteps : nat;
  rng : Generator;
  special_embeddings : list vec;
  n_obs_embedding : list Q;
  embedding_layers : list (list (list (Q * Q)) -> list (list vec));
  tab_encoder : tensor2 -> list vec;
  dual_attention : tensor4 -> tensor2 -> tensor4;
  head : array -> array;
  pretrain_value_proj : array -> array;
  pretrain_presence_proj : array -> array;
  predict_events_proj : array -> array;
  predict_events_presence_proj : array -> array
}.

Definition MASKED_EMBEDDING_KEY : nat := 0.
Definition REPRESENTATION_EMBEDDING_KEY : nat := 1.


(** The padded batch [(xs_static, xs_ts, xs_times, n_timesteps)]. *)
Record batch := {
  xs_static : tensor2;
  xs_feats : tensor3;
  xs_times : tensor2;
  n_timesteps : list nat
}.

(** [xs.shape[2]] *)
Definition width (xs : tensor3) : nat :=
  match xs with
  | (r :: _) :: _ => length r
  | _ => 0%nat
  end.

(** [xs.shape[1]] *)
Definition steps (xs : tensor3) : nat :=
  match xs with
  | s :: _ => length s
  | _ => 0%nat
  end.

(** *** [pretrain_prep_batch], from the padded batch on *)

Record prep := {
  y_ts : list (sel (list Q));
  y_ts_n_obs : list (sel (list Q));
  y_events : list (list Q);
  y_events_mask : list (list Q);
  xs_ts_clipped : tensor3;
  gen : Generator
}.

(** Body of [for batch_i, n in enumerate(n_timesteps)]. *)
Definition prep_record (m : t) (xs_ts : tensor3) (n_vars : nat) (st : prep)
    (e : nat * nat) : option prep :=
  let batch_i := e.1 in
  sm ← select_mask (pretrain_masked_steps m) (gen st) e.2;
  let mask_i := sm.1 in
  rows ← xs_ts !! batch_i;
  yt ← gather (map (take n_vars) rows) mask_i;
  yn ← gather (map (fun r => take n_vars (drop n_vars r)) rows) mask_i;
  crows ← xs_ts_clipped st !! batch_i;
  crows ← assign_rows (fun r => replicate (length r) 0) mask_i crows;
  crows ← assign_rows (set_last 1) mask_i crows;
  if predict_events m then
    ev ← choice sm.2 (d_time_series_num m);
    let event_mask_i := ev.1 in
    ye ← mapM (fun r => r !! event_mask_i) rows;
    ym ← mapM (fun r => clip01 <$> r !! (event_mask_i + n_vars)%nat) rows;
    crows ← mapM (fun r => if (event_mask_i + n_vars <? length r)%nat
                           then Some (<[(event_mask_i + n_vars)%nat := - (1)]>
                                        (<[event_mask_i := 0]> r))
                           else None) crows;
    Some {| y_ts := y_ts st ++ [yt]; y_ts_n_obs := y_ts_n_obs st ++ [yn];
            y_events := y_events st ++ [ye]; y_events_mask := y_events_mask st ++ [ym];
            xs_ts_clipped := <[batch_i := crows]> (xs_ts_clipped st); gen := ev.2 |}
  else
    Some {| y_ts := y_ts st ++ [yt]; y_ts_n_obs := y_ts_n_obs st ++ [yn];
            y_events := y_events st; y_events_mask := y_events_mask st;
            xs_ts_clipped := <[batch_i := crows]> (xs_ts_clipped st); gen := sm.2 |}.



(** [1 - y_ts_masks], summed over the masked steps and clipped first when
    the targets have rank three: the columns with no observed target. *)
Definition unobserved (y_ts_masks : tensor) : list (list bool) :=
  match y_ts_masks with
  | Mat m => map (map (fun v => negb (Qeq_bool (1 - v) 0))) m
  | Cube c =>
    map (fun rows =>
           map (fun j => negb (Qeq_bool
                  (1 - clip01 (Qsum (map (fun r => default 0 (r !! j)) rows))) 0))
               (seq 0 (length (hd [] rows)))) c
  end.

(** The feature dropout: a column of a record is zeroed over all steps,
    in its value half and its count half alike, unless it is kept; the
    trailing flag column is always kept, and so is a cell equal to [-1]. *)
Definition dropout (m : t) (batch_size n_vars : nat) (g : Generator)
    (y_ts_masks : tensor) (clipped : tensor3) : option (tensor3 * Generator) :=
  if Qle_bool (pretrain_dropout m) 0 then Some (clipped, g)
  else
    let r := random_size g (batch_size * n_vars) in
    let un := unobserved y_ts_masks in
    if (length un =? batch_size)%nat && forallb (fun u => (length u =? n_vars)%nat) un
       && (length clipped =? batch_size)%nat
    then
      let keep :=
        imap (fun b u =>
                imap (fun j o =>
                        o || negb (Qle_bool (default 0 (r.1 !! (b * n_vars + j)%nat))
                                            (pretrain_dropout m))) u) un in
      let keep := map (fun k => k ++ k ++ [true]) keep in
      if forallb (fun rows => forallb (fun row => (length row =? 2 * n_vars + 1)%nat) rows)
                 clipped
      then
        Some (imap (fun b rows =>
                      map (fun row =>
                             imap (fun c v =>
                                     if default false (k ← keep !! b; k !! c)
                                        || Qeq_bool v (- (1))
                                     then v else v * 0) row) rows) clipped, r.2)
      else None
    else None.



(** *** [forward]: the embedding step *)

(** Assignment through a slice or a boolean mask: the cells selected by
    [sel] receive [v], the others keep their content. *)
Definition assign {A : Type} (sel : nat -> nat -> nat -> bool) (v : nat -> nat -> nat -> A)
    (p : list (list (list A))) : list (list (list A)) :=
  imap (fun b => imap (fun t => imap (fun j old => if sel b t j then v b t j else old))) p.

Definition get3 {A : Type} (p : list (list (list A))) (b t j : nat) : option A :=
  rows ← p !! b; row ← rows !! t; row !! j.

Definition embedding (weight : list vec) (key : nat) : vec := default [] (weight !! key).

(** [c.to(int).clip(0, num_embeddings - 1)] *)
Definition n_obs_ind (num_embeddings : nat) (c : Q) : nat :=
  Z.to_nat (Z.max 0 (Z.min (trunc c) (Z.of_nat num_embeddings - 1))).

(** [xs_feats[:, :, n_vars:n_vars*2] == -1], with a false column for the
    static features and a copy of the first row appended as row [T]. *)
Definition event_mask_inds (n_vars : nat) (xs : tensor3) : list (list (list bool)) :=
  map (fun rows =>
         let e := map (fun r => map (fun c => Qeq_bool c (- (1))) (take n_vars (drop n_vars r))
                                ++ [false]) rows in
         e ++ take 1 e) xs.

(** [xs_feats[:, :, n_vars:n_vars*2] = self.n_obs_embedding(n_obs_inds).squeeze(-1)]:
    the count half of the input tensor is overwritten in place. *)
Definition embed_n_obs (m : t) (n_vars : nat) (xs : tensor3) : tensor3 :=
  map (map (imap (fun c v =>
                    if (n_vars <=? c)%nat && (c <? n_vars * 2)%nat
                    then default 0 (n_obs_embedding m
                                      !! n_obs_ind (length (n_obs_embedding m)) v)
                    else v))) xs.

(** [embedding_layer_input[:, :, i, :]] *)
Definition embedding_layer_input (n_vars : nat) (xs : tensor3) (i : nat)
    : list (list (Q * Q)) :=
  map (map (fun r => (default 0 (r !! i), default 0 (r !! (n_vars + i)%nat)))) xs.

(** [xs_feats[:, :, -1] == 1], false on the appended row. *)
Definition mask_inds (xs : tensor3) (b t : nat) : bool :=
  match (rows ← xs !! b; row ← rows !! t; last row) with
  | Some f => Qeq_bool f 1
  | None => false
  end.

Record embedded := {
  psi : tensor4;
  event_mask : list (list (list bool));
  feats : tensor3
}.

Definition embed (m : t) (x : batch) : option embedded :=
  let xs := xs_feats x in
  let n_vars := (width xs / 2)%nat in
  let T := steps xs in
  let ev := event_mask_inds n_vars xs in
  let xs := embed_n_obs m n_vars xs in
  if (n_vars <? length (embedding_layers m))%nat then None
  else
    let psi : tensor4 :=
      replicate (length xs)
        (replicate (T + 1) (replicate (n_vars + 1) (zeros (d_embedding m)))) in
    let psi :=
      foldl (fun psi e =>
               let out := e.2 (embedding_layer_input n_vars xs e.1) in
               assign (fun b t j => (t <? T)%nat && (j =? e.1)%nat)
                      (fun b t j => default [] (rows ← out !! b; rows !! t)) psi)
            psi (imap (fun i el => (i, el)) (embedding_layers m)) in
    let tab := tab_encoder m (xs_static x) in
    let psi := assign (fun b t j => (t <? T)%nat && (j =? n_vars)%nat)
                      (fun b t j => default [] (tab !! b)) psi in
    let psi := assign (fun b t j => (t =? T)%nat)
                      (fun b t j => embedding (special_embeddings m)
                                              REPRESENTATION_EMBEDDING_KEY) psi in
    let psi := assign (fun b t j => mask_inds xs b t)
                      (fun b t j => embedding (special_embeddings m) MASKED_EMBEDDING_KEY)
                      psi in
    let psi :=
      if predict_events m
      then assign (fun b t j => default false (get3 ev b t j))
                  (fun b t j => embedding (special_embeddings m) MASKED_EMBEDDING_KEY) psi
      else psi in
    Some {| psi := psi; event_mask := ev; feats := xs |}.

(** *** [forward]: fusion *)

(** [psi.flatten(2)] *)
Definition flatten2 (p : tensor4) : list (list vec) :=
  map (map (fun cells => concat cells)) p.

(** [F.pad(rows, (0, 0, 0, k - len(rows)), value=0.)]: zero rows are
    appended, and a negative amount crops. *)
Definition pad_rows (k w : nat) (rows : list vec) : list vec :=
  if (length rows <=? k)%nat then rows ++ replicate (k - length rows) (zeros w)
  else take k rows.

Definition flag_of (r : list Q) : Q := default 0 (last r).

Definition first (r : list Q) : Q := hd 0 r.

(** [a.squeeze()] for [a] of shape [(K, S, E)], given as its [K] blocks:
    every dimension of size one is dropped. *)
Definition squeeze3 (S E : nat) (c : tensor3) : array :=
  if (length c =? 1)%nat then
    let rows := hd [] c in
    if (S =? 1)%nat then
      let r := hd [] rows in
      if (E =? 1)%nat then Rank0 (first r) else Rank1 r
    else if (E =? 1)%nat then Rank1 (map first rows) else Rank2 rows
  else if (S =? 1)%nat then
    let rows := map (fun b => hd [] b) c in
    if (E =? 1)%nat then Rank1 (map first rows) else Rank2 rows
  else if (E =? 1)%nat then Rank2 (map (map first) c) else Rank3 c.

(** [a.squeeze()] and [a.squeeze(1)] on what a layer returns.  The sizes
    are read off the nested list: a dimension below an empty one does not
    show, and is taken not to be one.  [squeeze(1)] raises on a tensor of
    rank one or zero. *)
Definition squeeze (a : array) : array :=
  match a with
  | Rank0 x => Rank0 x
  | Rank1 v => if (length v =? 1)%nat then Rank0 (first v) else Rank1 v
  | Rank2 m => squeeze3 (length m) (length (hd [] m)) [m]
  | Rank3 c => squeeze3 (steps c) (width c) c
  end.

Definition squeeze1 (a : array) : option array :=
  match a with
  | Rank0 _ | Rank1 _ => None
  | Rank2 m =>
    Some (if (length (hd [] m) =? 1)%nat then Rank1 (map first m) else Rank2 m)
  | Rank3 c =>
    Some (if (steps c =? 1)%nat then Rank2 (map (fun b => hd [] b) c)
          else Rank3 c)
  end.

Section Forward.

(** The kernel of [torch.mean(..., dim=1)]: the value it gives to one
    entry of the result, from the entries of the column that it
    averages.  Its rounding and its order of accumulation are torch's. *)
Variable mean_dim : list Q -> Q.

(** [torch.mean(rows, dim=0)]; not a number when there is no row. *)
Definition mean_rows (rows : list vec) : option vec :=
  match rows with
  | [] => None
  | r :: _ =>
    Some (imap (fun j _ => mean_dim (map (fun r' => default 0 (r' !! j)) rows)) r)
  end.

(** The fusion.  [torch.stack] and [torch.cat] raise on an empty list.
    In the single-step branch the flagged bins of record [i] are gathered
    through [torch.nonzero(masked_ind[i].squeeze() == 1)], a tensor of
    shape [(k, 1)] that makes a block of shape [(k, 1, E)]; in a batch of
    a single step [masked_ind[i].squeeze()] has rank zero, the indices
    have shape [(k, 0)] and the block has shape [(k, 0, E)], without any
    entry.  The blocks are concatenated and squeezed. *)
Definition fuse (m : t) (transformed : list (list vec)) (xs : tensor3) : option array :=
  if String.eqb (fusion_method m) "rep_token" then
    Rank2 <$> mapM last transformed
  else if String.eqb (fusion_method m) "masked_embed" then
    if (1 <? pretrain_masked_steps m)%nat then
      match transformed with
      | [] => None
      | _ =>
        Some (Rank3 (imap (fun i rows =>
                      let bins := default [] (xs !! i) in
                      pad_rows (pretrain_masked_steps m) (length (hd [] rows))
                        (omap (fun e => if Qle_bool (flag_of e.2) 0 then None else Some e.1)
                              (zip rows bins))) transformed))
      end
    else
      match transformed with
      | [] => None
      | _ =>
        let picked :=
          concat (imap (fun i rows =>
                    let bins := default [] (xs !! i) in
                    omap (fun e => if Qeq_bool (flag_of e.2) 1 then Some e.1 else None)
                         (zip rows bins)) transformed) in
        let E := length (hd [] (hd [] transformed)) in
        if (steps xs =? 1)%nat
        then Some (squeeze3 0 E (map (fun _ => []) picked))
        else Some (squeeze3 1 E (map (fun r => [r]) picked))
      end
  else if String.eqb (fusion_method m) "averaging" then
    Rank2 <$> mapM (fun rows => mean_rows (removelast rows)) transformed
  else None.

(** *** [forward] *)

Inductive output :=
| Representation (z : array)
| Pretrain (y_hat_value y_hat_presence y_hat_events y_hat_events_presence : option array)
| Prediction (out : array)
| PredictionWithRepresentation (out z : array).

(** [psi[i][event_mask_inds[i].nonzero(as_tuple=True)].flatten()] *)
Definition gather_events (p : list (list vec)) (ev : list (list bool)) : list Q :=
  concat (concat (zip_with (fun prow erow =>
                              omap (fun e => if e.2 : bool then Some e.1 else None)
                                   (zip prow erow)) p ev)).

(** The result of [forward] and the batch as the call leaves it. *)
Definition forward (m : t) (x : batch) (pretrain representation : bool)
    : option (output * batch) :=
  e ← embed m x;
  let x' := {| xs_static := xs_static x; xs_feats := feats e;
               xs_times := xs_times x; n_timesteps := n_timesteps x |} in
  let psi := dual_attention m (psi e) (xs_times x) in
  let transformed := flatten2 psi in
  z ← fuse m transformed (feats e);
  if representation then Some (Representation z, x')
  else if pretrain then
    let y_hat_presence :=
      if pretrain_presence m then Some (squeeze (pretrain_presence_proj m z)) else None in
    y_hat_value ← (if pretrain_value m
                   then Some <$> squeeze1 (pretrain_value_proj m z)
                   else Some None);
    if predict_events m then
      z_events ← stack_rows (zip_with gather_events psi (event_mask e));
      Some (Pretrain y_hat_value y_hat_presence
                     (Some (squeeze (predict_events_proj m (Rank2 z_events))))
                     (if pretrain_presence m
                      then Some (squeeze (predict_events_presence_proj m (Rank2 z_events)))
                      else None), x')
    else Some (Pretrain y_hat_value y_hat_presence None None, x')
  else
    out ← squeeze1 (head m z);
    if save_representation m then Some (PredictionWithRepresentation out z, x')
    else Some (Prediction out, x').

End Forward.

(** *** [__init__]: the architecture built from the hyper-parameters

    A layer constructor of torch records its arguments.  The divisions of
    [__init__] raise on a zero divisor.  The constructors of
    x_transformers and of torchmetrics check their arguments, and raise
    inside [__init__]. *)

Inductive layer :=
| Linear (d_in d_out : nat)
| ReLU
| Tanh
| Dropout (p : Q)
| BatchNormLastDim (d : nat).

Definition simple_mlp (d_in d_out n_hidden d_hidden : nat)
    (final_activation input_batch_norm hidden_batch_norm : bool) (dropout : Q)
    : list layer :=
  (if (n_hidden =? 0)%nat then
     (if input_batch_norm then [BatchNormLastDim d_in] else [])
     ++ [Linear d_in d_out]
   else
     (if input_batch_norm then [BatchNormLastDim d_in] else [])
     ++ [Linear d_in d_hidden; ReLU; Dropout dropout]
     ++ concat (replicate (n_hidden - 1)
                  ((if hidden_batch_norm then [BatchNormLastDim d_hidden] else [])
                   ++ [Linear d_hidden d_hidden; ReLU; Dropout dropout]))
     ++ (if hidden_batch_norm then [BatchNormLastDim d_hidden] else [])
     ++ [Linear d_hidden d_out])
  ++ (if final_activation then [ReLU] else []).

(** [self.cve(batch_norm, d_embedding)] *)
Definition cve (d_embedding : nat) (batch_norm : bool) : list layer :=
  let d_hidden := Nat.sqrt d_embedding in
  if batch_norm
  then [Linear 1 d_hidden; Tanh; BatchNormLastDim d_hidden; Linear d_hidden d_embedding]
  else [Linear 1 d_hidden; Tanh; Linear d_hidden d_embedding].

(** The arguments of [x_transformers.Encoder]. *)
Record Encoder := {
  dim : nat;
  depth : nat;
  heads : nat;
  pre_norm : bool;
  use_scalenorm : bool;
  attn_dim_head : nat;
  ff_glu : bool;
  ff_mult : Q;
  attn_dropout : Q;
  ff_dropout : Q
}.

Record hparams := {
  hp_d_static_num : nat;
  hp_d_time_series_num : nat;
  hp_d_target : nat;
  hp_glu : bool;
  hp_scalenorm : bool;
  hp_n_hidden_mlp_embedding : nat;
  hp_d_hidden_mlp_embedding : nat;
  hp_d_embedding : nat;
  hp_d_feedforward : option nat;
  hp_n_transformer_head : nat;
  hp_n_duett_layers : nat;
  hp_d_hidden_tab_encoder : nat;
  hp_n_hidden_tab_encoder : nat;
  hp_norm_first : bool;
  hp_n_hidden_head : nat;
  hp_d_hidden_head : nat;
  hp_pretrain_n_hidden : nat;
  hp_pretrain_d_hidden : nat;
  hp_pretrain_presence : bool;
  hp_predict_events : bool;
  hp_transformer_dropout : Q;
  hp_pos_frac : option Q;
  hp_masked_transform_timesteps : nat
}.

Record architecture := {
  pos_weight : option Q;
  neg_weight : option Q;
  a_special_embeddings : nat * nat;
  a_embedding_layers : list (list layer);
  a_n_obs_embedding : nat * nat;
  a_event_transformers : list Encoder;
  a_full_event_embedding : nat * nat;
  a_time_transformers : list Encoder;
  a_full_time_embedding : list layer;
  a_full_rep_embedding : nat * nat;
  a_head : list layer;
  a_pretrain_value_proj : list layer;
  a_pretrain_presence_proj : option (list layer);
  a_predict_events_proj : option (list layer);
  a_predict_events_presence_proj : option (list layer);
  a_tab_encoder : list layer
}.

(** [x_transformers.Encoder(...)] with [depth=1] builds one attention
    layer and one feed-forward layer.  The attention layer computes
    [dim_head ** -0.5], which raises on a head width 0; each layer holds an
    [nn.Dropout], which raises on a probability outside [0, 1]. *)
Definition probability (p : Q) : bool := Qle_bool 0 p && Qle_bool p 1.

Definition new_encoder (e : Encoder) : option Encoder :=
  if (attn_dim_head e =? 0)%nat then None
  else if probability (attn_dropout e) && probability (ff_dropout e) then Some e
  else None.

(** [torchmetrics.AUROC] and [torchmetrics.AveragePrecision]: binary when
    [d_target == 1], else multiclass with [num_classes=d_target], which
    has to be two or more. *)
Definition new_metrics (d_target : nat) : option unit :=
  if (d_target =? 0)%nat then None else Some ().

(** [a // b] on integers. *)
Definition floordiv (a b : nat) : option nat :=
  if (b =? 0)%nat then None else Some (a / b)%nat.

Section Init.

(** The rounding of Python's floats, and the rounding of the type that
    [pos_frac] has: the data module hands over a numpy scalar. *)
Variable py_float : Q -> Q.
Variable fl : Q -> Q.

(** [a / b] on integers. *)
Definition truediv (a b : nat) : option Q :=
  if (b =? 0)%nat then None else Some (py_float (of_nat a / of_nat b)).

(** [1 / x] on a numpy scalar: not finite when [x] is zero. *)
Definition reciprocal (x : Q) : option Q :=
  if Qeq_bool x 0 then None else Some (fl (1 / x)).

Definition init (hp : hparams) : option architecture :=
  let d_embedding := hp_d_embedding hp in
  let d_time_series_num := hp_d_time_series_num hp in
  let d_feedforward := default (d_embedding * 4)%nat (hp_d_feedforward hp) in
  let et_dim := (d_embedding * (hp_masked_transform_timesteps hp + 1))%nat in
  let tt_dim := (d_embedding * (d_time_series_num + 1))%nat in
  let encoder (dim : nat) : option Encoder :=
    dh ← floordiv d_embedding (hp_n_transformer_head hp);
    fm ← truediv d_feedforward dim;
    new_encoder {| dim := dim; depth := 1; heads := hp_n_transformer_head hp;
                   pre_norm := hp_norm_first hp; use_scalenorm := hp_scalenorm hp;
                   attn_dim_head := dh; ff_glu := hp_glu hp; ff_mult := fm;
                   attn_dropout := hp_transformer_dropout hp;
                   ff_dropout := hp_transformer_dropout hp |} in
  ets ← mapM (fun _ => encoder et_dim) (seq 0 (hp_n_duett_layers hp));
  tts ← mapM (fun _ => encoder tt_dim) (seq 0 (hp_n_duett_layers hp));
  let d_representation := (d_embedding * (d_time_series_num + 1))%nat in
  let proj d_in d_out :=
    simple_mlp d_in d_out (hp_pretrain_n_hidden hp) (hp_pretrain_d_hidden hp)
               false false true 0 in
  _ ← new_metrics (hp_d_target hp);
  Some {| pos_weight := hp_pos_frac hp ≫= (fun p => reciprocal (fl (2 * p)));
          neg_weight := hp_pos_frac hp ≫= (fun p => reciprocal (fl (2 * fl (1 - p))));
          a_special_embeddings := (8, d_embedding)%nat;
          a_embedding_layers :=
            replicate d_time_series_num
              (simple_mlp 2 d_embedding (hp_n_hidden_mlp_embedding hp)
                          (hp_d_hidden_mlp_embedding hp) false false true 0);
          a_n_obs_embedding := (16, 1)%nat;
          a_event_transformers := ets;
          a_full_event_embedding := (d_time_series_num + 1, et_dim)%nat;
          a_time_transformers := tts;
          a_full_time_embedding := cve tt_dim true;
          a_full_rep_embedding := (tt_dim, 1)%nat;
          a_head := simple_mlp d_representation (hp_d_target hp) (hp_n_hidden_head hp)
                               (hp_d_hidden_head hp) false false true 0;
          a_pretrain_value_proj := proj d_representation d_time_series_num;
          a_pretrain_presence_proj :=
            if hp_pretrain_presence hp
            then Some (proj d_representation d_time_series_num) else None;
          a_predict_events_proj :=
            if hp_predict_events hp
            then Some (proj et_dim (hp_masked_transform_timesteps hp)) else None;
          a_predict_events_presence_proj :=
            if hp_predict_events hp && hp_pretrain_presence hp
            then Some (proj et_dim (hp_masked_transform_timesteps hp)) else None;
          a_tab_encoder :=
            simple_mlp (hp_d_static_num hp) d_embedding (hp_n_hidden_tab_encoder hp)
                       (hp_d_hidden_tab_encoder hp) false false true 0 |}.

End Init.

(** The defaults of [__init__]. *)
Definition default_hparams (d_static_num d_time_series_num d_target : nat) : hparams :=
  {| hp_d_static_num := d_static_num; hp_d_time_series_num := d_time_series_num;
     hp_d_target := d_target; hp_glu := false; hp_scalenorm := true;
     hp_n_hidden_mlp_embedding := 1; hp_d_hidden_mlp_embedding := 64;
     hp_d_embedding := 24; hp_d_feedforward := Some 512%nat;
     hp_n_transformer_head := 2; hp_n_duett_layers := 2;
     hp_d_hidden_tab_encoder := 128; hp_n_hidden_tab_encoder := 1;
     hp_norm_first := true; hp_n_hidden_head := 1; hp_d_hidden_head := 64;
     hp_pretrain_n_hidden := 0; hp_pretrain_d_hidden := 64;
     hp_pretrain_presence := true; hp_predict_events := true;
     hp_transformer_dropout := 0; hp_pos_frac := None;
     hp_masked_transform_timesteps := 32 |}.

(** *** [on_load_checkpoint]

    A state dictionary is an insertion-ordered list of named tensors; what
    the hook prints is the list of its reports. *)

Record param := { shape : list nat; values : list Q }.

Abbreviation state_dict := (list (string * param)).

Definition dict_get {V : Type} (d : list (string * V)) (k : string) : option V :=
  snd <$> find (fun e => String.eqb e.1 k) d.

Definition dict_set {V : Type} (d : list (string * V)) (k : string) (v : V)
    : list (string * V) :=
  if dict_get d k is Some _
  then map (fun e => if String.eqb e.1 k then (k, v) else e) d
  else d ++ [(k, v)].

Record checkpoint := {
  ckpt_state_dict : state_dict;
  optimizer_states : option (list param)
}.

Inductive report :=
| LoadingFromCheckpoint
| SkipLoading (k : string) (required loaded : list nat)
| Dropping (k : string)
| Freezing
| SkipFreezing (n : string).

(** The module as the hook sees it: [self.state_dict()], the
    [requires_grad] flag of each named parameter, [self.freeze_encoder]. *)
Record module_state := {
  model_state_dict : state_dict;
  requires_grad : list (string * bool);
  freeze_encoder : bool
}.

Fixpoint contains (sub s : string) : bool :=
  String.prefix sub s ||
  match s with
  | EmptyString => false
  | String _ r => contains sub r
  end.

Definition shape_eqb (a b : list nat) : bool := bool_decide (a = b).

(** [for k in model_state_dict: if k not in state_dict: ...] *)
Definition add_missing (acc : state_dict * bool) (e : string * param) : state_dict * bool :=
  match dict_get acc.1 e.1 with
  | Some _ => acc
  | None => (dict_set acc.1 e.1 e.2, true)
  end.

(** [for k in state_dict: ...] *)
Definition check_key (msd : state_dict) (acc : state_dict * list report * bool)
    (k : string) : state_dict * list report * bool :=
  let '(sd, log, is_changed) := acc in
  match dict_get msd k, dict_get sd k with
  | Some required, Some loaded =>
    if String.prefix "head" k && negb (shape_eqb (shape loaded) (shape required))
    then (dict_set sd k required,
          log ++ [SkipLoading k (shape required) (shape loaded)], true)
    else acc
  | Some _, None => acc
  | None, _ => (sd, log ++ [Dropping k], true)
  end.

Definition freeze (ms : module_state) : module_state * list report :=
  ({| model_state_dict := model_state_dict ms;
      requires_grad :=
        map (fun e => if contains "head" e.1 then e else (e.1, false)) (requires_grad ms);
      freeze_encoder := freeze_encoder ms |},
   Freezing :: omap (fun e => if contains "head" e.1 then Some (SkipFreezing e.1) else None)
                    (requires_grad ms)).

Definition on_load_checkpoint (ms : module_state) (ckpt : checkpoint)
    : checkpoint * module_state * list report :=
  let msd := model_state_dict ms in
  let s1 := foldl add_missing (ckpt_state_dict ckpt, false) msd in
  let '(sd, log, is_changed) :=
    foldl (check_key msd) (s1.1, [LoadingFromCheckpoint], s1.2) (map fst s1.1) in
  let ckpt' :=
    {| ckpt_state_dict := sd;
       optimizer_states := if is_changed then None else optimizer_states ckpt |} in
  if freeze_encoder ms
  then let fr := freeze ms in (ckpt', fr.1, log ++ fr.2)
  else (ckpt', ms, log).

End Model.


(** ** The learning-rate schedule: [WarmUpCallback]

    An optimizer is the list of the learning rates of its parameter
    groups; [model.optimizers()] is one optimizer or a list of them.  The
    counts are natural numbers.  A float operation rounds its exact
    result with [fl]; the power [x ** 0.5] of the C library is the
    parameter [pow_half]. *)

Module WarmUpCallback.

Import Torch.

Abbreviation optimizer := (list Q).

Inductive optimizers :=
| Single (o : optimizer)
| Several (l : list optimizer).

(** [state['base_lr']]: a float, or a list with one float per optimizer. *)
Inductive base :=
| Scalar (lr : Q)
| PerOptimizer (lrs : list Q).

Record schedule_state := { steps : nat; base_lr : option base }.

Record t := {
  warmup_steps : nat;
  decay : nat;
  state : schedule_state;
  invsqrt : bool
}.

Definition init (n : nat) (lr : option Q) (invsqrt : bool) (decay : option nat) : t :=
  {| warmup_steps := n;
     decay := default n decay;
     state := {| steps := 0; base_lr := Scalar <$> lr |};
     invsqrt := invsqrt |}.

Definition set_lr (o : optimizer) (lr : Q) : optimizer := map (fun _ => lr) o.

(** [state_dict] and [load_state_dict], for a dictionary that holds both
    keys. *)
Definition state_dict (cb : t) : schedule_state := state cb.

Definition load_state_dict (cb : t) (sd : schedule_state) : t :=
  {| warmup_steps := warmup_steps cb; decay := decay cb; state := sd;
     invsqrt := invsqrt cb |}.

Section Schedule.

Variable fl : Q -> Q.
Variable pow_half : Q -> Q.

(** [steps / warmup_steps * base] *)
Definition warmup_lr (cb : t) (b : Q) : option Q :=
  if (warmup_steps cb =? 0)%nat then None
  else Some (fl (fl (of_nat (steps (state cb)) / of_nat (warmup_steps cb)) * b)).

(** [base * (decay / (steps - warmup_steps + decay)) ** 0.5] *)
Definition decayed_lr (cb : t) (b : Q) : option Q :=
  let den := (steps (state cb) - warmup_steps cb + decay cb)%nat in
  if (den =? 0)%nat then None
  else Some (fl (b * pow_half (fl (of_nat (decay cb) / of_nat den)))).

(** [o.param_groups[0]['lr']] *)
Definition first_lr (o : optimizer) : option Q := head o.

(** The base rate: the one of the state, or else the rates that the
    optimizers have at this moment. *)
Definition infer_base (cb : t) (opts : optimizers) : option base :=
  match base_lr (state cb) with
  | Some b => Some b
  | None =>
    match opts with
    | Single o => Scalar <$> first_lr o
    | Several l => PerOptimizer <$> mapM first_lr l
    end
  end.

(** The loop [for opt, base in zip(optimizers, base_lr): set_lr(...)] or
    the single call of [set_lr]; a float where a list is needed, or a
    list where a float is needed, raises. *)
Definition set_all (lr : Q -> option Q) (opts : optimizers) (b : base)
    : option optimizers :=
  match opts, b with
  | Single o, Scalar b => l ← lr b; Some (Single (set_lr o l))
  | Several l, PerOptimizer bs =>
    upd ← mapM (fun ob => set_lr ob.1 <$> lr ob.2) (zip l bs);
    Some (Several (upd ++ drop (length upd) l))
  | _, _ => None
  end.

Definition advance (cb : t) (b : base) : t :=
  load_state_dict cb {| steps := S (steps (state cb)); base_lr := Some b |}.

Definition on_train_batch_start (cb : t) (opts : optimizers) : option (t * optimizers) :=
  if (steps (state cb) <? warmup_steps cb)%nat then
    b ← infer_base cb opts;
    opts' ← set_all (warmup_lr cb) opts b;
    Some (advance cb b, opts')
  else if invsqrt cb then
    b ← infer_base cb opts;
    opts' ← set_all (decayed_lr cb) opts b;
    Some (advance cb b, opts')
  else Some (cb, opts).

End Schedule.

End WarmUpCallback.


(** ** Averaging the weights of several models: [average_models]

    A model is its state dictionary.  The arithmetic on tensors is
    torch's, with its type promotion and its rounding, and is a
    parameter.  [load_state_dict] is the strict loading of torch: the
    keys must be those of the module, the shapes those of its tensors. *)

Module AverageModels.

Import Torch Model.

(** A tensor of rank 1 that is loaded into a tensor of rank 0 is replaced
    by its first entry. *)
Definition first_entry (own p : param) : option param :=
  if bool_decide (shape own = []) && (length (shape p) =? 1)%nat
  then match values p with
       | v :: _ => Some {| shape := []; values := [v] |}
       | [] => None
       end
  else Some p.

Section Average.

(** The sum of two tensors, which may broadcast and raises on shapes that
    do not fit; the quotient [t / n] of a tensor by a number, a float
    tensor; the values that [param.copy_(input_param)] stores in the
    module's tensor, those of the loaded tensor converted to its type (an
    integer buffer truncates them). *)
Variable tensor_add : param -> param -> option param.
Variable tensor_div : param -> nat -> param.
Variable copy_ : param -> param -> list Q.

Definition load_state_dict (own new : state_dict) : option state_dict :=
  if forallb (fun e => bool_decide (is_Some (dict_get own e.1))) new
  then mapM (fun e => p ← dict_get new e.1;
                      p ← first_entry e.2 p;
                      if shape_eqb (shape p) (shape e.2)
                      then Some (e.1, {| shape := shape e.2; values := copy_ e.2 p |})
                      else None) own
  else None.

(** [sum(sd[k] for sd in sds)]: Python's [sum] starts from the integer 0,
    and [0 + t] is [t]; a state dictionary without the key raises. *)
Definition sum_key (sd0 : state_dict) (rest : list state_dict) (k : string)
    : option param :=
  first ← dict_get sd0 k;
  foldlM (fun acc sd => t ← dict_get sd k; tensor_add acc t) rest first.

(** The models after the call; the first of them is the one returned. *)
Definition average_models (models : list state_dict) : option (list state_dict) :=
  match models with
  | [] => None
  | sd0 :: rest =>
    let n := length models in
    averaged ← foldlM (fun averaged k =>
                         s ← sum_key sd0 rest k;
                         Some (dict_set averaged k (tensor_div s n)))
                      (map fst sd0) [];
    m0 ← load_state_dict sd0 averaged;
    Some (m0 :: rest)
  end.

End Average.

End AverageModels.


(** ** From the data loader to the padded batch: [collate_into_seqs] and
       [feats_to_input]

    An element of a batch is [((x_ts, x_static, bin_ends), y)]; the grid
    comes with its number of columns, which it keeps when it has no row.
    The [zip] of the unpacked elements makes three tuples, one per component:
    the collated batch is kept here as the list of its elements, and its
    three components are tuples, which cannot be assigned to.  The draws
    of [torch.randn_like] and [torch.rand] are parameters. *)

Module FeatsToInput.

Import Torch Model.

Record sample := {
  cols : nat;
  x_ts : list (list Q);
  x_static : list Q;
  bin_ends : list Q
}.

(** The [zip] of an empty batch yields nothing, and unpacking it into
    [xs, ys] raises. *)
Definition collate_into_seqs (batch : list (sample * Q)) : option (list sample * list Q) :=
  match batch with
  | [] => None
  | _ => Some (map fst batch, map snd batch)
  end.

(** [self.training], [self.aug_noise], [self.aug_mask], [self.pretrain]. *)
Record mode := {
  training : bool;
  aug_noise : Q;
  aug_mask : Q;
  pretrain : bool
}.

(** [self.training and level > 0 and not self.pretrain] *)
Definition augmenting (a : mode) (level : Q) : bool :=
  training a && negb (Qle_bool level 0) && negb (pretrain a).

Section Draws.

(** [torch.randn_like] on the value half of grid [i], [torch.rand] on
    its rows, [torch.randn_like] on the stacked static features. *)
Variable randn : nat -> nat -> nat -> Q.
Variable rand : nat -> nat -> Q.
Variable randn_static : nat -> nat -> Q.

(** [f[:, :n_vars] += aug_noise * randn_like(f[:, :n_vars]) * f[:, n_vars:]]:
    the two halves have the same width when the number of columns is
    even; with a single column the value half is empty; any other odd
    number of columns does not broadcast. *)
Definition add_noise (a : mode) (i : nat) (s : sample) : option (list (list Q)) :=
  let n_vars := (cols s / 2)%nat in
  if augmenting a (aug_noise a) then
    if Nat.even (cols s) || (cols s =? 1)%nat then
      Some (imap (fun t row =>
                    imap (fun c v =>
                            if (c <? n_vars)%nat
                            then v + aug_noise a * randn i t c
                                     * default 0 (row !! (n_vars + c)%nat)
                            else v) row) (x_ts s))
    else None
  else Some (x_ts s).

(** [torch.cat((f, torch.zeros_like(f[:, :1])), dim=1)]: a column of
    zeros is appended, or nothing when the grid has no column. *)
Definition flag_cols (s : sample) : nat := Nat.min (cols s) 1.

Definition with_flag (s : sample) (f : list (list Q)) : list (list Q) :=
  map (fun row => row ++ replicate (flag_cols s) 0) f.

(** [mask = torch.rand(f.shape[0]) < aug_mask; f[mask, :] = 0.; f[mask, -1] = 1.];
    the index [-1] raises on a grid without column. *)
Definition mask_rows (a : mode) (i : nat) (s : sample) (rows : list (list Q))
    : option (list (list Q)) :=
  if augmenting a (aug_mask a) then
    if (cols s =? 0)%nat then None
    else Some (imap (fun t row =>
                       if negb (Qle_bool (aug_mask a) (rand i t))
                       then set_last 1 (replicate (length row) 0)
                       else row) rows)
  else Some rows.

(** Body of [for i, f in enumerate(xs_ts)].  A grid with more than
    [max_len] rows is cut, and so is its entry of [times]: an assignment
    to a tuple, which raises. *)
Definition prepare (m : Model.t) (a : mode) (i : nat) (s : sample)
    : option (list (list Q)) :=
  if (max_len m <? length (x_ts s))%nat then None
  else
    f ← add_noise a i s;
    mask_rows a i s (with_flag s f).

(** [np.max] raises on an empty list. *)
Definition np_max (l : list nat) : option nat :=
  match l with
  | [] => None
  | n :: r => Some (foldr Nat.max n r)
  end.

Definition feats_to_input (m : Model.t) (a : mode) (x : list sample) : option batch :=
  fs ← mapM (fun e => prepare m a e.1 e.2) (imap (fun i s => (i, s)) x);
  let n_timesteps := map (fun s => length (bin_ends s)) x in
  pad_to ← np_max n_timesteps;
  if uniform cols x && uniform (fun s => length (x_static s)) x then
    Some {| xs_static :=
              imap (fun i s =>
                      if augmenting a (aug_noise a)
                      then imap (fun c v => v + aug_noise a * randn_static i c) (x_static s)
                      else x_static s) x;
            xs_feats := zip_with (fun s f => pad_rows pad_to (cols s + flag_cols s) f) x fs;
            xs_times :=
              map (fun s => bin_ends s
                            ++ replicate (pad_to - length (bin_ends s)) 0) x;
            n_timesteps := n_timesteps |}
  else None.

End Draws.

End FeatsToInput.


(** ** Test data *)

Module Examples.

Import Torch.

(** A row of the raw table: a time stamp in minutes and the same reading
    in each of the 44 other channels. *)
Definition row (t v : Q) : list scalar := Some t :: replicate 44 (Some v).

(** A training split and a validation split with different statistics;
    the validation sample has the time stamps 0, 10 and 59.999. *)
Definition corpus (s : PhysioNetDataset.split)
    : PhysioNetDataset.tensor3 * list (list scalar) :=
  match s with
  | PhysioNetDataset.train =>
    ({| PhysioNetDataset.shape2 := 45;
        PhysioNetDataset.data := [[row 0 10; row 60 20; row 120 30]] |}, [[Some 0]])
  | _ =>
    ({| PhysioNetDataset.shape2 := 45;
        PhysioNetDataset.data := [[row 0 1; row 10 2; row 59.999 3]] |}, [[Some 1]])
  end.

(** A validation sample whose first two observations share a bin when
    there are four bins. *)
Definition corpus_shared_bin (s : PhysioNetDataset.split)
    : PhysioNetDataset.tensor3 * list (list scalar) :=
  ({| PhysioNetDataset.shape2 := 45;
      PhysioNetDataset.data := [[row 0 3; row 10 1; row 59.999 2]] |}, [[Some 1]]).

(** A generator that always draws zero. *)
Definition zero_rng : Model.Generator := {| Model.draws := fun _ => 0%nat; Model.pos := 0 |}.

(** A model over one event type with embeddings of width two; its layers
    are fixed functions of the right shape. *)
Definition model (masked_steps : nat) (fusion : string) (events : bool) : Model.t :=
  {| Model.d_time_series_num := 1;
     Model.d_embedding := 2;
     Model.max_len := 48;
     Model.pretrain_masked_steps := masked_steps;
     Model.pretrain_dropout := 0;
     Model.predict_events := events;
     Model.pretrain_presence := true;
     Model.pretrain_value := true;
     Model.fusion_method := fusion;
     Model.save_representation := false;
     Model.masked_transform_timesteps := 2;
     Model.rng := zero_rng;
     Model.special_embeddings := map (fun k => [of_nat k; 1]) (seq 0 8);
     Model.n_obs_embedding := map (fun k => of_nat k + (1 # 2)) (seq 0 16);
     Model.embedding_layers := [map (map (fun p => [p.1; p.2]))];
     Model.tab_encoder := map (fun r => [Qsum r; 0]);
     Model.dual_attention := fun p _ => p;
     Model.head := fun z => z;
     Model.pretrain_value_proj := fun z => z;
     Model.pretrain_presence_proj := fun z => z;
     Model.predict_events_proj := fun z => z;
     Model.predict_events_presence_proj := fun z => z |}.

(** A padded batch of two records over one event type, rows
    [[value; count; flag]]: the first record has one real bin and one
    bin of padding, the second has two real bins. *)
Definition short_batch : Model.batch :=
  {| Model.xs_static := [[1]; [2]];
     Model.xs_feats := [[[5; 1; 0]; [0; 0; 0]]; [[7; 1; 0]; [8; 3; 0]]];
     Model.xs_times := [[1; 0]; [1 # 2; 1]];
     Model.n_timesteps := [1; 2]%nat |}.

(** A batch whose masked bins hold different contents. *)
Definition masked_batch : Model.batch :=
  {| Model.xs_static := [[1]; [2]];
     Model.xs_feats := [[[5; 1; 0]; [9; 4; 1]]; [[0; 0; 1]; [8; 3; 0]]];
     Model.xs_times := [[1 # 2; 1]; [1 # 2; 1]];
     Model.n_timesteps := [2; 2]%nat |}.

(** A transformed tensor of one record: three real bins holding the same
    row, then the representation row. *)
Definition constant_rows : list (list (list Q)) :=
  [[[1 # 3; - (2); 5]; [1 # 3; - (2); 5]; [1 # 3; - (2); 5]; [7; 7; 7]]].


(** The hyper-parameters [Model(8, 36, 1, d_embedding=d, n_transformer_head=h)]. *)
Definition hparams_with (d h : nat) : Model.hparams :=
  let hp := Model.default_hparams 8 36 1 in
  {| Model.hp_d_static_num := Model.hp_d_static_num hp;
     Model.hp_d_time_series_num := Model.hp_d_time_series_num hp;
     Model.hp_d_target := Model.hp_d_target hp;
     Model.hp_glu := Model.hp_glu hp;
     Model.hp_scalenorm := Model.hp_scalenorm hp;
     Model.hp_n_hidden_mlp_embedding := Model.hp_n_hidden_mlp_embedding hp;
     Model.hp_d_hidden_mlp_embedding := Model.hp_d_hidden_mlp_embedding hp;
     Model.hp_d_embedding := d;
     Model.hp_d_feedforward := Model.hp_d_feedforward hp;
     Model.hp_n_transformer_head := h;
     Model.hp_n_duett_layers := Model.hp_n_duett_layers hp;
     Model.hp_d_hidden_tab_encoder := Model.hp_d_hidden_tab_encoder hp;
     Model.hp_n_hidden_tab_encoder := Model.hp_n_hidden_tab_encoder hp;
     Model.hp_norm_first := Model.hp_norm_first hp;
     Model.hp_n_hidden_head := Model.hp_n_hidden_head hp;
     Model.hp_d_hidden_head := Model.hp_d_hidden_head hp;
     Model.hp_pretrain_n_hidden := Model.hp_pretrain_n_hidden hp;
     Model.hp_pretrain_d_hidden := Model.hp_pretrain_d_hidden hp;
     Model.hp_pretrain_presence := Model.hp_pretrain_presence hp;
     Model.hp_predict_events := Model.hp_predict_events hp;
     Model.hp_transformer_dropout := Model.hp_transformer_dropout hp;
     Model.hp_pos_frac := Model.hp_pos_frac hp;
     Model.hp_masked_transform_timesteps := Model.hp_masked_transform_timesteps hp |}.

(** A module with a one-output head and a checkpoint saved with a
    three-output head and one layer that the module no longer has. *)
Definition current_module : Model.module_state :=
  {| Model.model_state_dict :=
       [("head.0.weight", {| Model.shape := [1; 4]%nat; Model.values := [0; 0; 0; 0] |});
        ("tab_encoder.0.weight", {| Model.shape := [2]%nat; Model.values := [1; 2] |})];
     Model.requires_grad := [("head.0.weight", true); ("tab_encoder.0.weight", true)];
     Model.freeze_encoder := false |}.

Definition old_checkpoint : Model.checkpoint :=
  {| Model.ckpt_state_dict :=
       [("head.0.weight",
         {| Model.shape := [3; 4]%nat;
            Model.values := [1; 1; 1; 1; 2; 2; 2; 2; 3; 3; 3; 3] |});
        ("tab_encoder.0.weight", {| Model.shape := [2]%nat; Model.values := [5; 6] |});
        ("old_layer.weight", {| Model.shape := [1]%nat; Model.values := [9] |})];
     Model.optimizer_states := Some [] |}.

End Examples.

(** ** Vocabulary of the statements *)

Module BinnerSpec.

Import Torch PhysioNetDataset.

(** The cell [x_ts[b, c]]. *)
Definition cell (x : list (list scalar)) (b c : nat) : option scalar :=
  r ← x !! b; r !! c.

(** A grid of [T] bins by 36 values and 36 counts. *)
Definition grid (T : nat) (x : list (list scalar)) : Prop :=
  length x = T /\ Forall (fun r => length r = 72%nat) x.

Section Hits.

Variable fl : Q -> Q.
Variable ds : t.
Variable tlast : Q.

(** The reading of event type [j] that an observation contributes to
    bin [b], if it has one. *)
Definition lands (b j : nat) (ob : Q * list scalar) : option Q :=
  bin ← bin_of fl (n_timesteps ds) ob.1 tlast;
  r ← index (n_timesteps ds) bin;
  if decide (r = b) then mjoin (ob.2 !! S j) else None.

(** The readings of event type [j] that fall into bin [b], in the order
    in which the loop processes them. *)
Definition hits (b j : nat) (obs : list (Q * list scalar)) : list Q :=
  omap (lands b j) obs.

(** The standardized value of a reading of event type [j]. *)
Definition standardized (j : nat) (v : Q) : scalar :=
  standardize fl (Some v) (default NaN (means ds !! S j)) (default NaN (stds ds !! S j)).

Definition increment (c : scalar) : scalar := add fl c (Some 1).

End Hits.

End BinnerSpec.

Module CheckpointSpec.

Import Model.

(** What the hook decides for an entry [o] of the state dictionary under
    the key [k]: a head tensor of another shape gives way to the
    module's, everything else stays. *)
Definition resolve (msd : list (string * param)) (k : string) (o : option param)
    : option param :=
  match dict_get msd k, o with
  | Some required, Some loaded =>
    if String.prefix "head" k && negb (shape_eqb (shape loaded) (shape required))
    then Some required else Some loaded
  | _, _ => o
  end.

End CheckpointSpec.

(** ** Vocabulary of the further statements *)

Module LayerSpec.

Import Model.

(** The width that a stack of layers gives to an input of width [d];
    there is none when a layer does not fit the width it receives. *)
Fixpoint out_width (ls : list layer) (d : nat) : option nat :=
  match ls with
  | [] => Some d
  | Linear d_in d_out :: r => if (d_in =? d)%nat then out_width r d_out else None
  | BatchNormLastDim k :: r => if (k =? d)%nat then out_width r d else None
  | _ :: r => out_width r d
  end.

Definition is_linear (l : layer) : bool :=
  match l with Linear _ _ => true | _ => false end.

End LayerSpec.

(** ** Further test data *)

Module Further.

Import Torch.

(** A validation split whose second record has no time stamp at all. *)
Definition corpus_unobserved (s : PhysioNetDataset.split)
    : PhysioNetDataset.tensor3 * list (list scalar) :=
  ({| PhysioNetDataset.shape2 := 45;
      PhysioNetDataset.data :=
        [[Examples.row 0 3; Examples.row 10 1; Examples.row 59.999 2];
         [NaN :: replicate 44 (Some 1); NaN :: replicate 44 (Some 2)]] |},
   [[Some 1]; [Some 0]]).

(** A split in which the first event type is read a single time. *)
Definition corpus_single_reading (s : PhysioNetDataset.split)
    : PhysioNetDataset.tensor3 * list (list scalar) :=
  ({| PhysioNetDataset.shape2 := 45;
      PhysioNetDataset.data :=
        [[Examples.row 0 1; <[1%nat := NaN]> (Examples.row 10 2);
          <[1%nat := NaN]> (Examples.row 59.999 3)]] |},
   [[Some 1]]).

(** A batch of one record as [pretrain_prep_batch] leaves it when the
    single event type is the masked one: values 0, counts [-1]. *)
Definition event_masked_batch : Model.batch :=
  {| Model.xs_static := [[1]];
     Model.xs_feats := [[[0; - (1); 0]; [0; - (1); 0]]];
     Model.xs_times := [[1 # 2; 1]];
     Model.n_timesteps := [2]%nat |}.

(** The test model with the feature dropout of pre-training at rate [p]. *)
Definition dropout_model (p : Q) : Model.t :=
  let m := Examples.model 1 "masked_embed" false in
  {| Model.d_time_series_num := Model.d_time_series_num m;
     Model.d_embedding := Model.d_embedding m;
     Model.max_len := Model.max_len m;
     Model.pretrain_masked_steps := Model.pretrain_masked_steps m;
     Model.pretrain_dropout := p;
     Model.predict_events := Model.predict_events m;
     Model.pretrain_presence := Model.pretrain_presence m;
     Model.pretrain_value := Model.pretrain_value m;
     Model.fusion_method := Model.fusion_method m;
     Model.save_representation := Model.save_representation m;
     Model.masked_transform_timesteps := Model.masked_transform_timesteps m;
     Model.rng := Model.rng m;
     Model.special_embeddings := Model.special_embeddings m;
     Model.n_obs_embedding := Model.n_obs_embedding m;
     Model.embedding_layers := Model.embedding_layers m;
     Model.tab_encoder := Model.tab_encoder m;
     Model.dual_attention := Model.dual_attention m;
     Model.head := Model.head m;
     Model.pretrain_value_proj := Model.pretrain_value_proj m;
     Model.pretrain_presence_proj := Model.pretrain_presence_proj m;
     Model.predict_events_proj := Model.predict_events_proj m;
     Model.predict_events_presence_proj := Model.predict_events_presence_proj m |}.

(** A checkpoint saved from [Examples.current_module] itself, with other
    weights. *)
Definition own_checkpoint : Model.checkpoint :=
  {| Model.ckpt_state_dict :=
       [("head.0.weight", {| Model.shape := [1; 4]%nat; Model.values := [1; 2; 3; 4] |});
        ("tab_encoder.0.weight", {| Model.shape := [2]%nat; Model.values := [5; 6] |})];
     Model.optimizer_states := Some [{| Model.shape := [1]%nat; Model.values := [7] |}] |}.

(** A module that freezes its encoder on loading. *)
Definition frozen_module : Model.module_state :=
  {| Model.model_state_dict := Model.model_state_dict Examples.current_module;
     Model.requires_grad :=
       [("head.0.weight", true); ("tab_encoder.0.weight", true);
        ("full_time_embedding.0.bias", true)];
     Model.freeze_encoder := true |}.

(** Evaluation: no augmentation is applied. *)
Definition eval_mode : FeatsToInput.mode :=
  {| FeatsToInput.training := false; FeatsToInput.aug_noise := 0;
     FeatsToInput.aug_mask := 1 # 2; FeatsToInput.pretrain := false |}.

(** Fine-tuning: rows are masked at rate one half, no noise is added. *)
Definition fine_tune_mode : FeatsToInput.mode :=
  {| FeatsToInput.training := true; FeatsToInput.aug_noise := 0;
     FeatsToInput.aug_mask := 1 # 2; FeatsToInput.pretrain := false |}.

(** Two records over one event type, with one and with two bins. *)
Definition short_sample : FeatsToInput.sample :=
  {| FeatsToInput.cols := 2; FeatsToInput.x_ts := [[5; 1]];
     FeatsToInput.x_static := [1]; FeatsToInput.bin_ends := [1] |}.

Definition long_sample : FeatsToInput.sample :=
  {| FeatsToInput.cols := 2; FeatsToInput.x_ts := [[7; 1]; [8; 3]];
     FeatsToInput.x_static := [2]; FeatsToInput.bin_ends := [1 # 2; 1] |}.

(** A record with 49 bins, one more than [max_len]. *)
Definition oversized_sample : FeatsToInput.sample :=
  {| FeatsToInput.cols := 2; FeatsToInput.x_ts := replicate 49 [0; 0];
     FeatsToInput.x_static := [3]; FeatsToInput.bin_ends := replicate 49 1 |}.

End Further.

Module ScheduleSpec.

Import WarmUpCallback.

(** The first [k] training batches: the callback runs before each of
    them, and nothing else touches the learning rates. *)
Fixpoint run (fl pow_half : Q -> Q) (k : nat) (cb : t) (opts : optimizers)
    : option (t * optimizers) :=
  match k with
  | O => Some (cb, opts)
  | S k' => r ← run fl pow_half k' cb opts; on_train_batch_start fl pow_half r.1 r.2
  end.

(** What the schedule has reached after [k] batches with one optimizer
    [o] whose rate was [b] at first: the counter, the constructor
    arguments, a base rate that is settled, and parameter groups that are
    those of [o]. *)
Definition reached (w dec : nat) (inv : bool) (o : optimizer) (b : Q) (k : nat)
    (r : t * optimizers) : Prop :=
  exists o',
    r.2 = Single o' /\
    steps (state r.1) = k /\ warmup_steps r.1 = w /\ decay r.1 = dec /\
    invsqrt r.1 = inv /\
    infer_base r.1 (Single o') = Some (Scalar b) /\
    forall x, set_lr o' x = set_lr o x.

End ScheduleSpec.

Module AverageSpec.

Import Torch Model.

(** Float tensors: a sum that only accepts equal shapes and is taken
    entry by entry, a quotient entry by entry, each result rounded with
    [fl]; the loaded values are stored as they are. *)
Definition add_same_shape (fl : Q -> Q) (a b : param) : option param :=
  if shape_eqb (shape a) (shape b)
  then Some {| shape := shape a;
               values := zip_with (fun x y => fl (x + y)) (values a) (values b) |}
  else None.

Definition div_float (fl : Q -> Q) (a : param) (n : nat) : param :=
  {| shape := shape a; values := map (fun x => fl (x / of_nat n)) (values a) |}.

Definition copy_float (own p : param) : list Q := values p.

End AverageSpec.

(** * Properties *)

Local Open Scope nat_scope.

(** ** The binner *)

Section Binner.

Import Torch PhysioNetDataset.

Lemma mapM_map_Some {A B C : Type} (f : A -> option B) (g : B -> C) (h : A -> C)
    (l : list A) (k : list B) :
  mapM f l = Some k ->
  (forall a b, f a = Some b -> g b = h a) ->
  map g k = map h l.
Proof.
  intros Hm Hgh. apply mapM_Some in Hm.
  induction Hm as [|a b l k Hab _ IH]; simpl; [reflexivity|].
  rewrite (Hgh a b Hab), IH. reflexivity.
Qed.

Lemma setup_statistics (kernels : reductions)
    (loader : split -> tensor3 * list (list scalar)) (ds ds' : t) :
  setup kernels loader ds = Some ds' ->
  X ds' = (loader (split_name ds)).1 /\
  split_name ds' = split_name ds /\
  means ds' = map (fun i => mean kernels (channel (X ds') i)) (seq 0 (shape2 (X ds'))) /\
  stds ds' = map (fun i => std kernels (channel (X ds') i)) (seq 0 (shape2 (X ds'))).
Proof.
  unfold setup. intros H.
  destruct (mapM _ _) as [stats|] eqn:Hs; simpl in H; [|discriminate].
  injection H as <-. simpl. repeat split.
  - eapply mapM_map_Some; [exact Hs|].
    intros i s Hi. unfold feature_stats in Hi.
    destruct (max _); simpl in Hi; [|discriminate].
    destruct (min _); simpl in Hi; [|discriminate].
    injection Hi as <-. reflexivity.
  - eapply mapM_map_Some; [exact Hs|].
    intros i s Hi. unfold feature_stats in Hi.
    destruct (max _); simpl in Hi; [|discriminate].
    destruct (min _); simpl in Hi; [|discriminate].
    injection Hi as <-. reflexivity.
Qed.

Lemma getitem_statistics (fl : Q -> Q) (ds ds2 : t) (i : nat) (it : item) :
  getitem fl ds i = Some (it, ds2) ->
  means ds2 = means ds /\ stds ds2 = stds ds /\ X ds2 = X ds.
Proof.
  unfold getitem. intros H.
  destruct (temp_cache ds ≫= _).
  - injection H as _ <-. auto.
  - destruct (compute_item fl ds i); simpl in H; [|discriminate].
    injection H as _ <-. auto.
Qed.

Lemma standardize_shift (x m s d : Q) :
  ~ (s + 1e-7 == 0)%Q ->
  exists z z',
    standardize exact (Some x) (Some m) (Some s) = Some z /\
    standardize exact (Some x) (Some (m + d)%Q) (Some s) = Some z' /\
    (z' == z - d / (s + 1e-7))%Q.
Proof.
  intros Hs. unfold standardize, div, sub, add, exact. simpl.
  destruct (Qeq_bool (s + 1e-7) 0) eqn:E.
  - apply Qeq_bool_iff in E. contradiction.
  - eexists _, _. repeat split. field. split.
    + intros H. discriminate H.
    + intros H. apply Hs.
      assert (E2 : (s + 1e-7 == (s * (Z.pow_pos 10 7 # 1) + 1) / (Z.pow_pos 10 7 # 1))%Q).
      { field. intros H'. discriminate H'. }
      rewrite E2, H. reflexivity.
Qed.

Lemma foldlM_ext {A B : Type} (f g : A -> B -> option A) (l : list B) :
  (forall a b, f a b = g a b) -> forall a, foldlM f l a = foldlM g l a.
Proof.
  intros Hfg. induction l as [|b l IH]; intros a; [reflexivity|].
  cbn [foldlM]. rewrite Hfg. destruct (g a b); [apply IH|reflexivity].
Qed.

(** An item is a function of the record, its label, the bin count and
    the stored statistics. *)
Lemma compute_item_depends (fl : Q -> Q) (ds1 ds2 : t) (i : nat) :
  means ds1 = means ds2 ->
  stds ds1 = stds ds2 ->
  n_timesteps ds1 = n_timesteps ds2 ->
  data (X ds1) !! i = data (X ds2) !! i ->
  y ds1 !! i = y ds2 !! i ->
  compute_item fl ds1 i = compute_item fl ds2 i.
Proof.
  intros Hm Hs HT HX Hy. unfold compute_item. rewrite HX, Hy, HT.
  destruct (data (X ds2) !! i) as [sample|]; [|reflexivity]. cbn [mbind option_bind].
  destruct (last _) as [tlast|]; [|reflexivity]. cbn [mbind option_bind].
  assert (Hrow : forall x ob, record_row fl ds1 tlast x ob = record_row fl ds2 tlast x ob).
  { intros x ob. unfold record_row. rewrite HT.
    destruct (bin_of _ _ _ _) as [bin|]; [|reflexivity]. cbn [mbind option_bind].
    apply foldlM_ext. intros a k. unfold record_value. rewrite Hm, Hs. reflexivity. }
  rewrite (foldlM_ext _ _ _ Hrow).
  assert (Hst : forall row0 k, static_value fl ds1 row0 k = static_value fl ds2 row0 k).
  { intros row0 k. unfold static_value. rewrite Hm, Hs. reflexivity. }
  destruct (foldlM _ _ _); [|reflexivity]. cbn [mbind option_bind].
  destruct (head _) as [row0|]; [|reflexivity]. cbn [mbind option_bind].
  assert (E : mapM (static_value fl ds1 row0) (seq 37 d_static_num)
              = mapM (static_value fl ds2 row0) (seq 37 d_static_num)).
  { apply mapM_ext. exact (Hst row0). }
  rewrite E. reflexivity.
Qed.

End Binner.

(** ** Several observations in one cell *)

Section Aggregation.

Import Torch PhysioNetDataset BinnerSpec.

Variable fl : Q -> Q.
Variable ds : t.

Lemma grid_alter (T : nat) (x : list (list scalar)) (f : list scalar -> list scalar)
    (r : nat) :
  (forall row, length (f row) = length row) ->
  grid T x -> grid T (alter f r x).
Proof.
  intros Hf [HT Hrows]. split.
  - rewrite length_alter. exact HT.
  - apply Forall_lookup. intros i row Hi.
    rewrite list_lookup_alter in Hi.
    rewrite Forall_lookup in Hrows.
    destruct (decide (r = i)) as [->|].
    + destruct (x !! i) as [row0|] eqn:E; simpl in Hi; [|discriminate].
      injection Hi as <-. rewrite Hf. eauto.
    + eauto.
Qed.

Lemma grid_cell (T : nat) (x : list (list scalar)) (b c : nat) :
  grid T x -> b < T -> c < 72 -> is_Some (cell x b c).
Proof.
  intros [HT Hrows] Hb Hc. unfold cell.
  destruct (x !! b) as [row|] eqn:E.
  - simpl. apply lookup_lt_is_Some.
    rewrite Forall_lookup in Hrows. rewrite (Hrows _ _ E). exact Hc.
  - apply lookup_ge_None in E. lia.
Qed.

(** One reading: the value cell is overwritten, the count cell
    incremented, every other cell kept. *)
Lemma record_value_cell (T : nat) (bin : Z) (row : list scalar)
    (x x' : list (list scalar)) (i : nat) :
  grid T x ->
  record_value fl ds bin row x i = Some x' ->
  1 <= i <= 36 ->
  grid T x' /\
  forall b j, b < T -> j < 36 ->
    let hit := if decide (i = S j)
               then r ← index T bin; if decide (r = b) then mjoin (row !! i) else None
               else None in
    cell x' b j = match hit with
                  | Some v => Some (standardized fl ds j v)
                  | None => cell x b j
                  end /\
    cell x' b (j + 36) = match hit with
                         | Some v => increment fl <$> cell x b (j + 36)
                         | None => cell x b (j + 36)
                         end.
Proof.
  intros Hg H Hi. unfold record_value in H.
  destruct (row !! i) as [x_i|] eqn:Er; simpl in H; [|discriminate].
  destruct x_i as [v|]; simpl in H.
  2:{ injection H as <-. split; [exact Hg|].
      intros b j Hb Hj. simpl.
      destruct (decide (i = S j)); [|done].
      destruct (index T bin) as [r|]; simpl; [|done].
      destruct (decide (r = b)); done. }
  destruct (means ds !! i) as [m|] eqn:Em; simpl in H; [|discriminate].
  destruct (stds ds !! i) as [s|] eqn:Es; simpl in H; [|discriminate].
  pose proof Hg as [HT Hrows]. rewrite HT in H.
  destruct (index T bin) as [r|] eqn:Eb; simpl in H; [|discriminate].
  injection H as <-. split.
  { apply grid_alter; [intros; apply length_alter|].
    apply grid_alter; [intros; apply length_insert|]. exact Hg. }
  intros b j Hb Hj. simpl.
  unfold cell. rewrite !list_lookup_alter.
  destruct (decide (r = b)) as [->|Hrb].
  2:{ destruct (decide (i = S j)); [|done]. simpl.
      destruct (decide (r = b)); [contradiction|done]. }
  destruct (x !! b) as [row0|] eqn:E0.
  2:{ apply lookup_ge_None in E0. lia. }
  assert (Hlen : length row0 = 72).
  { rewrite Forall_lookup in Hrows. eauto. }
  simpl. destruct (decide (b = b)); [|contradiction]. simpl.
  rewrite !list_lookup_alter, !list_lookup_insert. unfold d_time_series_num.
  destruct (decide (i = S j)) as [->|Hij]; simpl.
  - rewrite ?Nat.sub_0_r in *.
    repeat case_decide; try lia.
    split; [|done]. unfold standardized. rewrite Em, Es. done.
  - repeat case_decide; try lia; done.
Qed.

(** The inner loop over the event types. *)
Lemma record_values_cell (T : nat) (bin : Z) (row : list scalar) (l : list nat) :
  forall x x' : list (list scalar),
  grid T x ->
  foldlM (record_value fl ds bin row) l x = Some x' ->
  (forall i, i ∈ l -> 1 <= i <= 36) ->
  NoDup l ->
  grid T x' /\
  forall b j, b < T -> j < 36 ->
    let hit := if decide (S j ∈ l)
               then r ← index T bin; if decide (r = b) then mjoin (row !! S j) else None
               else None in
    cell x' b j = match hit with
                  | Some v => Some (standardized fl ds j v)
                  | None => cell x b j
                  end /\
    cell x' b (j + 36) = match hit with
                         | Some v => increment fl <$> cell x b (j + 36)
                         | None => cell x b (j + 36)
                         end.
Proof.
  induction l as [|i l IH]; intros x x' Hg H Hl Hnd.
  - simpl in H. injection H as <-. split; [exact Hg|].
    intros b j Hb Hj. simpl. destruct (decide (S j ∈ [])) as [Hin|]; [|done].
    apply elem_of_nil in Hin. contradiction.
  - simpl in H.
    destruct (record_value fl ds bin row x i) as [x1|] eqn:E1; simpl in H; [|discriminate].
    assert (Hi : 1 <= i <= 36) by (apply Hl; left).
    destruct (record_value_cell T bin row x x1 i Hg E1 Hi) as [Hg1 Hc1].
    apply NoDup_cons in Hnd as [Hnotin Hnd].
    destruct (IH x1 x' Hg1 H (fun k Hk => Hl k (list_elem_of_further _ _ _ Hk)) Hnd)
      as [Hg' Hc'].
    split; [exact Hg'|]. intros b j Hb Hj.
    specialize (Hc1 b j Hb Hj). specialize (Hc' b j Hb Hj). simpl in *.
    destruct Hc1 as [Hv1 Hn1], Hc' as [Hv' Hn'].
    rewrite Hv', Hn', Hv1, Hn1.
    destruct (decide (i = S j)) as [->|Hne].
    + destruct (decide (S j ∈ l)); [contradiction|].
      destruct (decide (S j ∈ S j :: l)) as [_|Hno]; [done|].
      exfalso. apply Hno. left.
    + destruct (decide (S j ∈ l)) as [Hin|Hnin].
      * destruct (decide (S j ∈ i :: l)) as [_|Hno]; [done|].
        exfalso. apply Hno. right. exact Hin.
      * destruct (decide (S j ∈ i :: l)) as [Hin|_]; [|done].
        apply elem_of_cons in Hin as [Heq|Hin]; [congruence|contradiction].
Qed.

(** One observation. *)
Lemma record_row_cell (tlast : Q) (x x' : list (list scalar)) (ob : Q * list scalar) :
  grid (n_timesteps ds) x ->
  record_row fl ds tlast x ob = Some x' ->
  grid (n_timesteps ds) x' /\
  forall b j, b < n_timesteps ds -> j < 36 ->
    cell x' b j = match lands fl ds tlast b j ob with
                  | Some v => Some (standardized fl ds j v)
                  | None => cell x b j
                  end /\
    cell x' b (j + 36) = match lands fl ds tlast b j ob with
                         | Some v => increment fl <$> cell x b (j + 36)
                         | None => cell x b (j + 36)
                         end.
Proof.
  intros Hg H. unfold record_row in H. unfold lands.
  destruct (bin_of fl (n_timesteps ds) ob.1 tlast) as [bin|];
    cbn [mbind option_bind] in H |- *; [|discriminate].
  assert (Hl : forall i, i ∈ seq 1 36 -> 1 <= i <= 36).
  { intros i Hi. apply elem_of_seq in Hi. lia. }
  destruct (record_values_cell (n_timesteps ds) bin ob.2 (seq 1 36) x x' Hg H Hl
              (NoDup_seq 1 36)) as [Hg' Hc].
  split; [exact Hg'|]. intros b j Hb Hj.
  specialize (Hc b j Hb Hj). cbv zeta in Hc.
  destruct (decide (S j ∈ seq 1 36)) as [_|Hno].
  - exact Hc.
  - exfalso. apply Hno. apply elem_of_seq. lia.
Qed.

Lemma iter_fmap_increment (n : nat) (c : scalar) :
  Nat.iter n (fmap (increment fl)) (Some c) = Some (Nat.iter n (increment fl) c).
Proof. induction n as [|n IH]; simpl; [reflexivity|]. rewrite IH. reflexivity. Qed.

(** The whole loop: the last reading that fell into a cell is the one
    stored, and the count has been incremented once per reading. *)
Lemma record_rows_cell (tlast : Q) (obs : list (Q * list scalar)) :
  forall x x' : list (list scalar),
  grid (n_timesteps ds) x ->
  foldlM (record_row fl ds tlast) obs x = Some x' ->
  grid (n_timesteps ds) x' /\
  forall b j, b < n_timesteps ds -> j < 36 ->
    cell x' b j = match last (hits fl ds tlast b j obs) with
                  | Some v => Some (standardized fl ds j v)
                  | None => cell x b j
                  end /\
    cell x' b (j + 36)
      = Nat.iter (length (hits fl ds tlast b j obs)) (fmap (increment fl))
                 (cell x b (j + 36)).
Proof.
  induction obs as [|ob obs IH]; intros x x' Hg H.
  - simpl in H. injection H as <-. split; [exact Hg|]. intros; done.
  - simpl in H.
    destruct (record_row fl ds tlast x ob) as [x1|] eqn:E1; simpl in H; [|discriminate].
    destruct (record_row_cell tlast x x1 ob Hg E1) as [Hg1 Hc1].
    destruct (IH x1 x' Hg1 H) as [Hg' Hc'].
    split; [exact Hg'|]. intros b j Hb Hj.
    destruct (Hc1 b j Hb Hj) as [Hv1 Hn1]. destruct (Hc' b j Hb Hj) as [Hv' Hn'].
    rewrite Hv', Hn', Hv1, Hn1. unfold hits.
    assert (Hcons : omap (lands fl ds tlast b j) (ob :: obs)
                    = match lands fl ds tlast b j ob with
                      | Some v => v :: omap (lands fl ds tlast b j) obs
                      | None => omap (lands fl ds tlast b j) obs
                      end) by reflexivity.
    rewrite Hcons.
    destruct (lands fl ds tlast b j ob) as [v|]; [|done].
    rewrite last_cons. split.
    + destruct (last (omap (lands fl ds tlast b j) obs)); done.
    + cbn [length]. rewrite Nat.iter_succ_r. done.
Qed.

Lemma grid_zeros (T : nat) :
  grid T (replicate T (replicate (d_time_series_num * 2) (Some 0%Q))).
Proof.
  split; [apply length_replicate|].
  apply Forall_replicate. apply length_replicate.
Qed.

Lemma cell_zeros (T b c : nat) :
  b < T -> c < 72 ->
  cell (replicate T (replicate (d_time_series_num * 2) (Some 0%Q))) b c = Some (Some 0%Q).
Proof.
  intros Hb Hc. unfold cell. rewrite lookup_replicate_2 by exact Hb.
  cbn [mbind option_bind]. apply lookup_replicate_2. exact Hc.
Qed.

Lemma of_nat_succ (n : nat) : (of_nat (S n) == of_nat n + 1)%Q.
Proof.
  unfold of_nat. rewrite Nat2Z.inj_succ, <- Z.add_1_r, inject_Z_plus. reflexivity.
Qed.

Lemma iter_increment_exact (n : nat) :
  (forall q, fl q = q) ->
  exists c, Nat.iter n (increment fl) (Some 0%Q) = Some c /\ (c == of_nat n)%Q.
Proof.
  intros Hfl. induction n as [|n [c [Hc Hq]]].
  - exists 0%Q. split; reflexivity.
  - exists (c + 1)%Q. split.
    + simpl. rewrite Hc. unfold increment, add. simpl. rewrite Hfl. reflexivity.
    + rewrite of_nat_succ, Hq. reflexivity.
Qed.

(** The cells of the item that [__getitem__] computes. *)
Lemma compute_item_cells (i : nat) (it : item)
    (sample : list (list scalar)) (tlast : Q) (b j : nat) :
  compute_item fl ds i = Some it ->
  data (X ds) !! i = Some sample ->
  last (map fst (observations fl sample)) = Some tlast ->
  b < n_timesteps ds -> j < 36 ->
  let hs := hits fl ds tlast b j (observations fl sample) in
  cell (x_ts it) b j
    = Some (match last hs with
            | Some v => standardized fl ds j v
            | None => Some 0%Q
            end) /\
  cell (x_ts it) b (j + 36) = Some (Nat.iter (length hs) (increment fl) (Some 0%Q)).
Proof.
  intros H Hs Hl Hb Hj hs. unfold compute_item in H.
  rewrite Hs in H. cbn [mbind option_bind] in H. rewrite Hl in H.
  cbn [mbind option_bind] in H.
  destruct (foldlM (record_row fl ds tlast) (observations fl sample) _) as [x|] eqn:Ef;
    cbn [mbind option_bind] in H; [|discriminate].
  assert (Hx : x_ts it = x).
  { destruct (head _); cbn [mbind option_bind] in H; [|discriminate].
    destruct (mapM _ _); cbn [mbind option_bind] in H; [|discriminate].
    destruct (y ds !! i) as [yi|]; cbn [mbind option_bind] in H; [|discriminate].
    destruct (yi !! 0); cbn [mbind option_bind] in H; [|discriminate].
    injection H as <-. reflexivity. }
  rewrite Hx.
  destruct (record_rows_cell tlast (observations fl sample) _ x
              (grid_zeros (n_timesteps ds)) Ef) as [_ Hc].
  destruct (Hc b j Hb Hj) as [Hv Hn].
  rewrite Hv, Hn, !cell_zeros by lia. fold hs.
  split.
  - destruct (last hs); reflexivity.
  - apply iter_fmap_increment.
Qed.

(** C10.  In the item that [__getitem__] computes, the value cell of a
    bin and an event type holds the standardized value of the last
    reading of that type processed for that bin (zero when there is none),
    and the count cell has been incremented by one for each such reading;
    in exact arithmetic the count is their number. *)
Theorem same_cell_readings_overwrite_and_count (i : nat) (it : item)
    (sample : list (list scalar)) (tlast : Q) (b j : nat) :
  compute_item fl ds i = Some it ->
  data (X ds) !! i = Some sample ->
  last (map fst (observations fl sample)) = Some tlast ->
  b < n_timesteps ds -> j < 36 ->
  let hs := hits fl ds tlast b j (observations fl sample) in
  cell (x_ts it) b j
    = Some (match last hs with
            | Some v => standardized fl ds j v
            | None => Some 0%Q
            end) /\
  cell (x_ts it) b (j + 36) = Some (Nat.iter (length hs) (increment fl) (Some 0%Q)) /\
  ((forall q, fl q = q) ->
   exists c, Nat.iter (length hs) (increment fl) (Some 0%Q) = Some c
             /\ (c == of_nat (length hs))%Q).
Proof.
  intros H Hs Hl Hb Hj hs.
  destruct (compute_item_cells i it sample tlast b j H Hs Hl Hb Hj) as [Hv Hn].
  split; [exact Hv|]. split; [exact Hn|].
  apply iter_increment_exact.
Qed.

(** The readings of the last observation are hits of the final bin, and
    the last ones. *)
Lemma last_observation_hits (tlast : Q) (pre : list (Q * list scalar))
    (ob : Q * list scalar) (j : nat) (v : Q) :
  0 < n_timesteps ds ->
  ob.1 = tlast ->
  ob.2 !! S j = Some (Some v) ->
  last (hits fl ds tlast (n_timesteps ds - 1) j (pre ++ [ob])) = Some v.
Proof.
  intros HT Ht Hv. unfold hits. rewrite omap_app.
  assert (Hl : lands fl ds tlast (n_timesteps ds - 1) j ob = Some v).
  { unfold lands, bin_of. rewrite Ht, Qeq_bool_refl. cbn [mbind option_bind].
    unfold index.
    destruct (0 <=? _)%Z eqn:E1; [|lia].
    destruct (_ <? _)%Z eqn:E2; [|lia].
    cbn [andb mbind option_bind].
    destruct (decide _) as [_|Hne]; [|lia].
    rewrite Hv. reflexivity. }
  assert (Hs : omap (lands fl ds tlast (n_timesteps ds - 1) j) [ob] = [v]).
  { change (omap (lands fl ds tlast (n_timesteps ds - 1) j) [ob])
      with (match lands fl ds tlast (n_timesteps ds - 1) j ob with
            | Some y => [y] | None => [] end).
    rewrite Hl. reflexivity. }
  rewrite Hs. apply last_snoc.
Qed.

End Aggregation.

(** ** Standardization *)

Section Standardization.

Import Torch PhysioNetDataset BinnerSpec.

Lemma setup_statistic (kernels : reductions)
    (loader : split -> tensor3 * list (list scalar)) (ds ds' : t) (k : nat) :
  setup kernels loader ds = Some ds' ->
  k < shape2 (X ds') ->
  means ds' !! k = Some (mean kernels (channel (loader (split_name ds)).1 k)) /\
  stds ds' !! k = Some (std kernels (channel (loader (split_name ds)).1 k)).
Proof.
  intros H Hk. destruct (setup_statistics kernels loader ds ds' H) as (HX & _ & Hm & Hs).
  rewrite Hm, Hs, !list_lookup_fmap, lookup_seq_lt by exact Hk.
  rewrite HX. split; reflexivity.
Qed.

Lemma compute_item_static (fl : Q -> Q) (ds : t) (i : nat) (it : item)
    (sample : list (list scalar)) (row0 : list scalar) (k : nat) :
  compute_item fl ds i = Some it ->
  data (X ds) !! i = Some sample ->
  head (map snd (observations fl sample)) = Some row0 ->
  k < d_static_num ->
  exists x m s,
    row0 !! (37 + k) = Some x /\ means ds !! (37 + k) = Some m /\
    stds ds !! (37 + k) = Some s /\
    x_static it !! k = Some (default 0%Q (standardize fl x m s)).
Proof.
  intros H Hs Hr Hk. unfold compute_item in H.
  rewrite Hs in H. cbn [mbind option_bind] in H.
  destruct (last _); cbn [mbind option_bind] in H; [|discriminate].
  destruct (foldlM _ _ _); cbn [mbind option_bind] in H; [|discriminate].
  rewrite Hr in H. cbn [mbind option_bind] in H.
  destruct (mapM _ _) as [st|] eqn:Em; cbn [mbind option_bind] in H; [|discriminate].
  destruct (y ds !! i) as [yi|]; cbn [mbind option_bind] in H; [|discriminate].
  destruct (yi !! 0); cbn [mbind option_bind] in H; [|discriminate].
  injection H as <-. cbn [x_static].
  apply mapM_Some in Em.
  assert (Hl : seq 37 d_static_num !! k = Some (37 + k)) by (apply lookup_seq_lt; exact Hk).
  destruct (Forall2_lookup_l _ _ _ _ _ Em Hl) as (v & Hv & Hf).
  unfold static_value in Hf.
  destruct (row0 !! (37 + k)) as [x|]; cbn [mbind option_bind] in Hf; [|discriminate].
  destruct (means ds !! (37 + k)) as [m|]; cbn [mbind option_bind] in Hf; [|discriminate].
  destruct (stds ds !! (37 + k)) as [sd|]; cbn [mbind option_bind] in Hf; [|discriminate].
  injection Hf as <-. exists x, m, sd. auto.
Qed.

(** C1, as the code has it.  Each dataset computes its per-feature mean
    and standard deviation once, in its own [setup], over the table of
    its own split (the validation dataset over the validation split), and
    [__getitem__] reuses them unchanged.  A cell of an item that receives
    a reading [v] of an event type holds
    [(v - mean) / (std + 1e-7)] for the mean and the standard deviation
    that torch gives for that channel of the own split, and so does each
    static entry (with 0 for a NaN); the item depends on the dataset only
    through the record and these statistics.  In exact arithmetic
    shifting the stored mean by [d] shifts the value by exactly
    [- d / (std + 1e-7)]. *)
Theorem standardization_uses_own_split_statistics
    (kernels : reductions) (loader : split -> tensor3 * list (list scalar))
    (fl : Q -> Q) (ds ds' : t) :
  setup kernels loader ds = Some ds' ->
  let table := (loader (split_name ds)).1 in
  (X ds' = table /\
   split_name ds' = split_name ds /\
   means ds' = map (fun k => mean kernels (channel table k)) (seq 0 (shape2 table)) /\
   stds ds' = map (fun k => std kernels (channel table k)) (seq 0 (shape2 table))) /\
  (forall i it ds2, getitem fl ds' i = Some (it, ds2) ->
     means ds2 = means ds' /\ stds ds2 = stds ds' /\ X ds2 = X ds') /\
  (forall i it sample tlast b j v,
     compute_item fl ds' i = Some it ->
     data table !! i = Some sample ->
     last (map fst (observations fl sample)) = Some tlast ->
     b < n_timesteps ds' -> j < 36 -> S j < shape2 table ->
     last (hits fl ds' tlast b j (observations fl sample)) = Some v ->
     cell (x_ts it) b j
     = Some (standardize fl (Some v) (mean kernels (channel table (S j)))
                         (std kernels (channel table (S j))))) /\
  (forall i it sample row0 k,
     compute_item fl ds' i = Some it ->
     data table !! i = Some sample ->
     head (map snd (observations fl sample)) = Some row0 ->
     k < d_static_num -> 37 + k < shape2 table ->
     exists x,
       row0 !! (37 + k) = Some x /\
       x_static it !! k
       = Some (default 0%Q
                 (standardize fl x (mean kernels (channel table (37 + k)))
                              (std kernels (channel table (37 + k)))))) /\
  (forall ds2 i,
     means ds2 = means ds' -> stds ds2 = stds ds' ->
     n_timesteps ds2 = n_timesteps ds' ->
     data (X ds2) !! i = data (X ds') !! i -> y ds2 !! i = y ds' !! i ->
     compute_item fl ds2 i = compute_item fl ds' i) /\
  (forall x m s d : Q, ~ (s + 1e-7 == 0)%Q ->
     exists z z',
       standardize exact (Some x) (Some m) (Some s) = Some z /\
       standardize exact (Some x) (Some (m + d)%Q) (Some s) = Some z' /\
       (z' == z - d / (s + 1e-7))%Q).
Proof.
  intros H table.
  destruct (setup_statistics kernels loader ds ds' H) as (HX & Hn & Hm & Hs).
  fold table in HX. rewrite HX in Hm, Hs.
  split; [auto|]. split; [intros i it ds2; apply getitem_statistics|].
  split; [|split; [|split]].
  - intros i it sample tlast b j v Hi Hd Hl Hb Hj Hj' Hv.
    rewrite <- HX in Hd, Hj'.
    destruct (compute_item_cells fl ds' i it sample tlast b j Hi Hd Hl Hb Hj) as [Hc _].
    rewrite Hc, Hv. unfold standardized.
    destruct (setup_statistic kernels loader ds ds' (S j) H Hj') as [-> ->].
    reflexivity.
  - intros i it sample row0 k Hi Hd Hr Hk Hk'.
    rewrite <- HX in Hd, Hk'.
    destruct (compute_item_static fl ds' i it sample row0 k Hi Hd Hr Hk)
      as (x & m & s & Hx & Hm' & Hs' & Hst).
    destruct (setup_statistic kernels loader ds ds' (37 + k) H Hk') as [Em Es].
    rewrite Em in Hm'. rewrite Es in Hs'.
    injection Hm' as <-. injection Hs' as <-.
    exists x. auto.
  - intros ds2 i. apply compute_item_depends.
  - exact standardize_shift.
Qed.

Lemma standardization_uses_own_split_statistics_witness :
  exists ds' it,
    setup exact_reductions Examples.corpus (init val 32 false) = Some ds' /\
    X ds' = (Examples.corpus val).1 /\
    compute_item float32 ds' 0 = Some it /\
    cell (x_ts it) 31 0
    = Some (standardize float32 (Some 3%Q)
              (mean exact_reductions (channel (Examples.corpus val).1 1))
              (std exact_reductions (channel (Examples.corpus val).1 1))) /\
    mean exact_reductions (channel (Examples.corpus val).1 1) = Some 2%Q /\
    std exact_reductions (channel (Examples.corpus val).1 1) = Some 1%Q.
Proof.
  destruct (setup exact_reductions Examples.corpus (init val 32 false)) as [ds'|] eqn:E;
    [|vm_compute in E; discriminate E].
  pose proof (standardization_uses_own_split_statistics
                exact_reductions Examples.corpus float32 (init val 32 false) ds' E)
    as ((HX & _) & _ & Hcell & _).
  unfold setup in E. destruct (mapM _ _) as [stats|] eqn:Em; [|discriminate E].
  vm_compute in Em. injection Em as <-. injection E as <-.
  match type of Hcell with
  | context [compute_item float32 ?d _] =>
    destruct (compute_item float32 d 0) as [it|] eqn:Ei;
      [|vm_compute in Ei; discriminate Ei]
  end.
  eexists _, it. split; [reflexivity|]. split; [exact HX|]. split; [exact Ei|].
  split; [|split; reflexivity].
  apply (Hcell 0 it _ (float32 (float32 (59.999 / 60) / 24)) 31 0 3%Q Ei eq_refl);
    [vm_compute; reflexivity | cbn; lia | lia | cbn; lia | vm_compute; reflexivity].
Defined.

(** C1 as stated fails: in a data module set up on a corpus whose
    training and validation splits differ, the validation dataset holds the
    statistics of the validation split, and the standardized cell of a
    validation record is the one these give, not the one the training
    statistics give. *)
Lemma validation_record_not_standardized_by_training_statistics :
  exists dm it ds',
    PhysioNetDataModule.setup exact_reductions Examples.corpus
      (PhysioNetDataModule.init false 8) None = Some dm /\
    getitem float32 (PhysioNetDataModule.ds_val dm) 0 = Some (it, ds') /\
    means (PhysioNetDataModule.ds_val dm) !! 1 = Some (Some 2%Q) /\
    stds (PhysioNetDataModule.ds_val dm) !! 1 = Some (Some 1%Q) /\
    means (PhysioNetDataModule.ds_train dm) !! 1 = Some (Some 20%Q) /\
    stds (PhysioNetDataModule.ds_train dm) !! 1 = Some (Some 10%Q) /\
    (r ← x_ts it !! 31; r !! 0)
      = Some (standardize float32 (Some 3%Q) (Some 2%Q) (Some 1%Q)) /\
    (r ← x_ts it !! 31; r !! 0)
      <> Some (standardize float32 (Some 3%Q) (Some 20%Q) (Some 10%Q)).
Proof.
  destruct (PhysioNetDataModule.setup exact_reductions Examples.corpus
              (PhysioNetDataModule.init false 8) None) as [dm|] eqn:E;
    [|vm_compute in E; discriminate E].
  vm_compute in E. injection E as <-.
  eexists _, _, _. split; [reflexivity|].
  split; [vm_compute; reflexivity|].
  repeat split; try (vm_compute; reflexivity).
  vm_compute. intros H. discriminate H.
Qed.

End Standardization.


(** ** The last observation *)

Section FinalBin.

Import Torch PhysioNetDataset BinnerSpec.

(** C5.  The last raw observation of a record is binned by the guard
    [t == time[-1]], whatever the rounding of the arithmetic: its bin is
    [n_timesteps - 1], the loop writes its readings with that bin, and
    the bin is the last row of [x_ts]. *)
Theorem last_observation_falls_in_final_bin (fl : Q -> Q) (ds : t)
    (sample : list (list scalar)) (pre : list (Q * list scalar))
    (ob : Q * list scalar) :
  observations fl sample = pre ++ [ob] ->
  last (map fst (observations fl sample)) = Some ob.1 /\
  bin_of fl (n_timesteps ds) ob.1 ob.1 = Some (Z.of_nat (n_timesteps ds) - 1)%Z /\
  (forall x, record_row fl ds ob.1 x ob
             = foldlM (record_value fl ds (Z.of_nat (n_timesteps ds) - 1) ob.2)
                      (seq 1 36) x) /\
  (0 < n_timesteps ds ->
   index (n_timesteps ds) (Z.of_nat (n_timesteps ds) - 1) = Some (n_timesteps ds - 1)) /\
  (forall i it j v,
     0 < n_timesteps ds -> j < 36 ->
     data (X ds) !! i = Some sample ->
     compute_item fl ds i = Some it ->
     ob.2 !! S j = Some (Some v) ->
     cell (x_ts it) (n_timesteps ds - 1) j = Some (standardized fl ds j v)).
Proof.
  intros Hobs.
  assert (Hbin : bin_of fl (n_timesteps ds) ob.1 ob.1
                 = Some (Z.of_nat (n_timesteps ds) - 1)%Z).
  { unfold bin_of. rewrite Qeq_bool_refl. reflexivity. }
  assert (Hlast : last (map fst (observations fl sample)) = Some ob.1).
  { rewrite Hobs, map_app. simpl. apply last_snoc. }
  split; [exact Hlast|split; [exact Hbin|split; [|split]]].
  - intros x. unfold record_row. rewrite Hbin. reflexivity.
  - intros HT. unfold index.
    destruct (0 <=? _)%Z eqn:E1; [|lia].
    destruct (_ <? _)%Z eqn:E2; [|lia].
    simpl. f_equal. lia.
  - intros i it j v HT Hj Hs Hi Hv.
    destruct (compute_item_cells fl ds i it sample ob.1 (n_timesteps ds - 1) j
                Hi Hs Hlast ltac:(lia) Hj) as [Hc _].
    rewrite Hc, Hobs.
    rewrite (last_observation_hits fl ds ob.1 pre ob j v HT eq_refl Hv).
    reflexivity.
Qed.

(** The record of the specification: time stamps 0, 10 and 59.999 with
    four bins, in binary32 arithmetic. *)
Lemma last_observation_falls_in_final_bin_witness :
  let ds := init val 4 false in
  let sample := [Examples.row 0 1; Examples.row 10 2; Examples.row 59.999 3] in
  exists tlast,
    last (map fst (observations float32 sample)) = Some tlast /\
    map (fun ob => bin_of float32 (n_timesteps ds) ob.1 tlast) (observations float32 sample)
      = [Some 0%Z; Some 0%Z; Some 3%Z].
Proof.
  intros ds sample.
  destruct (observations float32 sample) as [|o1 [|o2 [|o3 [|]]]] eqn:E;
    try (vm_compute in E; discriminate E).
  pose proof (last_observation_falls_in_final_bin float32 ds sample [o1; o2] o3 E)
    as [Hl [Hb _]].
  exists o3.1. split.
  - rewrite <- E. exact Hl.
  - cbn [map]. rewrite Hb. vm_compute in E. injection E as <- <- <-.
    vm_compute. reflexivity.
Defined.

End FinalBin.

Lemma same_cell_readings_overwrite_and_count_witness :
  exists ds it,
    PhysioNetDataset.setup Torch.exact_reductions Examples.corpus_shared_bin
      (PhysioNetDataset.init PhysioNetDataset.val 4 false) = Some ds /\
    PhysioNetDataset.compute_item Torch.exact ds 0 = Some it /\
    BinnerSpec.cell (PhysioNetDataset.x_ts it) 0 0
      = Some (PhysioNetDataset.standardize Torch.exact (Some 1%Q) (Some 2%Q) (Some 1%Q)) /\
    BinnerSpec.cell (PhysioNetDataset.x_ts it) 0 36 = Some (Some 2%Q).
Proof.
  destruct (PhysioNetDataset.setup Torch.exact_reductions Examples.corpus_shared_bin
              (PhysioNetDataset.init PhysioNetDataset.val 4 false)) as [ds|] eqn:E;
    [|vm_compute in E; discriminate E].
  destruct (PhysioNetDataset.compute_item Torch.exact ds 0) as [it|] eqn:Ei;
    [|vm_compute in E; injection E as <-; vm_compute in Ei; discriminate Ei].
  exists ds, it. split; [reflexivity|]. split; [exact Ei|].
  assert (Hs : PhysioNetDataset.data (PhysioNetDataset.X ds) !! 0
               = Some [Examples.row 0 3; Examples.row 10 1; Examples.row 59.999 2]).
  { vm_compute in E. injection E as <-. reflexivity. }
  assert (HT : PhysioNetDataset.n_timesteps ds = 4).
  { vm_compute in E. injection E as <-. reflexivity. }
  destruct (last (map fst (PhysioNetDataset.observations Torch.exact
              [Examples.row 0 3; Examples.row 10 1; Examples.row 59.999 2])))
    as [tlast|] eqn:El; [|vm_compute in El; discriminate El].
  pose proof (same_cell_readings_overwrite_and_count Torch.exact ds 0 it _ tlast 0 0
                Ei Hs El ltac:(rewrite HT; lia) ltac:(lia)) as [Hv [Hn _]].
  change (0 + 36) with 36 in Hn.
  rewrite Hv, Hn. vm_compute in El. injection El as <-.
  vm_compute in E. injection E as <-. vm_compute. split; reflexivity.
Defined.

(** ** The masking policy *)

Section Masking.

Import Model.

Lemma choice_size_draws (n k : nat) :
  n <> 0 ->
  forall g : Generator,
  choice_size g n k
  = Some (map (fun i => draws g (pos g + i) mod n) (seq 0 k),
          {| draws := draws g; pos := pos g + k |}).
Proof.
  intros Hn. induction k as [|k IH]; intros g.
  - simpl. rewrite Nat.add_0_r. destruct g; reflexivity.
  - cbn [choice_size]. unfold choice at 1.
    destruct (n =? 0) eqn:E; [apply Nat.eqb_eq in E; contradiction|].
    cbn [mbind option_bind fst snd]. rewrite IH.
    cbn [mbind option_bind fst snd next draws pos].
    f_equal. f_equal.
    + cbn [seq map]. rewrite Nat.add_0_r. f_equal.
      rewrite <- seq_shift, map_map.
      apply map_ext. intros i. f_equal. f_equal. lia.
    + f_equal. lia.
Qed.


Lemma masked_row_cell (r : list Q) (c : nat) (v : Q) :
  r !! c = Some v ->
  set_last 1 (replicate (length r) 0%Q) !! c
  = Some (if c =? length r - 1 then 1%Q else 0%Q).
Proof.
  intros Hc. apply lookup_lt_Some in Hc. unfold set_last.
  rewrite length_replicate, list_lookup_insert, length_replicate.
  destruct (Nat.eqb_spec c (length r - 1)) as [->|Hne].
  - rewrite decide_True by lia. reflexivity.
  - rewrite decide_False by lia. apply lookup_replicate_2. exact Hc.
Qed.

Lemma event_clip_cell (r : list Q) (ev n_vars c : nat) (v : Q) :
  r !! c = Some v ->
  <[(ev + n_vars)%nat := (- (1))%Q]> (<[ev := 0%Q]> r) !! c
  = Some (if c =? ev + n_vars then (- (1))%Q else if c =? ev then 0%Q else v).
Proof.
  intros Hc. pose proof (lookup_lt_Some _ _ _ Hc) as Hlt.
  rewrite !list_lookup_insert, length_insert.
  destruct (Nat.eqb_spec c (ev + n_vars)) as [->|Hne].
  - rewrite decide_True by lia. reflexivity.
  - rewrite decide_False by lia.
    destruct (Nat.eqb_spec c ev) as [->|Hne'].
    + rewrite decide_True by lia. reflexivity.
    + rewrite decide_False by lia. exact Hc.
Qed.

Lemma mapM_lookup {A B : Type} (f : A -> option B) (l : list A) (k : list B)
    (i : nat) (x : A) :
  mapM f l = Some k -> l !! i = Some x -> exists y, k !! i = Some y /\ f x = Some y.
Proof.
  intros H Hx. apply mapM_Some in H.
  destruct (Forall2_lookup_l _ _ _ _ _ H Hx) as (y & Hy & Hf). eauto.
Qed.

(** What the body of the loop of [pretrain_prep_batch] does to a record
    once the policy has chosen the single index [i] and left the
    generator [g1]. *)
Lemma prep_record_index (m : t) (xs : tensor3) (n_vars : nat) (st st' : prep)
    (b n i : nat) (g1 : Generator) (rows crows : list (list Q)) :
  select_mask (pretrain_masked_steps m) (gen st) n = Some (Int i, g1) ->
  prep_record m xs n_vars st (b, n) = Some st' ->
  xs !! b = Some rows ->
  xs_ts_clipped st !! b = Some crows ->
  let ev := draws g1 (pos g1) mod d_time_series_num m in
  (exists r, rows !! i = Some r /\
     y_ts st' = y_ts st ++ [One (take n_vars r)] /\
     y_ts_n_obs st' = y_ts_n_obs st ++ [One (take n_vars (drop n_vars r))]) /\
  pos (gen st') = pos g1 + (if predict_events m then 1 else 0) /\
  exists crows',
    xs_ts_clipped st' !! b = Some crows' /\
    length crows' = length crows /\
    forall t c r v, crows !! t = Some r -> r !! c = Some v ->
      (r' ← crows' !! t; r' !! c)
      = Some (if predict_events m && (c =? ev + n_vars) then (- (1))%Q
              else if predict_events m && (c =? ev) then 0%Q
              else if t =? i then (if c =? length r - 1 then 1%Q else 0%Q)
              else v).
Proof.
  intros Hsel H Hrows Hcrows ev. unfold prep_record in H. cbn [fst snd] in H.
  rewrite Hsel in H. cbn [mbind option_bind fst snd] in H.
  rewrite Hrows in H. cbn [mbind option_bind gather] in H.
  rewrite !list_lookup_fmap in H.
  destruct (rows !! i) as [r|] eqn:Er; [|discriminate H].
  cbn [fmap option_fmap option_map mbind option_bind] in H.
  rewrite Hcrows in H. cbn [mbind option_bind assign_rows] in H.
  unfold assign_row in H.
  destruct (i <? length crows) eqn:Ei; [|discriminate H].
  cbn [mbind option_bind] in H. rewrite length_alter, Ei in H.
  cbn [mbind option_bind] in H.
  pose proof (lookup_lt_Some _ _ _ Hcrows) as Hb.
  set (masked := alter (set_last 1) i (alter (fun r => replicate (length r) 0%Q) i crows))
    in *.
  assert (Hmasked : forall t c r v, crows !! t = Some r -> r !! c = Some v ->
            exists r', masked !! t = Some r' /\ length r' = length r /\
              r' !! c = Some (if t =? i then (if c =? length r - 1 then 1%Q else 0%Q)
                              else v)).
  { intros t c r0 v Ht Hc. unfold masked.
    destruct (Nat.eqb_spec t i) as [->|Hne].
    - rewrite !list_lookup_alter_eq, Ht. cbn [fmap option_fmap option_map].
      eexists. split; [reflexivity|]. split.
      + unfold set_last. rewrite length_insert, length_replicate. reflexivity.
      + apply (masked_row_cell r0 c v Hc).
    - rewrite !list_lookup_alter_ne by congruence. eauto. }
  assert (Hlen : length masked = length crows).
  { unfold masked. rewrite !length_alter. reflexivity. }
  destruct (predict_events m).
  - destruct (choice g1 (d_time_series_num m)) as [e|] eqn:Ec; [|discriminate H].
    cbn [mbind option_bind] in H.
    assert (He : e = (ev, (next g1).2)).
    { unfold choice in Ec. destruct (d_time_series_num m =? 0); [discriminate Ec|].
      injection Ec as <-. reflexivity. }
    subst e. cbn [fst snd] in H.
    repeat match type of H with
           | context [mapM ?f ?l] =>
             destruct (mapM f l) eqn:?; cbn [mbind option_bind] in H; try discriminate H
           end.
    match goal with
    | E : mapM _ masked = Some ?c |- _ => rename E into Em; rename c into crows'
    end.
    injection H as <-.
    cbn [y_ts y_ts_n_obs xs_ts_clipped gen andb].
    split; [exists r; auto|]. split; [cbn [next snd pos]; lia|].
    exists crows'. split; [apply list_lookup_insert_eq; exact Hb|].
    split; [apply length_mapM in Em; lia|].
    intros t c r0 v Ht Hc.
    destruct (Hmasked t c r0 v Ht Hc) as (r1 & Hr1 & Hl1 & Hc1).
    destruct (mapM_lookup _ _ _ t r1 Em Hr1) as (r2 & Hr2 & Hf).
    rewrite Hr2. cbn [mbind option_bind].
    destruct (ev + n_vars <? length r1); [|discriminate Hf].
    injection Hf as <-. apply event_clip_cell. exact Hc1.
  - injection H as <-. cbn [y_ts y_ts_n_obs xs_ts_clipped gen andb].
    split; [exists r; auto|]. split; [lia|].
    exists masked. split; [apply list_lookup_insert_eq; exact Hb|].
    split; [exact Hlen|].
    intros t c r0 v Ht Hc.
    destruct (Hmasked t c r0 v Ht Hc) as (r1 & Hr1 & _ & Hc1).
    rewrite Hr1. exact Hc1.
Qed.




(** C4 as stated fails: with two masked steps and two bins, a generator
    that draws the same number twice selects the bin 0 twice. *)
Lemma multi_step_mask_repeats_an_index :
  select_mask 2 Examples.zero_rng 2
    = Some (Array [0; 0], {| draws := fun _ => 0; pos := 2 |}) /\
  ~ NoDup [0; 0].
Proof.
  split; [reflexivity|].
  intros H. apply NoDup_cons in H as [H _]. apply H. left.
Qed.

(** C4, as the code has it.  In multi-step mode a record with at least
    two bins and at least [pretrain_masked_steps] of them gets exactly
    [pretrain_masked_steps] indices, each one an independent draw of the
    generator reduced to [0, n) (sampling with replacement: they may
    repeat); a record with at least two bins but fewer than
    [pretrain_masked_steps] gets all its bins [0 .. n-1], and the
    generator is not used. *)
Theorem multi_step_mask_draws_with_replacement (masked_steps : nat) (g : Generator)
    (n : nat) :
  1 < masked_steps -> 2 <= n ->
  (masked_steps <= n ->
   let l := map (fun i => draws g (pos g + i) mod n) (seq 0 masked_steps) in
   select_mask masked_steps g n
     = Some (Array l, {| draws := draws g; pos := pos g + masked_steps |}) /\
   length l = masked_steps /\
   Forall (fun i => i < n) l) /\
  (n < masked_steps -> select_mask masked_steps g n = Some (Array (seq 0 n), g)).
Proof.
  intros Hk Hn. unfold select_mask.
  destruct (n <? 2) eqn:E1; [apply Nat.ltb_lt in E1; lia|].
  destruct (1 <? masked_steps) eqn:E2; [|apply Nat.ltb_ge in E2; lia].
  split.
  - intros Hle. cbv zeta.
    destruct (n <? masked_steps) eqn:E3; [apply Nat.ltb_lt in E3; lia|].
    rewrite choice_size_draws by lia. cbn [mbind option_bind fst snd].
    split; [reflexivity|]. split.
    + rewrite length_map, length_seq. reflexivity.
    + apply Forall_forall. intros i Hi.
      apply list_elem_of_fmap in Hi as [j [-> _]].
      apply Nat.mod_upper_bound. lia.
  - intros Hlt.
    destruct (n <? masked_steps) eqn:E3; [reflexivity|apply Nat.ltb_ge in E3; lia].
Qed.

Lemma multi_step_mask_draws_with_replacement_witness :
  select_mask 3 Examples.zero_rng 5
    = Some (Array [0; 0; 0], {| draws := fun _ => 0; pos := 3 |}) /\
  select_mask 3 Examples.zero_rng 2 = Some (Array [0; 1], Examples.zero_rng).
Proof.
  pose proof (multi_step_mask_draws_with_replacement 3 Examples.zero_rng 5
                ltac:(lia) ltac:(lia)) as [H5 _].
  pose proof (multi_step_mask_draws_with_replacement 3 Examples.zero_rng 2
                ltac:(lia) ltac:(lia)) as [_ H2].
  split.
  - exact (proj1 (H5 ltac:(lia))).
  - exact (H2 ltac:(lia)).
Defined.

End Masking.

(** ** Construction *)

Section Construction.

Import Model.

Lemma mapM_const_Some {A B : Type} (b : B) (l : list A) :
  mapM (fun _ => Some b) l = Some (replicate (length l) b).
Proof.
  apply mapM_Some. induction l as [|a l IH]; simpl; constructor; auto.
Qed.

(** What [__init__] hands to the constructor of an encoder of width
    [dim]. *)
Lemma init_encoders (py_float fl : Q -> Q) (hp : hparams) (a : architecture) :
  let c (dim : nat) : option Encoder :=
    dh ← floordiv (hp_d_embedding hp) (hp_n_transformer_head hp);
    fm ← truediv py_float
           (default (hp_d_embedding hp * 4) (hp_d_feedforward hp)) dim;
    new_encoder {| dim := dim; depth := 1; heads := hp_n_transformer_head hp;
                   pre_norm := hp_norm_first hp; use_scalenorm := hp_scalenorm hp;
                   attn_dim_head := dh; ff_glu := hp_glu hp; ff_mult := fm;
                   attn_dropout := hp_transformer_dropout hp;
                   ff_dropout := hp_transformer_dropout hp |} in
  init py_float fl hp = Some a ->
  mapM (fun _ => c (hp_d_embedding hp * (hp_masked_transform_timesteps hp + 1)))
       (seq 0 (hp_n_duett_layers hp)) = Some (a_event_transformers a) /\
  mapM (fun _ => c (hp_d_embedding hp * (hp_d_time_series_num hp + 1)))
       (seq 0 (hp_n_duett_layers hp)) = Some (a_time_transformers a) /\
  hp_d_target hp <> 0.
Proof.
  intros c H. subst c. unfold init, new_metrics in H. cbv zeta in H.
  match type of H with
  | mapM ?f ?l ≫= _ = _ =>
    destruct (mapM f l) as [ets|] eqn:E1; cbn [mbind option_bind] in H; [|discriminate]
  end.
  match type of H with
  | mapM ?f ?l ≫= _ = _ =>
    destruct (mapM f l) as [tts|] eqn:E2; cbn [mbind option_bind] in H; [|discriminate]
  end.
  destruct (hp_d_target hp =? 0) eqn:Et; cbn [mbind option_bind] in H; [discriminate|].
  apply Nat.eqb_neq in Et. injection H as <-.
  cbn [a_event_transformers a_time_transformers]. auto.
Qed.

Lemma encoder_args (py_float : Q -> Q) (hp : hparams) (D : nat) (e : Encoder) :
  (dh ← floordiv (hp_d_embedding hp) (hp_n_transformer_head hp);
   fm ← truediv py_float
          (default (hp_d_embedding hp * 4) (hp_d_feedforward hp)) D;
   new_encoder {| dim := D; depth := 1; heads := hp_n_transformer_head hp;
                  pre_norm := hp_norm_first hp; use_scalenorm := hp_scalenorm hp;
                  attn_dim_head := dh; ff_glu := hp_glu hp; ff_mult := fm;
                  attn_dropout := hp_transformer_dropout hp;
                  ff_dropout := hp_transformer_dropout hp |}) = Some e ->
  hp_n_transformer_head hp <> 0 /\
  heads e = hp_n_transformer_head hp /\
  attn_dim_head e = hp_d_embedding hp / hp_n_transformer_head hp /\
  attn_dim_head e <> 0 /\
  dim e = D.
Proof.
  unfold floordiv, truediv, new_encoder. intros H.
  destruct (hp_n_transformer_head hp =? 0) eqn:Hh;
    cbn [mbind option_bind] in H; [discriminate|].
  destruct (D =? 0); cbn [mbind option_bind] in H; [discriminate|].
  cbn [attn_dim_head attn_dropout ff_dropout] in H.
  destruct (hp_d_embedding hp / hp_n_transformer_head hp =? 0) eqn:Hq; [discriminate|].
  destruct (_ && _); [|discriminate]. injection H as <-.
  apply Nat.eqb_neq in Hh, Hq. auto.
Qed.

Lemma mapM_const_elem {A B : Type} (c : option B) (l : list A) (k : list B) (b : B) :
  mapM (fun _ => c) l = Some k -> b ∈ k -> c = Some b.
Proof.
  intros H Hb. apply mapM_Some in H.
  induction H as [|x y l k Hxy _ IH]; [apply elem_of_nil in Hb; contradiction|].
  apply elem_of_cons in Hb as [->|Hb]; auto.
Qed.

(** C8 as stated fails: an embedding width of 25 with 2 attention heads
    is accepted, and every encoder is built with heads of width 12. *)
Lemma indivisible_embedding_is_accepted :
  25 mod 2 <> 0 /\
  exists a,
    init Torch.float64 Torch.float32 (Examples.hparams_with 25 2) = Some a /\
    map attn_dim_head (a_event_transformers a ++ a_time_transformers a)
      = [12; 12; 12; 12] /\
    map heads (a_event_transformers a ++ a_time_transformers a) = [2; 2; 2; 2].
Proof.
  split; [discriminate|].
  eexists. split; [vm_compute; reflexivity|]. split; reflexivity.
Qed.

(** C8, as the code has it.  [__init__] does not compare the embedding
    width with the head count.  Every event and time encoder that a
    construction builds has heads of width
    [d_embedding // n_transformer_head], the quotient rounded down, which
    is then not zero.  With encoders to build, a head count of zero makes
    the division raise, and an embedding width below the head count gives a
    head width of zero, on which the constructor of the encoder raises:
    both fail at construction.  For
    [Model(8, 36, 1, d_embedding=d, n_transformer_head=h)], the other
    arguments at their defaults, the construction succeeds exactly when
    [1 <= h <= d], whether [h] divides [d] or not. *)
Theorem init_floors_the_head_width (py_float fl : Q -> Q) :
  (forall hp a,
     init py_float fl hp = Some a ->
     length (a_event_transformers a) = hp_n_duett_layers hp /\
     length (a_time_transformers a) = hp_n_duett_layers hp /\
     Forall (fun e => heads e = hp_n_transformer_head hp /\
                      attn_dim_head e = hp_d_embedding hp / hp_n_transformer_head hp /\
                      attn_dim_head e <> 0)
            (a_event_transformers a ++ a_time_transformers a)) /\
  (forall hp,
     hp_n_duett_layers hp <> 0 ->
     hp_n_transformer_head hp = 0 \/ hp_d_embedding hp < hp_n_transformer_head hp ->
     init py_float fl hp = None) /\
  (forall d h, is_Some (init py_float fl (Examples.hparams_with d h)) <-> 1 <= h <= d).
Proof.
  split; [|split].
  - intros hp a H. apply init_encoders in H.
    destruct H as (He & Ht & _).
    split; [apply length_mapM in He; rewrite length_seq in He; auto|].
    split; [apply length_mapM in Ht; rewrite length_seq in Ht; auto|].
    apply Forall_app. split; apply Forall_forall; intros e Hin.
    + pose proof (mapM_const_elem _ _ _ e He Hin) as Hc.
      apply encoder_args in Hc. tauto.
    + pose proof (mapM_const_elem _ _ _ e Ht Hin) as Hc.
      apply encoder_args in Hc. tauto.
  - intros hp Hl Hbad.
    destruct (init py_float fl hp) as [a|] eqn:E; [exfalso|reflexivity].
    apply init_encoders in E. destruct E as (He & _).
    destruct (a_event_transformers a) as [|e ets].
    { apply length_mapM in He. rewrite length_seq in He. simpl in He. lia. }
    pose proof (mapM_const_elem _ _ _ e He ltac:(left)) as Hc.
    apply encoder_args in Hc. destruct Hc as (Hh & _ & Hq & Hq' & _).
    destruct Hbad as [Hz|Hlt]; [contradiction|].
    rewrite Nat.div_small in Hq by exact Hlt. contradiction.
  - intros d h. split.
    + intros [a H]. apply init_encoders in H.
      destruct H as (He & _).
      destruct (a_event_transformers a) as [|e ets].
      { apply length_mapM in He. discriminate He. }
      pose proof (mapM_const_elem _ _ _ e He ltac:(left)) as Hc.
      apply encoder_args in Hc. destruct Hc as (Hh & _ & Hq & Hq' & _).
      cbn [Examples.hparams_with hp_n_transformer_head hp_d_embedding] in Hh, Hq, Hq'.
      rewrite Hq in Hq'.
      split; [lia|].
      destruct (Nat.lt_ge_cases d h) as [Hlt|Hge]; [|exact Hge].
      rewrite Nat.div_small in Hq' by exact Hlt. contradiction.
    + intros [Hh Hd]. unfold init, floordiv, truediv, new_encoder.
      cbn [Examples.hparams_with default_hparams hp_n_transformer_head hp_d_embedding
           hp_d_feedforward hp_masked_transform_timesteps hp_d_time_series_num
           hp_n_duett_layers hp_transformer_dropout hp_d_target default].
      destruct (Nat.eqb_spec h 0) as [|_]; [lia|].
      destruct (Nat.eqb_spec (d * (32 + 1)) 0) as [|_]; [lia|].
      destruct (Nat.eqb_spec (d * (36 + 1)) 0) as [|_]; [lia|].
      cbn [mbind option_bind attn_dim_head attn_dropout ff_dropout].
      destruct (Nat.eqb_spec (d / h) 0) as [Hq|_].
      { apply Nat.div_small_iff in Hq; lia. }
      change (probability 0) with true. cbn [andb]. rewrite !mapM_const_Some.
      cbn [mbind option_bind new_metrics Nat.eqb]. eexists. reflexivity.
Qed.

Lemma init_floors_the_head_width_witness :
  exists a,
    init Torch.float64 Torch.float32 (Examples.hparams_with 24 2) = Some a /\
    Forall (fun e => heads e = 2 /\ attn_dim_head e = 12 /\ attn_dim_head e <> 0)
           (a_event_transformers a ++ a_time_transformers a) /\
    init Torch.float64 Torch.float32 (Examples.hparams_with 7 8) = None.
Proof.
  pose proof (init_floors_the_head_width Torch.float64 Torch.float32) as (Hf & Hn & Hs).
  destruct (proj2 (Hs 24 2) ltac:(lia)) as [a Ha].
  exists a. split; [exact Ha|]. split.
  - exact (proj2 (proj2 (Hf _ a Ha))).
  - apply Hn; [discriminate|]. right. cbn. lia.
Defined.

End Construction.

(** ** Loading a checkpoint *)

Section Checkpoint.

Import Model CheckpointSpec.

Lemma dict_get_cons {V : Type} (e : string * V) (d : list (string * V)) (k : string) :
  dict_get (e :: d) k = if String.eqb e.1 k then Some e.2 else dict_get d k.
Proof. unfold dict_get. simpl. destruct (String.eqb e.1 k); reflexivity. Qed.

Lemma dict_get_app {V : Type} (d1 d2 : list (string * V)) (k : string) :
  dict_get (d1 ++ d2) k
  = match dict_get d1 k with Some x => Some x | None => dict_get d2 k end.
Proof.
  induction d1 as [|e d1 IH]; [reflexivity|].
  rewrite <- app_comm_cons, !dict_get_cons. destruct (String.eqb e.1 k); auto.
Qed.

Lemma dict_get_replace {V : Type} (d : list (string * V)) (k k' : string) (v : V) :
  dict_get (map (fun e => if String.eqb e.1 k then (k, v) else e) d) k'
  = if String.eqb k k'
    then match dict_get d k with Some _ => Some v | None => None end
    else dict_get d k'.
Proof.
  induction d as [|e d IH].
  - simpl. destruct (String.eqb k k'); reflexivity.
  - cbn [map]. rewrite !dict_get_cons, IH.
    destruct (String.eqb_spec e.1 k) as [He|He]; cbn [fst snd].
    + destruct (String.eqb_spec k k') as [Hk|Hk]; [reflexivity|].
      destruct (String.eqb_spec e.1 k'); [congruence|reflexivity].
    + destruct (String.eqb_spec k k') as [Hk|Hk].
      * destruct (String.eqb_spec e.1 k'); [congruence|reflexivity].
      * reflexivity.
Qed.

(** Reading a dictionary after an assignment. *)
Lemma dict_get_set {V : Type} (d : list (string * V)) (k k' : string) (v : V) :
  dict_get (dict_set d k v) k' = if String.eqb k k' then Some v else dict_get d k'.
Proof.
  unfold dict_set. destruct (dict_get d k) as [x|] eqn:E.
  - rewrite dict_get_replace, E. reflexivity.
  - rewrite dict_get_app, dict_get_cons. cbn [fst snd].
    destruct (String.eqb_spec k k') as [<-|Hk].
    + rewrite E. reflexivity.
    + destruct (dict_get d k'); reflexivity.
Qed.

Lemma dict_get_keys {V : Type} (d : list (string * V)) (k : string) (v : V) :
  dict_get d k = Some v -> k ∈ map fst d.
Proof.
  induction d as [|e d IH]; [discriminate|].
  rewrite dict_get_cons. destruct (String.eqb_spec e.1 k) as [<-|_].
  - intros _. left.
  - intros H. right. exact (IH H).
Qed.

(** The first loop fills in what the checkpoint lacks. *)
Lemma add_missing_get (l : list (string * param)) (k : string) :
  forall acc : list (string * param) * bool,
  dict_get (foldl add_missing acc l).1 k
  = match dict_get acc.1 k with Some x => Some x | None => dict_get l k end.
Proof.
  induction l as [|e l IH]; intros acc.
  - simpl. destruct (dict_get acc.1 k); reflexivity.
  - cbn [foldl]. rewrite IH, dict_get_cons. unfold add_missing.
    destruct (dict_get acc.1 e.1) as [x|] eqn:E.
    + destruct (dict_get acc.1 k) eqn:Ek; [reflexivity|].
      destruct (String.eqb_spec e.1 k) as [He|_]; [congruence|reflexivity].
    + cbn [fst]. rewrite dict_get_set.
      destruct (String.eqb_spec e.1 k) as [<-|_]; [rewrite E; reflexivity|].
      reflexivity.
Qed.


Lemma resolve_idempotent (msd : list (string * param)) (k : string) (o : option param) :
  resolve msd k (resolve msd k o) = resolve msd k o.
Proof.
  unfold resolve. destruct (dict_get msd k) as [required|]; [|reflexivity].
  destruct o as [loaded|]; [|reflexivity].
  destruct (String.prefix "head" k && _) eqn:E; [|rewrite E; reflexivity].
  unfold shape_eqb. rewrite bool_decide_eq_true_2 by reflexivity.
  rewrite andb_false_r. reflexivity.
Qed.

Lemma check_key_get (msd : list (string * param))
    (acc : list (string * param) * list report * bool) (k1 k : string) :
  dict_get (check_key msd acc k1).1.1 k
  = if String.eqb k1 k then resolve msd k (dict_get acc.1.1 k) else dict_get acc.1.1 k.
Proof.
  destruct acc as [[sd log] ch]. unfold check_key, resolve. cbn [fst snd].
  destruct (String.eqb_spec k1 k) as [<-|Hk].
  - destruct (dict_get msd k1) as [required|]; [|reflexivity].
    destruct (dict_get sd k1) as [loaded|] eqn:E; [|cbn [fst]; rewrite E; reflexivity].
    destruct (String.prefix "head" k1 && _); cbn [fst].
    + rewrite dict_get_set, String.eqb_refl. reflexivity.
    + exact E.
  - destruct (dict_get msd k1) as [required|]; [|reflexivity].
    destruct (dict_get sd k1) as [loaded|]; [|reflexivity].
    destruct (String.prefix "head" k1 && _); cbn [fst]; [|reflexivity].
    rewrite dict_get_set. destruct (String.eqb_spec k1 k); [contradiction|reflexivity].
Qed.

Lemma check_keys_get (msd : list (string * param)) (k : string) (ks : list string) :
  forall acc : list (string * param) * list report * bool,
  dict_get (foldl (check_key msd) acc ks).1.1 k
  = if decide (k ∈ ks) then resolve msd k (dict_get acc.1.1 k) else dict_get acc.1.1 k.
Proof.
  induction ks as [|k1 ks IH]; intros acc.
  - simpl. destruct (decide (k ∈ [])) as [H|_]; [|reflexivity].
    apply elem_of_nil in H. contradiction.
  - cbn [foldl]. rewrite IH, check_key_get.
    destruct (String.eqb_spec k1 k) as [<-|Hk].
    + destruct (decide (k1 ∈ k1 :: ks)) as [_|Hn]; [|exfalso; apply Hn; left].
      destruct (decide (k1 ∈ ks)); [apply resolve_idempotent|reflexivity].
    + destruct (decide (k ∈ ks)) as [Hin|Hnin].
      * destruct (decide (k ∈ k1 :: ks)) as [_|Hn]; [reflexivity|].
        exfalso. apply Hn. right. exact Hin.
      * destruct (decide (k ∈ k1 :: ks)) as [Hin|_]; [|reflexivity].
        apply elem_of_cons in Hin as [->|Hin]; contradiction.
Qed.

Lemma check_key_log (msd : list (string * param))
    (acc : list (string * param) * list report * bool) (k : string) (r : report) :
  r ∈ acc.1.2 -> r ∈ (check_key msd acc k).1.2.
Proof.
  destruct acc as [[sd log] ch]. unfold check_key. cbn [fst snd]. intros Hr.
  destruct (dict_get msd k); [destruct (dict_get sd k)|].
  - destruct (_ && _); cbn [fst snd]; [apply elem_of_app; left|]; exact Hr.
  - exact Hr.
  - cbn [fst snd]. apply elem_of_app. left. exact Hr.
Qed.

Lemma check_keys_log (msd : list (string * param)) (ks : list string) (r : report) :
  forall acc : list (string * param) * list report * bool,
  r ∈ acc.1.2 -> r ∈ (foldl (check_key msd) acc ks).1.2.
Proof.
  induction ks as [|k ks IH]; intros acc Hr; [exact Hr|].
  cbn [foldl]. apply IH, check_key_log, Hr.
Qed.

(** Every adjustment is reported: an entry that the module does not have
    as dropped, a head tensor of another shape as skipped. *)
Lemma check_keys_reports (msd : list (string * param)) (k : string) (ks : list string) :
  forall acc : list (string * param) * list report * bool,
  k ∈ ks ->
  (dict_get msd k = None -> Dropping k ∈ (foldl (check_key msd) acc ks).1.2) /\
  (forall required loaded,
     dict_get msd k = Some required ->
     dict_get acc.1.1 k = Some loaded ->
     String.prefix "head" k && negb (shape_eqb (shape loaded) (shape required)) = true ->
     SkipLoading k (shape required) (shape loaded) ∈ (foldl (check_key msd) acc ks).1.2).
Proof.
  induction ks as [|k1 ks IH]; intros acc Hin.
  - apply elem_of_nil in Hin. contradiction.
  - cbn [foldl]. destruct (String.eqb_spec k1 k) as [->|Hk].
    + split.
      * intros Hm. apply check_keys_log.
        destruct acc as [[sd log] ch]. unfold check_key. rewrite Hm. cbn [fst snd].
        apply elem_of_app. right. left.
      * intros required loaded Hm Hl Hc. apply check_keys_log.
        destruct acc as [[sd log] ch]. unfold check_key. cbn [fst snd] in Hl.
        rewrite Hm, Hl, Hc. cbn [fst snd]. apply elem_of_app. right. left.
    + apply elem_of_cons in Hin as [->|Hin]; [contradiction|].
      destruct (IH (check_key msd acc k1) Hin) as [Hd Hs]. split; [exact Hd|].
      intros required loaded Hm Hl Hc. apply (Hs required loaded Hm); [|exact Hc].
      rewrite check_key_get. destruct (String.eqb_spec k1 k); [contradiction|exact Hl].
Qed.

(** The state dictionary that the hook leaves in the checkpoint:
    an entry that the checkpoint lacks is taken from the module, a head
    tensor of another shape is replaced by the module's, every other
    entry is the saved one, and an entry that the module does not have
    is still there. *)
Lemma on_load_checkpoint_state_dict (ms : module_state) (ckpt : checkpoint) (k : string) :
  dict_get (ckpt_state_dict (on_load_checkpoint ms ckpt).1.1) k
  = resolve (model_state_dict ms) k
      (match dict_get (ckpt_state_dict ckpt) k with
       | Some x => Some x
       | None => dict_get (model_state_dict ms) k
       end).
Proof.
  unfold on_load_checkpoint.
  set (msd := model_state_dict ms).
  set (s1 := foldl add_missing (ckpt_state_dict ckpt, false) msd).
  pose proof (check_keys_get msd k (map fst s1.1) (s1.1, [LoadingFromCheckpoint], s1.2))
    as Hget.
  pose proof (add_missing_get msd k (ckpt_state_dict ckpt, false)) as Hs1.
  fold s1 in Hs1. cbn [fst snd] in Hget, Hs1.
  destruct (foldl (check_key msd) _ _) as [[sd log] ch].
  cbn [fst snd] in Hget.
  assert (Hsd : dict_get sd k = resolve msd k (dict_get s1.1 k)).
  { rewrite Hget. destruct (decide (k ∈ map fst s1.1)) as [_|Hn]; [reflexivity|].
    destruct (dict_get s1.1 k) as [v|] eqn:E.
    - exfalso. apply Hn. eapply dict_get_keys. exact E.
    - unfold resolve. destruct (dict_get msd k); reflexivity. }
  rewrite Hs1 in Hsd.
  destruct (freeze_encoder ms); cbn [fst snd ckpt_state_dict]; exact Hsd.
Qed.

Lemma on_load_checkpoint_reports (ms : module_state) (ckpt : checkpoint) (k : string)
    (loaded : param) :
  dict_get (ckpt_state_dict ckpt) k = Some loaded ->
  (dict_get (model_state_dict ms) k = None ->
   Dropping k ∈ (on_load_checkpoint ms ckpt).2) /\
  (forall required,
     dict_get (model_state_dict ms) k = Some required ->
     String.prefix "head" k && negb (shape_eqb (shape loaded) (shape required)) = true ->
     SkipLoading k (shape required) (shape loaded) ∈ (on_load_checkpoint ms ckpt).2).
Proof.
  intros Hl. unfold on_load_checkpoint.
  set (msd := model_state_dict ms).
  set (s1 := foldl add_missing (ckpt_state_dict ckpt, false) msd).
  assert (Hs1 : dict_get s1.1 k = Some loaded).
  { unfold s1. rewrite add_missing_get. cbn [fst]. rewrite Hl. reflexivity. }
  destruct (check_keys_reports msd k (map fst s1.1)
              (s1.1, [LoadingFromCheckpoint], s1.2)
              (dict_get_keys _ _ _ Hs1)) as [Hd Hs].
  cbn [fst snd] in Hs.
  destruct (foldl (check_key msd) _ _) as [[sd log] ch].
  cbn [fst snd] in Hd, Hs.
  split.
  - intros Hm. specialize (Hd Hm).
    destruct (freeze_encoder ms); cbn [fst snd]; [apply elem_of_app; left|]; exact Hd.
  - intros required Hm Hc. specialize (Hs required loaded Hm Hs1 Hc).
    destruct (freeze_encoder ms); cbn [fst snd]; [apply elem_of_app; left|]; exact Hs.
Qed.

(** An entry of the checkpoint that the module does not have is reported
    as dropped and is still in the state dictionary after the hook. *)
Lemma absent_entry_is_reported_and_kept (ms : module_state) (ckpt : checkpoint)
    (k : string) (v : param) :
  dict_get (model_state_dict ms) k = None ->
  dict_get (ckpt_state_dict ckpt) k = Some v ->
  Dropping k ∈ (on_load_checkpoint ms ckpt).2 /\
  dict_get (ckpt_state_dict (on_load_checkpoint ms ckpt).1.1) k = Some v.
Proof.
  intros Hm Hc. split.
  - exact (proj1 (on_load_checkpoint_reports ms ckpt k v Hc) Hm).
  - rewrite on_load_checkpoint_state_dict, Hc. unfold resolve. rewrite Hm. reflexivity.
Qed.

(** C6 fails on the code.  On a checkpoint with a head of another shape
    and a layer that the module no longer has, the hook keeps the fresh
    head, leaves the matching tensor as saved and reports both
    adjustments, but the entry it reports as dropped is still in the
    state dictionary that it hands on to the loader. *)
Theorem reported_as_dropped_but_still_in_state_dict :
  let r := on_load_checkpoint Examples.current_module Examples.old_checkpoint in
  r.2 = [LoadingFromCheckpoint;
         SkipLoading "head.0.weight" [1; 4] [3; 4];
         Dropping "old_layer.weight"] /\
  dict_get (ckpt_state_dict r.1.1) "head.0.weight"
    = dict_get (model_state_dict Examples.current_module) "head.0.weight" /\
  dict_get (ckpt_state_dict r.1.1) "tab_encoder.0.weight"
    = dict_get (ckpt_state_dict Examples.old_checkpoint) "tab_encoder.0.weight" /\
  dict_get (model_state_dict Examples.current_module) "old_layer.weight" = None /\
  dict_get (ckpt_state_dict r.1.1) "old_layer.weight"
    = Some {| shape := [1]; values := [9%Q] |} /\
  optimizer_states r.1.1 = None.
Proof. vm_compute. repeat split; reflexivity. Qed.

End Checkpoint.

(** ** The embedder *)

Section Embedder.

Import Torch Model.

Lemma get3_assign {A : Type} (sel : nat -> nat -> nat -> bool) (v : nat -> nat -> nat -> A)
    (p : list (list (list A))) (b t j : nat) :
  get3 (assign sel v p) b t j
  = (fun old => if sel b t j then v b t j else old) <$> get3 p b t j.
Proof.
  unfold get3, assign. rewrite list_lookup_imap.
  destruct (p !! b) as [rows|]; [|reflexivity]. cbn [fmap option_fmap option_map mbind option_bind].
  rewrite list_lookup_imap.
  destruct (rows !! t) as [row|]; [|reflexivity]. cbn [fmap option_fmap option_map mbind option_bind].
  rewrite list_lookup_imap. reflexivity.
Qed.

Lemma get3_replicate {A : Type} (B T V : nat) (z : A) (b t j : nat) :
  b < B -> t < T -> j < V ->
  get3 (replicate B (replicate T (replicate V z))) b t j = Some z.
Proof.
  intros Hb Ht Hj. unfold get3.
  rewrite lookup_replicate_2 by exact Hb. cbn [mbind option_bind].
  rewrite lookup_replicate_2 by exact Ht. cbn [mbind option_bind].
  apply lookup_replicate_2. exact Hj.
Qed.

Lemma get3_foldl_assign {A E : Type} (sel : E -> nat -> nat -> nat -> bool)
    (v : E -> nat -> nat -> nat -> A) (l : list E) (b t j : nat) :
  forall p : list (list (list A)),
  is_Some (get3 p b t j) ->
  is_Some (get3 (foldl (fun p e => assign (sel e) (v e) p) p l) b t j).
Proof.
  induction l as [|e l IH]; intros p Hp; [exact Hp|].
  cbn [foldl]. apply IH. rewrite get3_assign.
  destruct Hp as [old ->]. eexists. reflexivity.
Qed.

Lemma get3_embed_n_obs (m : t) (n_vars : nat) (xs : list (list (list Q))) (b t c : nat) :
  get3 (embed_n_obs m n_vars xs) b t c
  = (fun v => if (n_vars <=? c) && (c <? n_vars * 2)
              then default 0%Q (n_obs_embedding m !! n_obs_ind (length (n_obs_embedding m)) v)
              else v) <$> get3 xs b t c.
Proof.
  unfold get3, embed_n_obs. rewrite list_lookup_fmap.
  destruct (xs !! b) as [rows|]; [|reflexivity]. cbn [fmap option_fmap option_map mbind option_bind].
  rewrite list_lookup_fmap.
  destruct (rows !! t) as [row|]; [|reflexivity]. cbn [fmap option_fmap option_map mbind option_bind].
  rewrite list_lookup_imap. reflexivity.
Qed.

(** The flag column lies after the count half, so the overwriting of
    the counts leaves it as it is. *)
Lemma mask_inds_embed_n_obs (m : t) (n_vars : nat) (xs : list (list (list Q))) (b t : nat)
    (r : list Q) :
  (rows ← xs !! b; rows !! t) = Some r ->
  length r = 2 * n_vars + 1 ->
  mask_inds (embed_n_obs m n_vars xs) b t = mask_inds xs b t.
Proof.
  intros Hr Hlen. unfold mask_inds, embed_n_obs.
  rewrite list_lookup_fmap.
  destruct (xs !! b) as [rows|]; [|discriminate].
  cbn [fmap option_fmap option_map mbind option_bind] in Hr |- *.
  rewrite list_lookup_fmap, Hr.
  cbn [fmap option_fmap option_map mbind option_bind].
  rewrite !last_lookup, length_imap, list_lookup_imap, Hlen.
  replace (Init.Nat.pred (2 * n_vars + 1)) with (2 * n_vars) by lia.
  destruct (r !! (2 * n_vars)) as [f|]; [|reflexivity].
  cbn [fmap option_fmap option_map].
  destruct (n_vars <=? 2 * n_vars) eqn:E1; [|reflexivity].
  destruct (2 * n_vars <? n_vars * 2) eqn:E2; [|reflexivity].
  apply Nat.ltb_lt in E2. lia.
Qed.

(** C2.  After the embedding step every cell of a time bin whose flag is
    1 holds the vector that [special_embeddings] gives for the MASK key:
    the same vector at every masked position, whatever values and counts
    the bin held. *)
Theorem masked_bins_hold_the_mask_embedding (m : t) (x : batch) (b t j : nat)
    (r : list Q) (f : Q) :
  length (embedding_layers m) <= width (xs_feats x) / 2 ->
  (rows ← xs_feats x !! b; rows !! t) = Some r ->
  t < steps (xs_feats x) ->
  length r = 2 * (width (xs_feats x) / 2) + 1 ->
  last r = Some f ->
  (f == 1)%Q ->
  j <= width (xs_feats x) / 2 ->
  exists e,
    embed m x = Some e /\
    get3 (psi e) b t j = Some (embedding (special_embeddings m) MASKED_EMBEDDING_KEY).
Proof.
  intros Hlayers Hr Ht Hlen Hlast Hf Hj. unfold embed.
  destruct (width (xs_feats x) / 2 <? length (embedding_layers m)) eqn:E;
    [apply Nat.ltb_lt in E; lia|].
  eexists. split; [reflexivity|]. cbn [psi].
  set (n_vars := width (xs_feats x) / 2) in *.
  set (T := steps (xs_feats x)) in *.
  assert (Hb : b < length (xs_feats x)).
  { destruct (xs_feats x !! b) eqn:Eb; [|discriminate].
    eapply lookup_lt_Some. exact Eb. }
  assert (Hmask : mask_inds (embed_n_obs m n_vars (xs_feats x)) b t = true).
  { rewrite (mask_inds_embed_n_obs m n_vars (xs_feats x) b t r Hr Hlen).
    unfold mask_inds.
    destruct (xs_feats x !! b) as [rows|]; [|discriminate].
    cbn [mbind option_bind] in Hr |- *. rewrite Hr. cbn [mbind option_bind].
    rewrite Hlast. apply Qeq_bool_iff. exact Hf. }
  match goal with
  | |- get3 (if predict_events m then assign ?s ?v ?p else ?p) b t j = _ =>
    assert (Hp : get3 p b t j
                 = Some (embedding (special_embeddings m) MASKED_EMBEDDING_KEY))
  end.
  { rewrite get3_assign, Hmask.
    match goal with
    | |- _ <$> ?c = _ => assert (Hc : is_Some c)
    end.
    { rewrite !get3_assign.
      match goal with
      | |- is_Some (_ <$> (_ <$> ?c)) => assert (Hc : is_Some c)
      end.
      { apply (get3_foldl_assign
                 (fun e b t j => (t <? T) && (j =? e.1))
                 (fun (e : nat * (list (list (Q * Q)) -> list (list vec))) b t j =>
                    default [] (rows ← e.2 (embedding_layer_input n_vars
                                   (embed_n_obs m n_vars (xs_feats x)) e.1) !! b;
                                rows !! t))).
        unfold embed_n_obs. rewrite !length_map.
        rewrite get3_replicate by lia. eexists. reflexivity. }
      destruct Hc as [c ->]. eexists. reflexivity. }
    destruct Hc as [c ->]. reflexivity. }
  destruct (predict_events m); [|exact Hp].
  rewrite get3_assign, Hp. cbn [fmap option_fmap option_map].
  destruct (default false _); reflexivity.
Qed.

Lemma masked_bins_hold_the_mask_embedding_witness :
  exists e,
    embed (Examples.model 1 "rep_token" true) Examples.masked_batch = Some e /\
    get3 (psi e) 0 1 0 = Some [0; 1]%Q /\
    get3 (psi e) 0 1 1 = Some [0; 1]%Q /\
    get3 (psi e) 1 0 0 = Some [0; 1]%Q.
Proof.
  destruct (masked_bins_hold_the_mask_embedding
              (Examples.model 1 "rep_token" true) Examples.masked_batch 0 1 0
              [9; 4; 1]%Q 1%Q ltac:(vm_compute; lia) eq_refl ltac:(vm_compute; lia)
              eq_refl eq_refl ltac:(reflexivity) ltac:(vm_compute; lia))
    as [e [He H1]].
  destruct (masked_bins_hold_the_mask_embedding
              (Examples.model 1 "rep_token" true) Examples.masked_batch 0 1 1
              [9; 4; 1]%Q 1%Q ltac:(vm_compute; lia) eq_refl ltac:(vm_compute; lia)
              eq_refl eq_refl ltac:(reflexivity) ltac:(vm_compute; lia))
    as [e2 [He2 H2]].
  destruct (masked_bins_hold_the_mask_embedding
              (Examples.model 1 "rep_token" true) Examples.masked_batch 1 0 0
              [0; 0; 1]%Q 1%Q ltac:(vm_compute; lia) eq_refl ltac:(vm_compute; lia)
              eq_refl eq_refl ltac:(reflexivity) ltac:(vm_compute; lia))
    as [e3 [He3 H3]].
  rewrite He in He2, He3. injection He2 as <-. injection He3 as <-.
  exists e. split; [exact He|]. split; [exact H1|]. split; [exact H2|exact H3].
Defined.

(** What [forward] leaves of its input. *)
Lemma forward_batch (mean_dim : list Q -> Q) (m : t) (x : batch)
    (pretrain representation : bool) (out : output) (x' : batch) :
  forward mean_dim m x pretrain representation = Some (out, x') ->
  x' = {| xs_static := xs_static x;
          xs_feats := embed_n_obs m (width (xs_feats x) / 2) (xs_feats x);
          xs_times := xs_times x;
          n_timesteps := n_timesteps x |}.
Proof.
  unfold forward. intros H.
  destruct (embed m x) as [e|] eqn:Ee; cbn [mbind option_bind] in H; [|discriminate].
  assert (Hf : feats e = embed_n_obs m (width (xs_feats x) / 2) (xs_feats x)).
  { unfold embed in Ee.
    destruct (_ <? _); [discriminate|]. injection Ee as <-. reflexivity. }
  rewrite Hf in H.
  destruct (fuse mean_dim m _ _) as [z|]; cbn [mbind option_bind] in H; [|discriminate].
  destruct representation; [injection H as _ <-; reflexivity|].
  destruct pretrain.
  - match type of H with
    | ?v ≫= _ = _ => destruct v; cbn [mbind option_bind] in H; [|discriminate]
    end.
    destruct (predict_events m).
    + destruct (stack_rows _); cbn [mbind option_bind] in H; [|discriminate].
      injection H as _ <-. reflexivity.
    + injection H as _ <-. reflexivity.
  - destruct (squeeze1 _); cbn [mbind option_bind] in H; [|discriminate].
    destruct (save_representation m); injection H as _ <-; reflexivity.
Qed.

(** C7 as stated fails: a supervised call returns a prediction and
    leaves the counts of the time-series tensor replaced by their
    embeddings. *)
Lemma forward_changes_the_time_series_tensor :
  exists out x',
    forward (sequential_mean float32) (Examples.model 1 "rep_token" false)
            Examples.short_batch false false
      = Some (out, x') /\
    xs_feats Examples.short_batch
      = [[[5; 1; 0]; [0; 0; 0]]; [[7; 1; 0]; [8; 3; 0]]]%Q /\
    xs_feats x'
      = [[[5; 3 # 2; 0]; [0; 1 # 2; 0]]; [[7; 3 # 2; 0]; [8; 7 # 2; 0]]]%Q /\
    xs_feats x' <> xs_feats Examples.short_batch.
Proof.
  eexists _, _. split; [vm_compute; reflexivity|].
  split; [reflexivity|]. split; [reflexivity|].
  cbn [xs_feats]. intros H. discriminate H.
Qed.

(** C7, as the code has it.  A call of [forward] that returns leaves the
    static features, the bin times and the bin counts of the batch as
    they were, and of the time-series tensor the value half and the
    trailing flag column; it overwrites the count half in place, each
    count by the [n_obs_embedding] entry of the count truncated to an
    integer and clipped to the embedding's range. *)
Theorem forward_overwrites_only_the_counts (mean_dim : list Q -> Q) (m : t) (x : batch)
    (pretrain representation : bool) (out : output) (x' : batch) :
  forward mean_dim m x pretrain representation = Some (out, x') ->
  let n_vars := width (xs_feats x) / 2 in
  xs_static x' = xs_static x /\
  xs_times x' = xs_times x /\
  n_timesteps x' = n_timesteps x /\
  xs_feats x' = embed_n_obs m n_vars (xs_feats x) /\
  (forall b t c, ~ (n_vars <= c < n_vars * 2) ->
     get3 (xs_feats x') b t c = get3 (xs_feats x) b t c) /\
  (forall b t c, n_vars <= c < n_vars * 2 ->
     get3 (xs_feats x') b t c
     = (fun v => default 0%Q
                   (n_obs_embedding m !! n_obs_ind (length (n_obs_embedding m)) v))
       <$> get3 (xs_feats x) b t c).
Proof.
  intros H n_vars.
  rewrite (forward_batch mean_dim m x pretrain representation out x' H).
  cbn [xs_static xs_times n_timesteps xs_feats]. fold n_vars.
  repeat split.
  - intros b t c Hc. rewrite get3_embed_n_obs.
    destruct (n_vars <=? c) eqn:E1; destruct (c <? n_vars * 2) eqn:E2;
      cbn [andb]; try (destruct (get3 _ b t c); reflexivity).
    apply Nat.leb_le in E1. apply Nat.ltb_lt in E2. lia.
  - intros b t c [Hc1 Hc2]. rewrite get3_embed_n_obs.
    apply Nat.leb_le in Hc1. apply Nat.ltb_lt in Hc2. rewrite Hc1, Hc2. reflexivity.
Qed.

Lemma forward_overwrites_only_the_counts_witness :
  exists out x',
    forward (sequential_mean float32) (Examples.model 1 "rep_token" false)
            Examples.short_batch false false = Some (out, x') /\
    xs_static x' = xs_static Examples.short_batch /\
    xs_times x' = xs_times Examples.short_batch /\
    get3 (xs_feats x') 1 1 0 = Some 8%Q /\
    get3 (xs_feats x') 1 1 1 = Some (7 # 2)%Q /\
    get3 (xs_feats x') 1 1 2 = Some 0%Q.
Proof.
  destruct (forward (sequential_mean float32) (Examples.model 1 "rep_token" false)
              Examples.short_batch false false)
    as [[out x']|] eqn:E; [|vm_compute in E; discriminate E].
  exists out, x'. split; [reflexivity|].
  pose proof (forward_overwrites_only_the_counts _ _ _ _ _ _ _ E)
    as [Hs [Ht [_ [_ [Hkeep Hcount]]]]].
  split; [exact Hs|]. split; [exact Ht|].
  split; [|split].
  - rewrite Hkeep by (vm_compute; lia). reflexivity.
  - rewrite Hcount by (vm_compute; lia). reflexivity.
  - rewrite Hkeep by (vm_compute; lia). reflexivity.
Defined.

End Embedder.

(** ** Fusion by averaging *)

Section Fusion.

Import Torch Model.

Lemma of_nat_S_nonzero (n : nat) : ~ (of_nat (S n) == 0)%Q.
Proof.
  unfold of_nat. intros H. apply Qeq_bool_iff in H. vm_compute in H.
  destruct n; discriminate H.
Qed.

Lemma Qsum_replicate (T : nat) (x : Q) : (Qsum (replicate T x) == of_nat T * x)%Q.
Proof.
  induction T as [|T IH].
  - unfold of_nat. simpl. ring.
  - cbn [replicate Qsum foldr]. fold (Qsum (replicate T x)).
    rewrite IH, of_nat_succ. ring.
Qed.

(** Without rounding the mean of a positive number of copies of a number
    is that number. *)
Lemma exact_mean_replicate (T : nat) (x : Q) :
  0 < T -> (mean_kernel exact_reductions (replicate T x) == x)%Q.
Proof.
  intros HT. destruct T as [|k]; [lia|].
  cbn [mean_kernel exact_reductions]. rewrite Qred_correct, length_replicate.
  rewrite Qsum_replicate. field. apply of_nat_S_nonzero.
Qed.

(** The mean of copies of a row, column by column. *)
Lemma mean_rows_replicate (mean_dim : list Q -> Q) (T : nat) (v : list Q) :
  0 < T ->
  mean_rows mean_dim (replicate T v)
  = Some (map (fun x => mean_dim (replicate T x)) v).
Proof.
  intros HT. destruct T as [|k]; [lia|].
  change (replicate (S k) v) with (v :: replicate k v) at 1.
  cbn [mean_rows]. f_equal. apply list_eq. intros j.
  rewrite list_lookup_imap, list_lookup_fmap.
  destruct (v !! j) as [x|] eqn:Ex; [|reflexivity].
  cbn [fmap option_fmap option_map]. f_equal. f_equal.
  change (v :: replicate k v) with (replicate (S k) v).
  change (map ?f ?l) with (f <$> l). rewrite fmap_replicate, Ex. reflexivity.
Qed.

(** C9 as stated fails: the mean rounds.  Six real bins that hold the
    float [0.3], averaged by a kernel that adds them up one after the
    other and divides by six, each operation rounded to a float of 24
    bits, give the float just below; the column of ones is averaged to
    one. *)
Lemma averaging_of_constant_rows_is_rounded :
  exists v : Q,
    v = float32 (3 # 10) /\
    fuse (sequential_mean float32) (Examples.model 1 "averaging" false)
         [[[v; 1]; [v; 1]; [v; 1]; [v; 1]; [v; 1]; [v; 1]; [7; 7]]]%Q []
    = Some (Rank2 [[10066329 # 33554432; 1]]%Q) /\
    (v == 10066330 # 33554432)%Q /\
    ~ (10066329 # 33554432 == v)%Q.
Proof.
  eexists. split; [reflexivity|]. split; [vm_compute; reflexivity|].
  split; [vm_compute; reflexivity|]. vm_compute. discriminate.
Qed.

(** C9, as the code has it.  With the fusion method [averaging], a
    record whose real time-bin rows all equal [v] gets, entry by entry,
    what the kernel of [torch.mean] makes of that many copies of the
    entry of [v]: the representation row and the other records have no
    part in it.  Without rounding that is [v]. *)
Theorem averaging_of_constant_rows (mean_dim : list Q -> Q) (m : t)
    (transformed : list (list (list Q))) (xs : list (list (list Q))) (b T : nat)
    (v r : list Q) :
  fusion_method m = "averaging" ->
  Forall (fun rows => 2 <= length rows) transformed ->
  transformed !! b = Some (replicate T v ++ [r]) ->
  (exists z,
     fuse mean_dim m transformed xs = Some (Rank2 z) /\
     z !! b = Some (map (fun x => mean_dim (replicate T x)) v)) /\
  (exists z zb,
     fuse (mean_kernel exact_reductions) m transformed xs = Some (Rank2 z) /\
     z !! b = Some zb /\
     Forall2 Qeq zb v).
Proof.
  intros Hfm Hrows Hb.
  assert (HT : 0 < T).
  { rewrite Forall_lookup in Hrows. specialize (Hrows _ _ Hb).
    rewrite length_app, length_replicate in Hrows. simpl in Hrows. lia. }
  assert (Hfuse : forall k, exists z,
            fuse k m transformed xs = Some (Rank2 z) /\
            z !! b = Some (map (fun x => k (replicate T x)) v)).
  { intros k. unfold fuse. rewrite Hfm. cbn [String.eqb Ascii.eqb Bool.eqb].
    destruct (mapM (fun rows => mean_rows k (removelast rows)) transformed)
      as [z|] eqn:Ez.
    2:{ exfalso. apply eq_None_not_Some in Ez. apply Ez. apply mapM_is_Some.
        eapply Forall_impl; [exact Hrows|].
        intros [|a [|c rest]] Hlen; simpl in Hlen; try lia.
        eexists. reflexivity. }
    exists z. split; [reflexivity|]. apply mapM_Some in Ez.
    destruct (Forall2_lookup_l _ _ _ _ _ Ez Hb) as [zb [Hzb Hmean]].
    rewrite removelast_last, mean_rows_replicate in Hmean by exact HT.
    injection Hmean as <-. exact Hzb. }
  split; [apply Hfuse|].
  destruct (Hfuse (mean_kernel exact_reductions)) as [z [Hz Hzb]].
  exists z, (map (fun x => mean_kernel exact_reductions (replicate T x)) v).
  split; [exact Hz|]. split; [exact Hzb|].
  clear - HT. induction v as [|x v IH]; simpl; constructor; [|exact IH].
  apply exact_mean_replicate. exact HT.
Qed.

Lemma averaging_of_constant_rows_witness :
  exists z,
    fuse (sequential_mean float32) (Examples.model 1 "averaging" false)
         Examples.constant_rows [] = Some (Rank2 z) /\
    z !! 0 = Some (map (fun x => sequential_mean float32 (replicate 3 x))
                       [1 # 3; - (2); 5]%Q).
Proof.
  apply (averaging_of_constant_rows (sequential_mean float32)
           (Examples.model 1 "averaging" false)
           Examples.constant_rows [] 0 3 [1 # 3; - (2); 5]%Q [7; 7; 7]%Q eq_refl).
  - repeat constructor.
  - reflexivity.
Defined.

End Fusion.

(** * Further properties of the code *)

(** ** The layer stacks *)

Section LayerStacks.

Import Torch Model LayerSpec.

Lemma out_width_app (a b : list layer) (d : nat) :
  out_width (a ++ b) d = out_width a d ≫= out_width b.
Proof.
  revert d. induction a as [|l a IH]; intros d; [reflexivity|].
  destruct l; cbn [app out_width]; try apply IH.
  - destruct (d_in =? d); [apply IH|reflexivity].
  - destruct (d0 =? d); [apply IH|reflexivity].
Qed.

Lemma out_width_blocks (block : list layer) (d k : nat) :
  out_width block d = Some d ->
  out_width (concat (replicate k block)) d = Some d.
Proof.
  intros Hb. induction k as [|k IH]; [reflexivity|].
  cbn [replicate concat]. rewrite out_width_app, Hb. exact IH.
Qed.

Lemma count_linear_app (a b : list layer) :
  length (List.filter is_linear (a ++ b))
  = length (List.filter is_linear a) + length (List.filter is_linear b).
Proof. rewrite List.filter_app, length_app. reflexivity. Qed.

Lemma count_linear_blocks (block : list layer) (k : nat) :
  length (List.filter is_linear (concat (replicate k block)))
  = k * length (List.filter is_linear block).
Proof.
  induction k as [|k IH]; [reflexivity|].
  cbn [replicate concat]. rewrite count_linear_app, IH. reflexivity.
Qed.

Lemma simple_mlp_out_width (d_in d_out n_hidden d_hidden : nat)
    (final_activation input_batch_norm hidden_batch_norm : bool) (dropout : Q) :
  out_width (simple_mlp d_in d_out n_hidden d_hidden final_activation input_batch_norm
                        hidden_batch_norm dropout) d_in = Some d_out.
Proof.
  unfold simple_mlp.
  rewrite out_width_app.
  assert (H : out_width
                (if n_hidden =? 0
                 then (if input_batch_norm then [BatchNormLastDim d_in] else [])
                      ++ [Linear d_in d_out]
                 else (if input_batch_norm then [BatchNormLastDim d_in] else [])
                      ++ [Linear d_in d_hidden; ReLU; Dropout dropout]
                      ++ concat (replicate (n_hidden - 1)
                           ((if hidden_batch_norm then [BatchNormLastDim d_hidden] else [])
                            ++ [Linear d_hidden d_hidden; ReLU; Dropout dropout]))
                      ++ (if hidden_batch_norm then [BatchNormLastDim d_hidden] else [])
                      ++ [Linear d_hidden d_out]) d_in = Some d_out).
  { destruct (n_hidden =? 0).
    - destruct input_batch_norm; cbn [app out_width]; rewrite ?Nat.eqb_refl; reflexivity.
    - rewrite out_width_app.
      assert (Hi : out_width (if input_batch_norm then [BatchNormLastDim d_in] else [])
                             d_in = Some d_in).
      { destruct input_batch_norm; cbn [out_width]; rewrite ?Nat.eqb_refl; reflexivity. }
      rewrite Hi. cbn [mbind option_bind].
      change ([Linear d_in d_hidden; ReLU; Dropout dropout] ++ ?r)
        with (Linear d_in d_hidden :: ReLU :: Dropout dropout :: r).
      cbn [out_width]. rewrite Nat.eqb_refl, out_width_app.
      rewrite out_width_blocks.
      + cbn [mbind option_bind].
        destruct hidden_batch_norm; cbn [app out_width]; rewrite ?Nat.eqb_refl; reflexivity.
      + destruct hidden_batch_norm; cbn [app out_width]; rewrite ?Nat.eqb_refl; reflexivity. }
  rewrite H. cbn [mbind option_bind]. destruct final_activation; reflexivity.
Qed.

Lemma simple_mlp_linear_count (d_in d_out n_hidden d_hidden : nat)
    (final_activation input_batch_norm hidden_batch_norm : bool) (dropout : Q) :
  length (List.filter is_linear
            (simple_mlp d_in d_out n_hidden d_hidden final_activation input_batch_norm
                        hidden_batch_norm dropout)) = n_hidden + 1.
Proof.
  unfold simple_mlp.
  rewrite count_linear_app.
  assert (Hf : length (List.filter is_linear (if final_activation then [ReLU] else [])) = 0).
  { destruct final_activation; reflexivity. }
  rewrite Hf, Nat.add_0_r.
  destruct (n_hidden =? 0) eqn:E.
  + apply Nat.eqb_eq in E. subst. destruct input_batch_norm; reflexivity.
  + apply Nat.eqb_neq in E.
    rewrite !count_linear_app, count_linear_blocks.
    assert (Hb : length (List.filter is_linear
                   ((if hidden_batch_norm then [BatchNormLastDim d_hidden] else [])
                    ++ [Linear d_hidden d_hidden; ReLU; Dropout dropout])) = 1).
    { destruct hidden_batch_norm; reflexivity. }
    rewrite Hb.
    destruct input_batch_norm, hidden_batch_norm; cbn [List.filter is_linear length]; lia.
Qed.

(** X1.  Whatever its arguments, [simple_mlp] builds a stack whose layers
    fit one another: fed with width [d_in] it ends at width [d_out], and
    it holds [n_hidden + 1] linear layers (with [n_hidden = 0] a single
    one, [d_hidden] being ignored). *)
Theorem simple_mlp_widths_chain (d_in d_out n_hidden d_hidden : nat)
    (final_activation input_batch_norm hidden_batch_norm : bool) (dropout : Q) :
  out_width (simple_mlp d_in d_out n_hidden d_hidden final_activation input_batch_norm
                        hidden_batch_norm dropout) d_in = Some d_out /\
  length (List.filter is_linear
            (simple_mlp d_in d_out n_hidden d_hidden final_activation input_batch_norm
                        hidden_batch_norm dropout)) = n_hidden + 1.
Proof.
  split; [apply simple_mlp_out_width|apply simple_mlp_linear_count].
Qed.

End LayerStacks.

(** ** The architecture *)

Section Architecture.

Import Torch Model LayerSpec.

Lemma cve_out_width (d : nat) (batch_norm : bool) :
  out_width (cve d batch_norm) 1 = Some d.
Proof.
  unfold cve. destruct batch_norm; cbn [out_width]; rewrite ?Nat.eqb_refl; reflexivity.
Qed.

(** X2.  Whenever [__init__] succeeds, the layer stacks it builds have
    widths that agree with one another: one value projector from width 2
    to [d_embedding] per event type, a static projector from
    [d_static_num] to [d_embedding], event encoders of dimension
    [d_embedding * (masked_transform_timesteps + 1)], time encoders of
    dimension [d_embedding * (d_time_series_num + 1)], a time embedding
    from width 1 to that dimension, and heads that start from it, the
    prediction head ending at [d_target]. *)
Theorem architecture_widths_fit (py_float fl : Q -> Q) (hp : hparams)
    (a : architecture) :
  init py_float fl hp = Some a ->
  let d := hp_d_embedding hp in
  let V := hp_d_time_series_num hp in
  let T := hp_masked_transform_timesteps hp in
  length (a_embedding_layers a) = V /\
  Forall (fun l => out_width l 2 = Some d) (a_embedding_layers a) /\
  out_width (a_tab_encoder a) (hp_d_static_num hp) = Some d /\
  Forall (fun e => dim e = d * (T + 1)) (a_event_transformers a) /\
  Forall (fun e => dim e = d * (V + 1)) (a_time_transformers a) /\
  out_width (a_full_time_embedding a) 1 = Some (d * (V + 1)) /\
  out_width (a_head a) (d * (V + 1)) = Some (hp_d_target hp) /\
  out_width (a_pretrain_value_proj a) (d * (V + 1)) = Some V /\
  (forall l, a_pretrain_presence_proj a = Some l -> out_width l (d * (V + 1)) = Some V) /\
  (forall l, a_predict_events_proj a = Some l -> out_width l (d * (T + 1)) = Some T) /\
  (forall l, a_predict_events_presence_proj a = Some l ->
             out_width l (d * (T + 1)) = Some T).
Proof.
  intros H d V T.
  pose proof (init_encoders py_float fl hp a H) as (He & Ht & _).
  assert (Henc : forall D (k : list Encoder),
            mapM (fun _ : nat =>
                    dh ← floordiv d (hp_n_transformer_head hp);
                    fm ← truediv py_float (default (d * 4) (hp_d_feedforward hp)) D;
                    new_encoder
                      {| dim := D; depth := 1; heads := hp_n_transformer_head hp;
                         pre_norm := hp_norm_first hp;
                         use_scalenorm := hp_scalenorm hp;
                         attn_dim_head := dh; ff_glu := hp_glu hp; ff_mult := fm;
                         attn_dropout := hp_transformer_dropout hp;
                         ff_dropout := hp_transformer_dropout hp |})
                 (seq 0 (hp_n_duett_layers hp)) = Some k ->
            Forall (fun e => dim e = D) k).
  { intros D k Hk. apply Forall_forall. intros e Hin.
    pose proof (mapM_const_elem _ _ _ e Hk Hin) as Hc.
    apply encoder_args in Hc. tauto. }
  apply Henc in He, Ht.
  unfold init, new_metrics in H.
  repeat match type of H with
         | context [mapM ?f ?l] =>
           destruct (mapM f l) eqn:?; cbn [mbind option_bind] in H; try discriminate
         end.
  destruct (hp_d_target hp =? 0); cbn [mbind option_bind] in H; [discriminate|].
  injection H as <-.
  cbn [a_embedding_layers a_tab_encoder a_event_transformers a_time_transformers
       a_full_time_embedding a_head a_pretrain_value_proj a_pretrain_presence_proj
       a_predict_events_proj a_predict_events_presence_proj] in *.
  fold d V T.
  repeat apply conj.
  - apply length_replicate.
  - apply Forall_replicate. apply simple_mlp_out_width.
  - apply simple_mlp_out_width.
  - exact He.
  - exact Ht.
  - exact (cve_out_width (d * (V + 1)) true).
  - apply simple_mlp_out_width.
  - apply simple_mlp_out_width.
  - intros ls Hl. destruct (hp_pretrain_presence hp); [|discriminate].
    injection Hl as <-. apply simple_mlp_out_width.
  - intros ls Hl. destruct (hp_predict_events hp); [|discriminate].
    injection Hl as <-. apply simple_mlp_out_width.
  - intros ls Hl. destruct (hp_predict_events hp && hp_pretrain_presence hp); [|discriminate].
    injection Hl as <-. apply simple_mlp_out_width.
Qed.

Lemma architecture_widths_fit_witness :
  exists a,
    init float64 float32 (default_hparams 8 36 1) = Some a /\
    out_width (a_head a) (24 * 37) = Some 1 /\
    Forall (fun e => dim e = 24 * 33) (a_event_transformers a).
Proof.
  destruct (init float64 float32 (default_hparams 8 36 1)) as [a|] eqn:E;
    [|vm_compute in E; discriminate E].
  exists a. split; [reflexivity|].
  pose proof (architecture_widths_fit float64 float32 (default_hparams 8 36 1) a E)
    as [_ [_ [_ [He [_ [_ [Hh _]]]]]]].
  split; [exact Hh|exact He].
Defined.

End Architecture.

(** ** The items of the dataset *)

Section Items.

Import Torch PhysioNetDataset BinnerSpec.

Lemma cache_get_cons (e : nat * item) (c : list (nat * item)) (j : nat) :
  cache_get (e :: c) j = if Nat.eqb e.1 j then Some e.2 else cache_get c j.
Proof. unfold cache_get. cbn [find]. destruct (Nat.eqb e.1 j); reflexivity. Qed.

Lemma cache_get_replace (c : list (nat * item)) (i j : nat) (it : item) :
  cache_get (map (fun e => if Nat.eqb e.1 i then (i, it) else e) c) j
  = if Nat.eqb i j
    then match cache_get c i with Some _ => Some it | None => None end
    else cache_get c j.
Proof.
  induction c as [|e c IH].
  - destruct (Nat.eqb i j); reflexivity.
  - cbn [map]. rewrite !cache_get_cons, IH.
    destruct (Nat.eqb_spec e.1 i) as [He|He]; cbn [fst snd].
    + subst i. destruct (Nat.eqb e.1 j); reflexivity.
    + destruct (Nat.eqb_spec i j) as [<-|Hij].
      * destruct (Nat.eqb_spec e.1 i); [congruence|reflexivity].
      * reflexivity.
Qed.

Lemma cache_get_put (c : list (nat * item)) (i j : nat) (it : item) :
  cache_get (cache_put c i it) j = if Nat.eqb i j then Some it else cache_get c j.
Proof.
  unfold cache_put. destruct (cache_get c i) as [x|] eqn:E.
  - rewrite cache_get_replace, E. reflexivity.
  - destruct (Nat.eqb_spec i j) as [<-|Hij].
    + induction c as [|e c IH].
      * cbn [app]. rewrite cache_get_cons. cbn [fst snd]. rewrite Nat.eqb_refl. reflexivity.
      * rewrite cache_get_cons in E. cbn [app]. rewrite cache_get_cons.
        destruct (Nat.eqb e.1 i); [discriminate E|]. exact (IH E).
    + clear E. induction c as [|e c IH].
      * cbn [app]. rewrite cache_get_cons. cbn [fst snd].
        destruct (Nat.eqb_spec i j); [congruence|reflexivity].
      * cbn [app]. rewrite !cache_get_cons, IH. reflexivity.
Qed.

Lemma with_cache_same (ds : t) : with_cache ds (temp_cache ds) = ds.
Proof. destruct ds; reflexivity. Qed.

(** X4.  Every item that [__getitem__] computes has the same shape: the
    grid has [n_timesteps] rows of 72 cells (36 values and 36 counts),
    there are 8 static features, and one bin end per bin. *)
Theorem item_has_fixed_shape (fl : Q -> Q) (ds : t) (i : nat) (it : item) :
  compute_item fl ds i = Some it ->
  length (x_ts it) = n_timesteps ds /\
  Forall (fun r => length r = 72) (x_ts it) /\
  length (x_static it) = 8 /\
  length (bin_ends it) = n_timesteps ds.
Proof.
  intros H. unfold compute_item in H.
  destruct (data (X ds) !! i) as [sample|]; cbn [mbind option_bind] in H; [|discriminate].
  destruct (last _) as [tlast|]; cbn [mbind option_bind] in H; [|discriminate].
  destruct (foldlM (record_row fl ds tlast) (observations fl sample) _) as [x|] eqn:Ef;
    cbn [mbind option_bind] in H; [|discriminate].
  destruct (head _); cbn [mbind option_bind] in H; [|discriminate].
  destruct (mapM _ _) as [st|] eqn:Es; cbn [mbind option_bind] in H; [|discriminate].
  destruct (y ds !! i) as [yi|]; cbn [mbind option_bind] in H; [|discriminate].
  destruct (yi !! 0); cbn [mbind option_bind] in H; [|discriminate].
  injection H as <-. cbn [x_ts x_static bin_ends].
  destruct (record_rows_cell fl ds tlast (observations fl sample) _ x
              (grid_zeros (n_timesteps ds)) Ef) as [[Hl Hr] _].
  apply length_mapM in Es. rewrite length_seq in Es.
  rewrite length_map, length_seq. repeat apply conj; auto.
Qed.

Lemma item_has_fixed_shape_witness :
  exists ds it,
    setup Torch.exact_reductions Examples.corpus_shared_bin (init val 4 false) = Some ds /\
    compute_item exact ds 0 = Some it /\
    length (x_ts it) = 4 /\ length (x_static it) = 8 /\ length (bin_ends it) = 4.
Proof.
  destruct (setup Torch.exact_reductions Examples.corpus_shared_bin (init val 4 false))
    as [ds|] eqn:E;
    [|vm_compute in E; discriminate E].
  assert (Hn : n_timesteps ds = 4).
  { unfold setup in E. destruct (mapM _ _); [|discriminate E].
    injection E as <-. reflexivity. }
  destruct (compute_item exact ds 0) as [it|] eqn:Ei.
  - exists ds, it. destruct (item_has_fixed_shape exact ds 0 it Ei) as (H1 & _ & H3 & H4).
    rewrite Hn in H1, H4. repeat apply conj; auto.
  - exfalso. revert Ei. unfold setup in E.
    destruct (mapM _ _) as [stats|] eqn:Em; [|discriminate E].
    injection E as <-. vm_compute in Em. injection Em as <-.
    vm_compute. discriminate.
Defined.

(** X5.  A record none of whose rows has a time stamp cannot be binned:
    no row is left, [time[-1]] does not exist and [__getitem__] raises,
    unless the item is served from the cache. *)
Theorem record_without_time_stamps_raises (fl : Q -> Q) (ds : t) (i : nat)
    (sample : list (list scalar)) :
  data (X ds) !! i = Some sample ->
  Forall (fun row => row !! 0 = Some NaN) sample ->
  (forall c, temp_cache ds = Some c -> cache_get c i = None) ->
  observations fl sample = [] /\
  compute_item fl ds i = None /\
  getitem fl ds i = None.
Proof.
  intros Hs Hn Hc.
  assert (Ho : observations fl sample = []).
  { clear Hs. unfold observations. induction Hn as [|row l Hrow _ IH]; [reflexivity|].
    cbn [omap list_omap]. rewrite Hrow. cbn [mjoin option_join mbind option_bind].
    exact IH. }
  assert (Hi : compute_item fl ds i = None).
  { unfold compute_item. rewrite Hs. cbn [mbind option_bind]. rewrite Ho. reflexivity. }
  repeat apply conj; auto.
  unfold getitem. rewrite Hi.
  destruct (temp_cache ds) as [c|]; cbn [mbind option_bind]; [|reflexivity].
  rewrite (Hc c eq_refl). reflexivity.
Qed.

Lemma record_without_time_stamps_raises_witness :
  exists ds it ds',
    setup Torch.exact_reductions Further.corpus_unobserved (init val 4 true) = Some ds /\
    getitem exact ds 0 = Some (it, ds') /\
    getitem exact ds 1 = None.
Proof.
  destruct (setup Torch.exact_reductions Further.corpus_unobserved (init val 4 true))
    as [ds|] eqn:E;
    [|vm_compute in E; discriminate E].
  unfold setup in E. destruct (mapM _ _) as [stats|] eqn:Em; [|discriminate E].
  injection E as <-. vm_compute in Em. injection Em as <-.
  eexists _, _, _. split; [reflexivity|]. split; [vm_compute; reflexivity|].
  eapply record_without_time_stamps_raises.
  - reflexivity.
  - repeat constructor.
  - intros c Hc. injection Hc as <-. reflexivity.
Defined.

(** X6.  With the cache switched on, an item that [__getitem__] has
    returned is returned again, unchanged and without a change of the
    dataset, and the items cached before stay cached; with the cache
    switched off the call leaves the dataset as it is. *)
Theorem cached_item_is_returned_again (fl : Q -> Q) (ds ds' : t) (i : nat) (it : item) :
  getitem fl ds i = Some (it, ds') ->
  (forall c, temp_cache ds = Some c ->
     getitem fl ds' i = Some (it, ds') /\
     exists c', temp_cache ds' = Some c' /\ cache_get c' i = Some it /\
       forall j it', cache_get c j = Some it' -> cache_get c' j = Some it') /\
  (temp_cache ds = None -> ds' = ds).
Proof.
  intros H. unfold getitem in H. split.
  - intros c Hc. rewrite Hc in H. cbn [mbind option_bind fmap option_fmap option_map] in H.
    destruct (cache_get c i) as [x|] eqn:Eg.
    + injection H as <- <-. split.
      * unfold getitem. rewrite Hc. cbn [mbind option_bind]. rewrite Eg. reflexivity.
      * exists c. auto.
    + destruct (compute_item fl ds i) as [x|]; cbn [mbind option_bind] in H; [|discriminate].
      injection H as <- <-.
      assert (Hp : cache_get (cache_put c i x) i = Some x).
      { rewrite cache_get_put, Nat.eqb_refl. reflexivity. }
      split.
      * unfold getitem. cbn [with_cache temp_cache mbind option_bind]. rewrite Hp.
        reflexivity.
      * exists (cache_put c i x). repeat apply conj; auto.
        intros j it' Hj. rewrite cache_get_put.
        destruct (Nat.eqb i j) eqn:Eij; [|exact Hj].
        apply Nat.eqb_eq in Eij. subst j. congruence.
  - intros Hc. rewrite Hc in H. cbn [mbind option_bind fmap option_fmap option_map] in H.
    destruct (compute_item fl ds i) as [x|]; cbn [mbind option_bind] in H; [|discriminate].
    injection H as _ <-. rewrite <- Hc. apply with_cache_same.
Qed.

Lemma cached_item_is_returned_again_witness :
  exists ds it ds',
    setup Torch.exact_reductions Further.corpus_unobserved (init val 4 true) = Some ds /\
    getitem exact ds 0 = Some (it, ds') /\
    getitem exact ds' 0 = Some (it, ds').
Proof.
  destruct (setup Torch.exact_reductions Further.corpus_unobserved (init val 4 true))
    as [ds|] eqn:E;
    [|vm_compute in E; discriminate E].
  destruct (getitem exact ds 0) as [[it ds']|] eqn:Eg.
  - exists ds, it, ds'. split; [reflexivity|]. split; [exact Eg|].
    destruct (proj1 (cached_item_is_returned_again exact ds ds' 0 it Eg) [])
      as [H _]; [|exact H].
    unfold setup in E. destruct (mapM _ _); [|discriminate E].
    injection E as <-. reflexivity.
  - exfalso. unfold setup in E.
    destruct (mapM _ _) as [stats|] eqn:Em; [|discriminate E].
    injection E as <-. vm_compute in Em. injection Em as <-.
    vm_compute in Eg. discriminate Eg.
Defined.

(** X7.  [setup] of the data module loads only the splits of its stage:
    after [setup('fit')] the test dataset is as it was constructed, and
    any [__getitem__] on it raises; after [setup('validate')] the same
    holds of the training dataset. *)
Theorem stage_loads_only_its_splits
    (kernels : reductions) (loader : split -> tensor3 * list (list scalar))
    (fl : Q -> Q) (use_temp_cache : bool) (batch_size : nat)
    (dm : PhysioNetDataModule.t) :
  (PhysioNetDataModule.setup kernels loader
     (PhysioNetDataModule.init use_temp_cache batch_size)
     (Some PhysioNetDataModule.fit) = Some dm ->
   PhysioNetDataModule.ds_test dm = init test 32 use_temp_cache /\
   forall i, getitem fl (PhysioNetDataModule.ds_test dm) i = None) /\
  (PhysioNetDataModule.setup kernels loader
     (PhysioNetDataModule.init use_temp_cache batch_size)
     (Some PhysioNetDataModule.validate) = Some dm ->
   PhysioNetDataModule.ds_train dm = init train 32 use_temp_cache /\
   forall i, getitem fl (PhysioNetDataModule.ds_train dm) i = None).
Proof.
  assert (Hraise : forall s i, getitem fl (init s 32 use_temp_cache) i = None).
  { intros s i. unfold getitem, compute_item, init. cbn [temp_cache X data].
    destruct use_temp_cache; reflexivity. }
  split; intros H; unfold PhysioNetDataModule.setup in H;
    repeat match type of H with
           | context [setup kernels loader ?d] =>
             destruct (setup kernels loader d); cbn [mbind option_bind] in H;
               try discriminate
           end;
    injection H as <-;
    cbn [PhysioNetDataModule.ds_test PhysioNetDataModule.ds_train PhysioNetDataModule.init];
    (split; [reflexivity|apply Hraise]).
Qed.

Lemma stage_loads_only_its_splits_witness :
  exists dm,
    PhysioNetDataModule.setup exact_reductions Examples.corpus
      (PhysioNetDataModule.init false 8) (Some PhysioNetDataModule.fit) = Some dm /\
    getitem exact (PhysioNetDataModule.ds_test dm) 0 = None.
Proof.
  destruct (PhysioNetDataModule.setup exact_reductions Examples.corpus
              (PhysioNetDataModule.init false 8) (Some PhysioNetDataModule.fit))
    as [dm|] eqn:E;
    [|vm_compute in E; discriminate E].
  exists dm. split; [reflexivity|].
  exact (proj2 (proj1 (stage_loads_only_its_splits exact_reductions Examples.corpus exact
                         false 8 dm) E) 0).
Defined.

End Items.

(** ** The statistics of a split *)

Section Statistics.

Import Torch PhysioNetDataset BinnerSpec.

Lemma feature_stats_is_Some (kernels : reductions) (X : tensor3) (i : nat) :
  is_Some (feature_stats kernels X i) <-> channel X i <> [].
Proof.
  unfold feature_stats. destruct (channel X i) as [|v vals].
  - cbn. split; [intros [? H]; discriminate H|congruence].
  - cbn. split; [discriminate|]. intros _. eexists. reflexivity.
Qed.

(** X8.  [setup] succeeds exactly when every channel of the split holds
    at least one value that is not NaN: the maximum of a channel without
    any value raises. *)
Theorem setup_needs_a_value_in_every_channel
    (kernels : reductions) (loader : split -> tensor3 * list (list scalar))
    (ds : t) :
  is_Some (setup kernels loader ds)
  <-> forall i, i < shape2 (loader (split_name ds)).1 ->
        channel (loader (split_name ds)).1 i <> [].
Proof.
  unfold setup. cbv zeta.
  set (X := (loader (split_name ds)).1).
  assert (H : is_Some (mapM (feature_stats kernels X) (seq 0 (shape2 X)))
              <-> forall i, i < shape2 X -> channel X i <> []).
  { rewrite mapM_is_Some, Forall_forall. split.
    - intros H i Hi. apply (feature_stats_is_Some kernels). apply H.
      apply elem_of_seq. lia.
    - intros H i Hi. apply elem_of_seq in Hi.
      apply (feature_stats_is_Some kernels), H. lia. }
  rewrite <- H. destruct (mapM _ _); cbn [mbind option_bind].
  - split; intros _; eexists; reflexivity.
  - split; intros [? E]; discriminate E.
Qed.

Lemma standardized_NaN (fl : Q -> Q) (ds : t) (j : nat) (x : Q) :
  stds ds !! S j = Some NaN -> standardized fl ds j x = NaN.
Proof.
  intros H. unfold standardized, standardize, add, div, sub. rewrite H.
  destruct (default NaN (means ds !! S j)); reflexivity.
Qed.

(** X9.  An event type with a single reading in the whole split has no
    standard deviation: [std] of one value is NaN, so every standardized
    value of that type is NaN, and so is every cell of the grid that
    receives a reading of it. *)
Theorem single_reading_standardizes_to_NaN
    (kernels : reductions) (loader : split -> tensor3 * list (list scalar))
    (fl : Q -> Q) (ds ds' : t) (j : nat) (v : Q) :
  setup kernels loader ds = Some ds' ->
  S j < shape2 (X ds') ->
  channel (X ds') (S j) = [v] ->
  stds ds' !! S j = Some NaN /\
  (forall x, standardized fl ds' j x = NaN) /\
  (forall i it sample tlast b,
     compute_item fl ds' i = Some it ->
     data (X ds') !! i = Some sample ->
     last (map fst (observations fl sample)) = Some tlast ->
     b < n_timesteps ds' -> j < 36 ->
     hits fl ds' tlast b j (observations fl sample) <> [] ->
     cell (x_ts it) b j = Some NaN).
Proof.
  intros Hs Hj Hc.
  destruct (setup_statistics kernels loader ds ds' Hs) as (_ & _ & _ & Hstd).
  assert (Hn : stds ds' !! S j = Some NaN).
  { rewrite Hstd, list_lookup_fmap, lookup_seq_lt by lia.
    cbn [fmap option_fmap option_map plus]. rewrite Hc. reflexivity. }
  split; [exact Hn|]. split; [intros x; apply standardized_NaN, Hn|].
  intros i it sample tlast b Hi Hd Hl Hb Hj36 Hh.
  destruct (compute_item_cells fl ds' i it sample tlast b j Hi Hd Hl Hb Hj36) as [Hv _].
  rewrite Hv. destruct (last (hits _ _ _ _ _ _)) as [x|] eqn:El.
  - f_equal. apply standardized_NaN, Hn.
  - apply last_None in El. contradiction.
Qed.

Lemma single_reading_standardizes_to_NaN_witness :
  exists ds it,
    setup Torch.exact_reductions Further.corpus_single_reading (init val 4 false) = Some ds /\
    channel (X ds) 1 = [1%Q] /\
    compute_item exact ds 0 = Some it /\
    cell (x_ts it) 0 0 = Some NaN.
Proof.
  destruct (setup Torch.exact_reductions Further.corpus_single_reading (init val 4 false))
    as [ds|] eqn:E;
    [|vm_compute in E; discriminate E].
  pose proof (single_reading_standardizes_to_NaN exact_reductions
                Further.corpus_single_reading exact
                (init val 4 false) ds 0 1%Q E) as H.
  unfold setup in E. destruct (mapM _ _) as [stats|] eqn:Em; [|discriminate E].
  injection E as <-. cbn [X n_timesteps] in H.
  destruct H as (_ & _ & H); [cbn; lia|reflexivity|].
  vm_compute in Em. injection Em as <-.
  eexists _, _. split; [reflexivity|]. split; [reflexivity|].
  split; [vm_compute; reflexivity|].
  eapply (H 0 _ _ _ 0); [vm_compute; reflexivity|reflexivity|reflexivity|lia|lia|].
  vm_compute. discriminate.
Defined.

End Statistics.

(** ** The order of the assignments of the embedder *)

Section EmbedderCells.

Import Torch Model.

Lemma get3_foldl_layers {A E : Type} (T : nat) (v : nat * E -> nat -> nat -> nat -> A)
    (layers : list E) (b t j : nat) :
  forall p : list (list (list A)),
  get3 (foldl (fun p e => assign (fun b t j => (t <? T) && (j =? e.1)) (v e) p) p
              (imap (fun i el => (i, el)) layers)) b t j
  = (fun old => if t <? T
                then match layers !! j with Some el => v (j, el) b t j | None => old end
                else old) <$> get3 p b t j.
Proof.
  induction layers as [|x l IH] using rev_ind; intros p.
  - cbn [imap foldl]. destruct (get3 p b t j); cbn [fmap option_fmap option_map];
      [|reflexivity]. destruct (t <? T); reflexivity.
  - rewrite imap_app, foldl_app. cbn [imap foldl]. rewrite get3_assign, IH.
    rewrite Nat.add_0_r. cbn [fst].
    destruct (get3 p b t j) as [old|]; cbn [fmap option_fmap option_map]; [|reflexivity].
    f_equal. destruct (t <? T); cbn [andb]; [|reflexivity].
    destruct (Nat.eqb_spec j (length l)) as [->|Hj].
    + rewrite list_lookup_middle by reflexivity. reflexivity.
    + destruct (decide (j < length l)) as [Hlt|Hge].
      * rewrite lookup_app_l by exact Hlt. reflexivity.
      * rewrite (lookup_ge_None_2 l j) by lia.
        rewrite (lookup_ge_None_2 (l ++ [x]) j); [reflexivity|].
        rewrite length_app. cbn [length]. lia.
Qed.

(** The cell [psi[b, t, j]] that the embedding step computes: what the
    last of the overlapping assignments of [forward] left there. *)
Lemma embed_cell (m : t) (x : batch) (e : embedded) (b t j : nat) :
  embed m x = Some e ->
  b < length (xs_feats x) ->
  t <= steps (xs_feats x) ->
  j <= width (xs_feats x) / 2 ->
  get3 (psi e) b t j
  = Some (if predict_events m && default false (get3 (event_mask e) b t j)
          then embedding (special_embeddings m) MASKED_EMBEDDING_KEY
          else if mask_inds (feats e) b t
          then embedding (special_embeddings m) MASKED_EMBEDDING_KEY
          else if t =? steps (xs_feats x)
          then embedding (special_embeddings m) REPRESENTATION_EMBEDDING_KEY
          else if j =? width (xs_feats x) / 2
          then default [] (tab_encoder m (xs_static x) !! b)
          else match embedding_layers m !! j with
               | Some el =>
                 default [] (rows ← el (embedding_layer_input (width (xs_feats x) / 2)
                                          (feats e) j) !! b;
                             rows !! t)
               | None => zeros (d_embedding m)
               end).
Proof.
  intros H Hb Ht Hj. unfold embed in H. cbv zeta in H.
  destruct (width (xs_feats x) / 2 <? length (embedding_layers m)); [discriminate|].
  apply (inj Some) in H. subst e. cbn [psi event_mask feats].
  remember (width (xs_feats x) / 2) as n_vars eqn:En.
  remember (steps (xs_feats x)) as T eqn:ET.
  clear En ET.
  set (xs := embed_n_obs m n_vars (xs_feats x)).
  match goal with
  | |- get3 (if predict_events m then assign ?s ?v ?p else ?p) b t j = _ =>
    assert (Hp : get3 p b t j
                 = Some (if mask_inds xs b t
                         then embedding (special_embeddings m) MASKED_EMBEDDING_KEY
                         else if t =? T
                         then embedding (special_embeddings m) REPRESENTATION_EMBEDDING_KEY
                         else if j =? n_vars
                         then default [] (tab_encoder m (xs_static x) !! b)
                         else match embedding_layers m !! j with
                              | Some el =>
                                default [] (rows ← el (embedding_layer_input n_vars xs j) !! b;
                                            rows !! t)
                              | None => zeros (d_embedding m)
                              end))
  end.
  { match goal with
    | |- context [foldl ?f ?p0 ?l] =>
      assert (Hf : get3 (foldl f p0 l) b t j
                   = (fun old =>
                        if t <? T
                        then match embedding_layers m !! j with
                             | Some el =>
                               default [] (rows ← el (embedding_layer_input n_vars xs j) !! b;
                                           rows !! t)
                             | None => old
                             end
                        else old) <$> get3 p0 b t j)
        by exact (get3_foldl_layers T
                    (fun (e : nat * (list (list (Q * Q)) -> list (list vec))) b t j =>
                       default [] (rows ← e.2 (embedding_layer_input n_vars xs e.1) !! b;
                                   rows !! t))
                    (embedding_layers m) b t j p0)
    end.
    rewrite !get3_assign, Hf. clear Hf.
    assert (Hlen : length xs = length (xs_feats x)).
    { unfold xs, embed_n_obs. apply length_map. }
    rewrite Hlen, get3_replicate by lia.
    cbn [fmap option_fmap option_map fst snd]. f_equal.
    destruct (mask_inds xs b t); [reflexivity|].
    destruct (Nat.eqb_spec t T) as [->|Hne]; [reflexivity|].
    assert (Hlt : (t <? T) = true) by (apply Nat.ltb_lt; lia).
    rewrite Hlt. cbn [andb].
    destruct (j =? n_vars); reflexivity. }
  destruct (predict_events m); cbn [andb]; [|exact Hp].
  rewrite get3_assign, Hp. cbn [fmap option_fmap option_map]. reflexivity.
Qed.

Lemma event_mask_first_row (n_vars : nat) (xs : tensor3) (b j : nat) (rows : list (list Q)) :
  xs !! b = Some rows ->
  0 < length rows ->
  get3 (event_mask_inds n_vars xs) b (length rows) j
  = get3 (event_mask_inds n_vars xs) b 0 j.
Proof.
  intros Hb Hl. unfold get3, event_mask_inds.
  rewrite list_lookup_fmap, Hb. cbn [fmap option_fmap option_map mbind option_bind].
  destruct rows as [|r rows]; [cbn in Hl; lia|].
  match goal with
  | |- context [map ?f (r :: rows)] =>
    change (map f (r :: rows)) with (f r :: map f rows);
    change (take 1 (f r :: map f rows)) with [f r];
    change ((f r :: map f rows) ++ [f r]) with (f r :: (map f rows ++ [f r]));
    change (length (r :: rows)) with (S (length rows));
    change ((f r :: (map f rows ++ [f r])) !! S (length rows))
      with ((map f rows ++ [f r]) !! length rows)
  end.
  cbv beta. rewrite list_lookup_middle by (rewrite length_map; reflexivity).
  reflexivity.
Qed.

(** X10.  The embedding step resolves its overlapping assignments in a
    fixed order.  A cell [psi[b, t, j]] holds the MASK embedding when
    events are predicted and the cell is event-masked, or when its bin is
    flagged; otherwise the representation embedding on the appended row;
    otherwise the static projection in the last column; otherwise the
    output of the value projector of its event type, which reads the
    counts after they were replaced by their embeddings. *)
Theorem embedding_assignments_in_order (m : t) (x : batch) (e : embedded) (b t j : nat) :
  embed m x = Some e ->
  b < length (xs_feats x) ->
  t <= steps (xs_feats x) ->
  j <= width (xs_feats x) / 2 ->
  feats e = embed_n_obs m (width (xs_feats x) / 2) (xs_feats x) /\
  get3 (psi e) b t j
  = Some (if predict_events m && default false (get3 (event_mask e) b t j)
          then embedding (special_embeddings m) MASKED_EMBEDDING_KEY
          else if mask_inds (feats e) b t
          then embedding (special_embeddings m) MASKED_EMBEDDING_KEY
          else if t =? steps (xs_feats x)
          then embedding (special_embeddings m) REPRESENTATION_EMBEDDING_KEY
          else if j =? width (xs_feats x) / 2
          then default [] (tab_encoder m (xs_static x) !! b)
          else match embedding_layers m !! j with
               | Some el =>
                 default [] (rows ← el (embedding_layer_input (width (xs_feats x) / 2)
                                          (feats e) j) !! b;
                             rows !! t)
               | None => zeros (d_embedding m)
               end).
Proof.
  intros H Hb Ht Hj. split; [|apply embed_cell; assumption].
  unfold embed in H. destruct (_ <? _); [discriminate|]. injection H as <-. reflexivity.
Qed.

Lemma embedding_assignments_in_order_witness :
  exists e,
    embed (Examples.model 1 "rep_token" true) Examples.masked_batch = Some e /\
    get3 (psi e) 0 0 0 = Some [5; 3 # 2]%Q /\
    get3 (psi e) 0 0 1 = Some [1; 0]%Q /\
    get3 (psi e) 0 2 1 = Some [1; 1]%Q.
Proof.
  destruct (embed (Examples.model 1 "rep_token" true) Examples.masked_batch)
    as [e|] eqn:E; [|vm_compute in E; discriminate E].
  exists e. split; [reflexivity|].
  destruct (embedding_assignments_in_order _ _ e 0 0 0 E) as [_ H1];
    [vm_compute; lia..|].
  destruct (embedding_assignments_in_order _ _ e 0 0 1 E) as [_ H2];
    [vm_compute; lia..|].
  destruct (embedding_assignments_in_order _ _ e 0 2 1 E) as [_ H3];
    [vm_compute; lia..|].
  rewrite H1, H2, H3. clear H1 H2 H3.
  unfold embed in E. vm_compute in E. injection E as <-.
  repeat split.
Defined.

(** X11.  When events are predicted, the appended representation row
    inherits the event mask of the first bin: for an event type whose
    count in the first bin is [-1], the cell of the representation row
    holds the MASK embedding, not the representation embedding. *)
Theorem representation_row_inherits_the_event_mask (m : t) (x : batch) (e : embedded)
    (b j : nat) (rows : list (list Q)) (r : list Q) (c : Q) :
  embed m x = Some e ->
  predict_events m = true ->
  xs_feats x !! b = Some rows ->
  length rows = steps (xs_feats x) ->
  rows !! 0 = Some r ->
  j < width (xs_feats x) / 2 ->
  r !! (width (xs_feats x) / 2 + j) = Some c ->
  (c == - (1))%Q ->
  get3 (psi e) b (steps (xs_feats x)) j
  = Some (embedding (special_embeddings m) MASKED_EMBEDDING_KEY).
Proof.
  intros H Hp Hb Hl Hr Hj Hc Hm.
  assert (Hlen : 0 < length rows).
  { destruct rows; [discriminate Hr|cbn [length]; lia]. }
  rewrite (embed_cell m x e b (steps (xs_feats x)) j H);
    [|eapply lookup_lt_Some; exact Hb|lia|lia].
  assert (He : event_mask e = event_mask_inds (width (xs_feats x) / 2) (xs_feats x)).
  { unfold embed in H. destruct (_ <? _); [discriminate|]. injection H as <-. reflexivity. }
  rewrite Hp, He, <- Hl, (event_mask_first_row _ _ b j rows Hb Hlen).
  assert (Hev : get3 (event_mask_inds (width (xs_feats x) / 2) (xs_feats x)) b 0 j
                = Some true).
  { unfold get3, event_mask_inds. rewrite list_lookup_fmap, Hb.
    cbn [fmap option_fmap option_map mbind option_bind].
    destruct rows as [|r0 rows]; [discriminate Hr|]. injection Hr as ->.
    cbn [map take app lookup list_lookup mbind option_bind].
    rewrite lookup_app_l.
    - rewrite list_lookup_fmap, lookup_take_lt by lia.
      rewrite lookup_drop, Hc. cbn [fmap option_fmap option_map]. f_equal.
      apply Qeq_bool_iff. exact Hm.
    - rewrite length_map, length_take, length_drop.
      apply lookup_lt_Some in Hc. lia. }
  rewrite Hev. reflexivity.
Qed.

Lemma representation_row_inherits_the_event_mask_witness :
  exists e,
    embed (Examples.model 1 "rep_token" true) Further.event_masked_batch = Some e /\
    get3 (psi e) 0 2 0 = Some [0; 1]%Q /\
    get3 (psi e) 0 2 1 = Some [1; 1]%Q.
Proof.
  destruct (embed (Examples.model 1 "rep_token" true) Further.event_masked_batch)
    as [e|] eqn:E; [|vm_compute in E; discriminate E].
  exists e. split; [reflexivity|]. split.
  - apply (representation_row_inherits_the_event_mask
             (Examples.model 1 "rep_token" true) Further.event_masked_batch e 0 0
             [[0; - (1); 0]; [0; - (1); 0]]%Q [0; - (1); 0]%Q (- (1))%Q E);
      try reflexivity. vm_compute. lia.
  - unfold embed in E. vm_compute in E. injection E as <-. reflexivity.
Defined.

End EmbedderCells.

(** ** Fusion over several masked steps *)

Section MaskedFusion.

Import Torch Model.

Lemma length_pad_rows (k w : nat) (rows : list vec) : length (pad_rows k w rows) = k.
Proof.
  unfold pad_rows. destruct (length rows <=? k) eqn:E.
  - apply Nat.leb_le in E. rewrite length_app, length_replicate. lia.
  - apply Nat.leb_gt in E. rewrite length_take. lia.
Qed.

(** X12.  With [fusion_method = 'masked_embed'] and more than one masked
    step, every record contributes exactly [pretrain_masked_steps] rows
    to the fused tensor, so that stacking a batch that holds a record
    cannot fail: the transformed rows of its flagged bins come first, in
    their order, followed by zero rows; flagged bins in excess of
    [pretrain_masked_steps] are cropped.  On a batch without any record
    there is nothing to stack, and [torch.stack] raises. *)
Theorem multi_step_fusion_has_fixed_height (mean_dim : list Q -> Q) (m : t)
    (transformed : list (list vec)) (xs : tensor3) :
  fusion_method m = "masked_embed" ->
  1 < pretrain_masked_steps m ->
  (transformed = [] -> fuse mean_dim m transformed xs = None) /\
  (transformed <> [] ->
   exists c,
     fuse mean_dim m transformed xs = Some (Rank3 c) /\
     length c = length transformed /\
     Forall (fun rows => length rows = pretrain_masked_steps m) c /\
     forall i rows bins ci,
       transformed !! i = Some rows -> xs !! i = Some bins -> c !! i = Some ci ->
       let flagged :=
         omap (fun e : vec * list Q =>
                 if Qle_bool (flag_of e.2) 0 then None else Some e.1)
              (zip rows bins) in
       (length flagged <= pretrain_masked_steps m ->
        ci = flagged ++ replicate (pretrain_masked_steps m - length flagged)
                                  (zeros (length (hd [] rows)))) /\
       (pretrain_masked_steps m < length flagged ->
        ci = take (pretrain_masked_steps m) flagged)).
Proof.
  intros Hf Hk. unfold fuse. rewrite Hf.
  change (String.eqb "masked_embed" "rep_token") with false.
  change (String.eqb "masked_embed" "masked_embed") with true. cbv iota.
  apply Nat.ltb_lt in Hk. rewrite Hk.
  split; [intros ->; reflexivity|]. intros Hne.
  destruct transformed as [|rows0 rest] eqn:Et; [contradiction|]. rewrite <- Et.
  eexists. split; [reflexivity|]. split; [apply length_imap|]. split.
  - apply Forall_forall. intros rows Hin. apply list_elem_of_lookup in Hin.
    destruct Hin as [i Hi]. rewrite list_lookup_imap in Hi.
    destruct (transformed !! i); [|discriminate Hi].
    cbn [fmap option_fmap option_map] in Hi. injection Hi as <-.
    apply length_pad_rows.
  - intros i rows bins ci Hr Hb Hc.
    rewrite list_lookup_imap, Hr, Hb in Hc.
    cbn [fmap option_fmap option_map default] in Hc. injection Hc as <-.
    unfold pad_rows. split; intros Hl.
    + apply Nat.leb_le in Hl. rewrite Hl. reflexivity.
    + apply Nat.leb_gt in Hl. rewrite Hl. reflexivity.
Qed.

Lemma multi_step_fusion_has_fixed_height_witness :
  exists c,
    fuse (sequential_mean float32) (Examples.model 2 "masked_embed" false)
         [[[1; 2]; [3; 4]; [5; 6]; [7; 8]]]%Q
         [[[0; 0; 1]; [0; 0; 1]; [0; 0; 1]]]%Q = Some (Rank3 c) /\
    Forall (fun rows => length rows = 2) c /\
    c !! 0 = Some [[1; 2]; [3; 4]]%Q.
Proof.
  destruct (proj2 (multi_step_fusion_has_fixed_height (sequential_mean float32)
                     (Examples.model 2 "masked_embed" false)
                     [[[1; 2]; [3; 4]; [5; 6]; [7; 8]]]%Q
                     [[[0; 0; 1]; [0; 0; 1]; [0; 0; 1]]]%Q eq_refl ltac:(cbn; lia))
              ltac:(discriminate))
    as (c & Hc & _ & Hl & _).
  exists c. split; [exact Hc|]. split; [exact Hl|].
  vm_compute in Hc. injection Hc as <-. reflexivity.
Defined.

End MaskedFusion.

(** ** The feature dropout of pre-training *)

Section FeatureDropout.

Import Torch Model.

Lemma random_size_pos (k : nat) :
  forall g : Generator, pos (random_size g k).2 = pos g + k.
Proof.
  induction k as [|k IH]; intros g; cbn [random_size snd].
  - lia.
  - rewrite IH. cbn [random next snd pos]. lia.
Qed.

Lemma lookup_twice_and_flag (k : list bool) (c : nat) :
  c <= 2 * length k ->
  (k ++ k ++ [true]) !! c
  = if c =? 2 * length k then Some true else k !! (c mod length k).
Proof.
  intros Hc. destruct (Nat.eqb_spec c (2 * length k)) as [->|Hne].
  - rewrite lookup_app_r by lia. rewrite lookup_app_r by lia.
    replace (2 * length k - length k - length k) with 0 by lia. reflexivity.
  - destruct (decide (c < length k)) as [Hlt|Hge].
    + rewrite lookup_app_l by lia. rewrite Nat.mod_small by lia. reflexivity.
    + rewrite lookup_app_r by lia. rewrite lookup_app_l by lia.
      f_equal. apply (Nat.mod_unique c (length k) 1); lia.
Qed.

(** X13.  The feature dropout of [pretrain_prep_batch] drops whole event
    types of a record: whether a cell survives depends only on its record
    and its event type, the same for every bin and for the value and the
    count of the type.  The trailing flag column and the cells equal to
    [-1] always survive, and so does every event type without an
    observed target; a dropped cell is multiplied by zero.  The generator
    advances by one draw per record and event type.  With
    [pretrain_dropout <= 0] nothing is drawn and nothing changes. *)
Theorem dropout_drops_whole_event_types (m : t) (batch_size n_vars : nat) (g g' : Generator)
    (y_ts_masks : tensor) (clipped out : tensor3) :
  dropout m batch_size n_vars g y_ts_masks clipped = Some (out, g') ->
  (Qle_bool (pretrain_dropout m) 0 = true -> out = clipped /\ g' = g) /\
  (Qle_bool (pretrain_dropout m) 0 = false ->
   pos g' = pos g + batch_size * n_vars /\
   length out = length clipped /\
   exists keep : nat -> nat -> bool,
     (forall b j, default false (u ← unobserved y_ts_masks !! b; u !! j) = true ->
                  keep b j = true) /\
     forall b t c v,
       get3 clipped b t c = Some v ->
       get3 out b t c
       = Some (if (c =? 2 * n_vars) || keep b (c mod n_vars) || Qeq_bool v (- (1))
               then v else (v * 0)%Q)).
Proof.
  intros H. unfold dropout in H.
  destruct (Qle_bool (pretrain_dropout m) 0) eqn:Ep.
  { injection H as <- <-. split; [auto|discriminate]. }
  split; [discriminate|]. intros _. cbv zeta in H.
  set (un := unobserved y_ts_masks) in *.
  set (r := random_size g (batch_size * n_vars)) in *.
  destruct ((length un =? batch_size) && _ && _) eqn:Echk; [|discriminate H].
  apply andb_prop in Echk. destruct Echk as [Echk Hlc].
  apply andb_prop in Echk. destruct Echk as [Hlu Hun].
  apply Nat.eqb_eq in Hlu, Hlc.
  destruct (forallb _ clipped) eqn:Erows; [|discriminate H].
  injection H as <- <-.
  split; [apply random_size_pos|]. split; [apply length_imap|].
  set (L := imap (fun b u =>
                    imap (fun j o =>
                            o || negb (Qle_bool (default 0%Q (r.1 !! (b * n_vars + j)))
                                               (pretrain_dropout m))) u) un).
  exists (fun b j => default false (k ← L !! b; k !! j)).
  split.
  - intros b j Hu. unfold L. rewrite list_lookup_imap.
    destruct (un !! b) as [u|]; [|discriminate Hu].
    cbn [fmap option_fmap option_map mbind option_bind] in Hu |- *.
    rewrite list_lookup_imap.
    destruct (u !! j) as [[|]|]; [reflexivity|discriminate Hu..].
  - intros b t c v Hv. unfold get3 in Hv |- *.
    rewrite list_lookup_imap.
    destruct (clipped !! b) as [rows|] eqn:Eb; [|discriminate Hv].
    cbn [fmap option_fmap option_map mbind option_bind] in Hv |- *.
    rewrite list_lookup_fmap.
    destruct (rows !! t) as [row|] eqn:Et; [|discriminate Hv].
    cbn [fmap option_fmap option_map mbind option_bind] in Hv |- *.
    rewrite list_lookup_imap, Hv. cbn [fmap option_fmap option_map]. f_equal.
    assert (Hrow : length row = 2 * n_vars + 1).
    { rewrite forallb_forall in Erows.
      assert (Hr := Erows rows ltac:(apply list_elem_of_In; eapply list_elem_of_lookup_2;
                                     exact Eb)).
      rewrite forallb_forall in Hr.
      apply Nat.eqb_eq. apply Hr. apply list_elem_of_In.
      eapply list_elem_of_lookup_2. exact Et. }
    assert (Hc : c <= 2 * n_vars).
    { apply lookup_lt_Some in Hv. lia. }
    assert (Hb : b < length un).
    { apply lookup_lt_Some in Eb. lia. }
    destruct (lookup_lt_is_Some_2 un b Hb) as [u Hu].
    assert (Hlu' : length u = n_vars).
    { rewrite forallb_forall in Hun. apply Nat.eqb_eq. apply Hun.
      apply list_elem_of_In. eapply list_elem_of_lookup_2. exact Hu. }
    assert (HL : L !! b
                 = Some (imap (fun j o =>
                           o || negb (Qle_bool (default 0%Q (r.1 !! (b * n_vars + j)))
                                              (pretrain_dropout m))) u)).
    { unfold L. rewrite list_lookup_imap, Hu. reflexivity. }
    rewrite list_lookup_fmap, HL.
    cbn [fmap option_fmap option_map mbind option_bind].
    rewrite lookup_twice_and_flag by (rewrite length_imap; lia).
    rewrite length_imap, Hlu'.
    destruct (c =? 2 * n_vars); reflexivity.
Qed.

Lemma dropout_drops_whole_event_types_witness :
  exists out g',
    dropout (Further.dropout_model (1 # 2)) 1 1 Examples.zero_rng (Mat [[1]]%Q)
            [[[5; 1; 0]; [7; - (1); 1]]]%Q = Some (out, g') /\
    pos g' = 1 /\
    get3 out 0 0 0 = Some (5 * 0)%Q /\
    get3 out 0 1 1 = Some (- (1))%Q /\
    get3 out 0 1 2 = Some 1%Q.
Proof.
  destruct (dropout (Further.dropout_model (1 # 2)) 1 1 Examples.zero_rng (Mat [[1]]%Q)
              [[[5; 1; 0]; [7; - (1); 1]]]%Q) as [[out g']|] eqn:E;
    [|vm_compute in E; discriminate E].
  exists out, g'. split; [reflexivity|].
  destruct (proj2 (dropout_drops_whole_event_types _ _ _ _ _ _ _ _ E) eq_refl)
    as (Hp & _ & _).
  split; [exact Hp|].
  vm_compute in E. injection E as <- <-. repeat split.
Defined.

End FeatureDropout.

(** ** What the checkpoint hook changes *)

Section CheckpointHook.

Import Model CheckpointSpec.

Lemma dict_get_is_Some {V : Type} (d : list (string * V)) (k : string) :
  k ∈ map fst d -> is_Some (dict_get d k).
Proof.
  induction d as [|e d IH]; intros H.
  - apply elem_of_nil in H. contradiction.
  - rewrite dict_get_cons. cbn [map] in H.
    destruct (String.eqb_spec e.1 k) as [_|Hne]; [eexists; reflexivity|].
    apply elem_of_cons in H as [->|H]; [contradiction|]. exact (IH H).
Qed.

Lemma add_missing_flag_mono (l : list (string * param)) :
  forall acc : list (string * param) * bool,
  acc.2 = true -> (foldl add_missing acc l).2 = true.
Proof.
  induction l as [|e l IH]; intros acc H; [exact H|].
  cbn [foldl]. apply IH. unfold add_missing.
  destruct (dict_get acc.1 e.1); [exact H|reflexivity].
Qed.

Lemma add_missing_flag (l : list (string * param)) (k : string) :
  forall acc : list (string * param) * bool,
  k ∈ map fst l -> dict_get acc.1 k = None -> (foldl add_missing acc l).2 = true.
Proof.
  induction l as [|e l IH]; intros acc Hin Hk.
  - apply elem_of_nil in Hin. contradiction.
  - cbn [foldl]. cbn [map] in Hin.
    destruct (String.eqb_spec e.1 k) as [He|Hne].
    + apply add_missing_flag_mono. unfold add_missing. rewrite He, Hk. reflexivity.
    + apply elem_of_cons in Hin as [->|Hin]; [contradiction|].
      apply IH; [exact Hin|]. unfold add_missing.
      destruct (dict_get acc.1 e.1); [exact Hk|].
      cbn [fst]. rewrite dict_get_set.
      destruct (String.eqb_spec e.1 k); [contradiction|exact Hk].
Qed.

Lemma add_missing_same (l : list (string * param)) (sd : list (string * param)) :
  (forall e, e ∈ l -> is_Some (dict_get sd e.1)) ->
  foldl add_missing (sd, false) l = (sd, false).
Proof.
  induction l as [|e l IH]; intros H; [reflexivity|].
  cbn [foldl]. unfold add_missing at 2. cbn [fst].
  destruct (H e ltac:(left)) as [v ->].
  apply IH. intros e' He'. apply H. right. exact He'.
Qed.

Lemma check_key_flag_mono (msd : list (string * param))
    (acc : list (string * param) * list report * bool) (k : string) :
  acc.2 = true -> (check_key msd acc k).2 = true.
Proof.
  destruct acc as [[sd log] ch]. unfold check_key. cbn [snd]. intros ->.
  destruct (dict_get msd k); [destruct (dict_get sd k)|]; try reflexivity.
  destruct (_ && _); reflexivity.
Qed.

Lemma check_keys_flag_mono (msd : list (string * param)) (ks : list string) :
  forall acc : list (string * param) * list report * bool,
  acc.2 = true -> (foldl (check_key msd) acc ks).2 = true.
Proof.
  induction ks as [|k ks IH]; intros acc H; [exact H|].
  cbn [foldl]. apply IH, check_key_flag_mono, H.
Qed.

Lemma check_keys_flag (msd : list (string * param)) (k : string) (ks : list string) :
  forall acc : list (string * param) * list report * bool,
  k ∈ ks ->
  (dict_get msd k = None -> (foldl (check_key msd) acc ks).2 = true) /\
  (forall required loaded,
     dict_get msd k = Some required ->
     dict_get acc.1.1 k = Some loaded ->
     String.prefix "head" k && negb (shape_eqb (shape loaded) (shape required)) = true ->
     (foldl (check_key msd) acc ks).2 = true).
Proof.
  induction ks as [|k1 ks IH]; intros acc Hin.
  - apply elem_of_nil in Hin. contradiction.
  - cbn [foldl]. destruct (String.eqb_spec k1 k) as [->|Hk].
    + split.
      * intros Hm. apply check_keys_flag_mono.
        destruct acc as [[sd log] ch]. unfold check_key. rewrite Hm. reflexivity.
      * intros required loaded Hm Hl Hc. apply check_keys_flag_mono.
        destruct acc as [[sd log] ch]. unfold check_key. cbn [fst snd] in Hl.
        rewrite Hm, Hl, Hc. reflexivity.
    + apply elem_of_cons in Hin as [->|Hin]; [contradiction|].
      destruct (IH (check_key msd acc k1) Hin) as [Hd Hs]. split; [exact Hd|].
      intros required loaded Hm Hl Hc. apply (Hs required loaded Hm); [|exact Hc].
      rewrite check_key_get. destruct (String.eqb_spec k1 k); [contradiction|exact Hl].
Qed.

Lemma check_keys_same (msd sd : list (string * param)) (log : list report)
    (ks : list string) :
  (forall k, k ∈ ks ->
     exists required loaded,
       dict_get msd k = Some required /\ dict_get sd k = Some loaded /\
       String.prefix "head" k && negb (shape_eqb (shape loaded) (shape required)) = false) ->
  foldl (check_key msd) (sd, log, false) ks = (sd, log, false).
Proof.
  induction ks as [|k ks IH]; intros H; [reflexivity|].
  cbn [foldl]. unfold check_key at 2.
  destruct (H k ltac:(left)) as (required & loaded & -> & -> & ->).
  apply IH. intros k' Hk'. apply H. right. exact Hk'.
Qed.

Lemma shape_eqb_eq (a b : list nat) : shape_eqb a b = true <-> a = b.
Proof. unfold shape_eqb. apply bool_decide_eq_true. Qed.

(** X14.  A checkpoint that holds exactly the entries of the module, its
    head tensors in the module's shapes, goes through the hook untouched:
    state dictionary and optimizer states are as saved, and nothing is
    reported but the loading (and the freezing, if it is asked for). *)
Theorem matching_checkpoint_is_left_alone (ms : module_state) (ckpt : checkpoint) :
  (forall k v, dict_get (model_state_dict ms) k = Some v ->
               is_Some (dict_get (ckpt_state_dict ckpt) k)) ->
  (forall k loaded, dict_get (ckpt_state_dict ckpt) k = Some loaded ->
     exists required,
       dict_get (model_state_dict ms) k = Some required /\
       (String.prefix "head" k = true -> shape loaded = shape required)) ->
  (on_load_checkpoint ms ckpt).1.1 = ckpt /\
  (on_load_checkpoint ms ckpt).2
  = LoadingFromCheckpoint :: (if freeze_encoder ms then (freeze ms).2 else []).
Proof.
  intros H1 H2. unfold on_load_checkpoint.
  rewrite add_missing_same.
  - cbn [fst snd]. rewrite check_keys_same.
    + destruct ckpt as [sd os]. cbn [ckpt_state_dict optimizer_states].
      destruct (freeze_encoder ms); cbn [fst snd]; split; reflexivity.
    + intros k Hk. apply dict_get_is_Some in Hk. destruct Hk as [loaded Hl].
      destruct (H2 k loaded Hl) as (required & Hr & Hs).
      exists required, loaded. repeat apply conj; auto.
      destruct (String.prefix "head" k); [|reflexivity].
      rewrite (Hs eq_refl). unfold shape_eqb. rewrite bool_decide_eq_true_2; reflexivity.
  - intros e He.
    assert (Hk : is_Some (dict_get (model_state_dict ms) e.1)).
    { apply dict_get_is_Some. apply list_elem_of_fmap. exists e. auto. }
    destruct Hk as [v Hv]. exact (H1 e.1 v Hv).
Qed.

Lemma matching_checkpoint_is_left_alone_witness :
  (on_load_checkpoint Examples.current_module Further.own_checkpoint).1.1
    = Further.own_checkpoint /\
  (on_load_checkpoint Examples.current_module Further.own_checkpoint).2
    = [LoadingFromCheckpoint].
Proof.
  apply (matching_checkpoint_is_left_alone Examples.current_module Further.own_checkpoint).
  - intros k v. cbn [Examples.current_module Further.own_checkpoint model_state_dict
                     ckpt_state_dict].
    rewrite !dict_get_cons. cbn [fst snd].
    destruct (String.eqb "head.0.weight" k); [eexists; reflexivity|].
    destruct (String.eqb "tab_encoder.0.weight" k); [eexists; reflexivity|].
    discriminate.
  - intros k loaded. cbn [Examples.current_module Further.own_checkpoint model_state_dict
                          ckpt_state_dict].
    rewrite !dict_get_cons. cbn [fst snd].
    destruct (String.eqb "head.0.weight" k).
    + intros [= <-]. eexists. split; [reflexivity|reflexivity].
    + destruct (String.eqb_spec "tab_encoder.0.weight" k) as [<-|_]; [|discriminate].
      intros [= <-]. eexists. split; [reflexivity|]. discriminate.
Defined.

(** X15.  Any adjustment costs the optimizer states: the hook removes
    them from the checkpoint as soon as the checkpoint lacks an entry of
    the module, holds an entry that the module does not have, or holds a
    head tensor of another shape. *)
Theorem any_adjustment_discards_the_optimizer_states (ms : module_state)
    (ckpt : checkpoint) (k : string) :
  (forall v, dict_get (model_state_dict ms) k = Some v ->
             dict_get (ckpt_state_dict ckpt) k = None ->
             optimizer_states (on_load_checkpoint ms ckpt).1.1 = None) /\
  (forall v, dict_get (ckpt_state_dict ckpt) k = Some v ->
             dict_get (model_state_dict ms) k = None ->
             optimizer_states (on_load_checkpoint ms ckpt).1.1 = None) /\
  (forall required loaded,
     dict_get (model_state_dict ms) k = Some required ->
     dict_get (ckpt_state_dict ckpt) k = Some loaded ->
     String.prefix "head" k = true ->
     shape loaded <> shape required ->
     optimizer_states (on_load_checkpoint ms ckpt).1.1 = None).
Proof.
  assert (Hflag : forall sd log ch,
            foldl (check_key (model_state_dict ms))
                  ((foldl add_missing (ckpt_state_dict ckpt, false) (model_state_dict ms)).1,
                   [LoadingFromCheckpoint],
                   (foldl add_missing (ckpt_state_dict ckpt, false) (model_state_dict ms)).2)
                  (map fst (foldl add_missing (ckpt_state_dict ckpt, false)
                                  (model_state_dict ms)).1) = (sd, log, ch) ->
            ch = true ->
            optimizer_states (on_load_checkpoint ms ckpt).1.1 = None).
  { intros sd log ch E ->. unfold on_load_checkpoint. rewrite E.
    destruct (freeze_encoder ms); reflexivity. }
  set (msd := model_state_dict ms) in *.
  set (s1 := foldl add_missing (ckpt_state_dict ckpt, false) msd) in *.
  destruct (foldl (check_key msd) (s1.1, [LoadingFromCheckpoint], s1.2) (map fst s1.1))
    as [[sd log] ch] eqn:E.
  assert (Hch : ch = (foldl (check_key msd) (s1.1, [LoadingFromCheckpoint], s1.2)
                            (map fst s1.1)).2) by (rewrite E; reflexivity).
  repeat apply conj.
  - intros v Hm Hc. apply (Hflag sd log ch eq_refl). rewrite Hch.
    apply check_keys_flag_mono. cbn [snd]. unfold s1.
    apply (add_missing_flag msd k); [|exact Hc].
    eapply dict_get_keys. exact Hm.
  - intros v Hc Hm. apply (Hflag sd log ch eq_refl). rewrite Hch.
    assert (Hs1 : dict_get s1.1 k = Some v).
    { unfold s1. rewrite add_missing_get. cbn [fst]. rewrite Hc. reflexivity. }
    apply (proj1 (check_keys_flag msd k (map fst s1.1)
                    (s1.1, [LoadingFromCheckpoint], s1.2) (dict_get_keys _ _ _ Hs1)) Hm).
  - intros required loaded Hm Hc Hp Hs. apply (Hflag sd log ch eq_refl). rewrite Hch.
    assert (Hs1 : dict_get s1.1 k = Some loaded).
    { unfold s1. rewrite add_missing_get. cbn [fst]. rewrite Hc. reflexivity. }
    apply (proj2 (check_keys_flag msd k (map fst s1.1)
                    (s1.1, [LoadingFromCheckpoint], s1.2) (dict_get_keys _ _ _ Hs1))
                 required loaded Hm Hs1).
    rewrite Hp. cbn [andb]. apply negb_true_iff. apply not_true_is_false.
    intros Heq. apply Hs. apply shape_eqb_eq. exact Heq.
Qed.

Lemma any_adjustment_discards_the_optimizer_states_witness :
  optimizer_states Examples.old_checkpoint = Some [] /\
  optimizer_states (on_load_checkpoint Examples.current_module Examples.old_checkpoint).1.1
    = None.
Proof.
  split; [reflexivity|].
  apply (proj1 (proj2 (any_adjustment_discards_the_optimizer_states
                         Examples.current_module Examples.old_checkpoint
                         "old_layer.weight"))
               {| shape := [1]; values := [9%Q] |}); reflexivity.
Defined.

(** X16.  The hook never writes into the module's weights: it only
    edits the checkpoint.  Of the module it changes nothing at all unless
    [freeze_encoder] is set, and then only the [requires_grad] flags: the
    parameters keep their names and order, those whose name contains
    "head" keep their flag, all others are switched off. *)
Theorem hook_edits_only_the_checkpoint (ms : module_state) (ckpt : checkpoint) :
  let ms' := (on_load_checkpoint ms ckpt).1.2 in
  model_state_dict ms' = model_state_dict ms /\
  freeze_encoder ms' = freeze_encoder ms /\
  (freeze_encoder ms = false -> ms' = ms) /\
  map fst (requires_grad ms') = map fst (requires_grad ms) /\
  (freeze_encoder ms = true ->
   forall i n g, requires_grad ms !! i = Some (n, g) ->
     requires_grad ms' !! i = Some (n, if contains "head" n then g else false)).
Proof.
  unfold on_load_checkpoint.
  destruct (foldl (check_key _) _ _) as [[sd log] ch].
  destruct (freeze_encoder ms) eqn:Ef; cbn [fst snd freeze model_state_dict freeze_encoder
                                            requires_grad].
  - repeat apply conj; auto; try discriminate.
    + rewrite <- list_fmap_compose. apply list_fmap_ext. intros i e _.
      cbn. destruct (contains "head" e.1); reflexivity.
    + intros _ i n g Hi. rewrite list_lookup_fmap, Hi.
      cbn [fmap option_fmap option_map fst]. destruct (contains "head" n); reflexivity.
  - repeat apply conj; auto; discriminate.
Qed.

Lemma hook_edits_only_the_checkpoint_witness :
  let ms' := (on_load_checkpoint Further.frozen_module Further.own_checkpoint).1.2 in
  model_state_dict ms' = model_state_dict Further.frozen_module /\
  requires_grad ms' !! 0 = Some ("head.0.weight", true) /\
  requires_grad ms' !! 1 = Some ("tab_encoder.0.weight", false) /\
  requires_grad ms' !! 2 = Some ("full_time_embedding.0.bias", false).
Proof.
  destruct (hook_edits_only_the_checkpoint Further.frozen_module Further.own_checkpoint)
    as (H1 & _ & _ & _ & H5).
  split; [exact H1|].
  split; [exact (H5 eq_refl 0 "head.0.weight" true eq_refl)|].
  split; [exact (H5 eq_refl 1 "tab_encoder.0.weight" true eq_refl)|].
  exact (H5 eq_refl 2 "full_time_embedding.0.bias" true eq_refl).
Defined.

(** X17.  The state dictionary that the hook leaves in the checkpoint,
    entry by entry: a saved entry stays, whether the module knows its
    key or not, unless it is a head tensor of another shape than the
    module's, which the module's tensor replaces; a key that only the
    module has is filled in from the module. *)
Theorem hook_state_dict_entry_by_entry (ms : module_state) (ckpt : checkpoint) (k : string) :
  dict_get (ckpt_state_dict (on_load_checkpoint ms ckpt).1.1) k
  = match dict_get (ckpt_state_dict ckpt) k, dict_get (model_state_dict ms) k with
    | Some loaded, Some required =>
      if String.prefix "head" k && negb (shape_eqb (shape loaded) (shape required))
      then Some required else Some loaded
    | Some loaded, None => Some loaded
    | None, o => o
    end.
Proof.
  rewrite on_load_checkpoint_state_dict. unfold resolve.
  destruct (dict_get (ckpt_state_dict ckpt) k) as [loaded|];
    destruct (dict_get (model_state_dict ms) k) as [required|]; try reflexivity.
  unfold shape_eqb. rewrite bool_decide_eq_true_2 by reflexivity.
  rewrite andb_false_r. reflexivity.
Qed.

End CheckpointHook.

(** ** Masking one bin of a record *)

Section BinMasking.

Import Torch Model.

(** X18.  With a single masked step, a record of at least two real bins
    has one of its real bins masked, drawn by the generator.  The targets
    are read from the batch as it came in; in the copy that goes to the
    model the masked bin is zero everywhere but for its flag, which is 1,
    and every other bin is as it was.  When events are predicted a second
    draw picks an event type, whose value is set to 0 and whose count is
    set to [-1] in every bin of the record, the masked one included. *)
Theorem single_step_masks_one_real_bin (m : t) (xs : tensor3) (n_vars : nat)
    (st st' : prep) (b n : nat) (rows crows : list (list Q)) :
  prep_record m xs n_vars st (b, n) = Some st' ->
  2 <= n ->
  pretrain_masked_steps m <= 1 ->
  xs !! b = Some rows ->
  xs_ts_clipped st !! b = Some crows ->
  let i := draws (gen st) (pos (gen st)) mod n in
  let ev := draws (gen st) (S (pos (gen st))) mod d_time_series_num m in
  i < n /\
  (exists r, rows !! i = Some r /\
     y_ts st' = y_ts st ++ [One (take n_vars r)] /\
     y_ts_n_obs st' = y_ts_n_obs st ++ [One (take n_vars (drop n_vars r))]) /\
  pos (gen st') = pos (gen st) + (if predict_events m then 2 else 1) /\
  exists crows',
    xs_ts_clipped st' !! b = Some crows' /\
    length crows' = length crows /\
    forall t c r v, crows !! t = Some r -> r !! c = Some v ->
      (r' ← crows' !! t; r' !! c)
      = Some (if predict_events m && (c =? ev + n_vars) then (- (1))%Q
              else if predict_events m && (c =? ev) then 0%Q
              else if t =? i then (if c =? length r - 1 then 1%Q else 0%Q)
              else v).
Proof.
  intros H Hn Hk Hrows Hcrows i ev.
  assert (Hi : i < n) by (apply Nat.mod_upper_bound; lia).
  assert (Hsel : select_mask (pretrain_masked_steps m) (gen st) n
                 = Some (Int i, (next (gen st)).2)).
  { unfold select_mask, choice.
    destruct (n <? 2) eqn:E1; [apply Nat.ltb_lt in E1; lia|].
    destruct (1 <? pretrain_masked_steps m) eqn:E2; [apply Nat.ltb_lt in E2; lia|].
    destruct (n =? 0) eqn:E3; [apply Nat.eqb_eq in E3; lia|]. reflexivity. }
  destruct (prep_record_index m xs n_vars st st' b n i _ rows crows Hsel H Hrows Hcrows)
    as (Hy & Hp & Hc).
  cbn [next snd pos draws] in Hp, Hc.
  split; [exact Hi|]. split; [exact Hy|]. split; [|exact Hc].
  rewrite Hp. destruct (predict_events m); lia.
Qed.

Lemma single_step_masks_one_real_bin_witness :
  exists st',
    prep_record (Examples.model 1 "masked_embed" true) (xs_feats Examples.masked_batch) 1
      {| y_ts := []; y_ts_n_obs := []; y_events := []; y_events_mask := [];
         xs_ts_clipped := xs_feats Examples.masked_batch; gen := Examples.zero_rng |}
      (1, 2) = Some st' /\
    y_ts st' = [One [0%Q]] /\
    xs_ts_clipped st' !! 1 = Some [[0; - (1); 1]; [0; - (1); 0]]%Q.
Proof.
  destruct (prep_record (Examples.model 1 "masked_embed" true)
              (xs_feats Examples.masked_batch) 1
              {| y_ts := []; y_ts_n_obs := []; y_events := []; y_events_mask := [];
                 xs_ts_clipped := xs_feats Examples.masked_batch;
                 gen := Examples.zero_rng |} (1, 2)) as [st'|] eqn:E;
    [|vm_compute in E; discriminate E].
  exists st'. split; [reflexivity|].
  destruct (single_step_masks_one_real_bin _ _ _ _ _ _ _
              [[0; 0; 1]; [8; 3; 0]]%Q [[0; 0; 1]; [8; 3; 0]]%Q E)
    as (_ & (r & Hr & Hy & _) & _); [lia|cbn; lia|reflexivity|reflexivity|].
  split.
  - rewrite Hy. vm_compute in Hr. injection Hr as <-. reflexivity.
  - vm_compute in E. injection E as <-. reflexivity.
Defined.

End BinMasking.

(** ** The learning-rate schedule *)

Section Schedule.

Import Torch WarmUpCallback ScheduleSpec.

Variable fl : Q -> Q.
Variable pow_half : Q -> Q.

Lemma set_lr_set_lr (o : optimizer) (x y : Q) : set_lr (set_lr o x) y = set_lr o y.
Proof. unfold set_lr. rewrite <- list_fmap_compose. reflexivity. Qed.

Lemma reached_init (w : nat) (d : option nat) (inv : bool) (o : optimizer) (b : Q) :
  head o = Some b ->
  reached w (default w d) inv o b 0 (init w None inv d, Single o).
Proof.
  intros Hb. exists o. cbn. unfold infer_base, first_lr. cbn. rewrite Hb.
  repeat apply conj; auto.
Qed.

Lemma warm_step (w dec : nat) (inv : bool) (o : optimizer) (b : Q) (k : nat)
    (r : t * optimizers) :
  reached w dec inv o b k r -> k < w ->
  exists r',
    on_train_batch_start fl pow_half r.1 r.2 = Some r' /\
    reached w dec inv o b (S k) r' /\
    r'.2 = Single (set_lr o (fl (fl (of_nat k / of_nat w) * b))) /\
    base_lr (state r'.1) = Some (Scalar b).
Proof.
  intros (o' & Ho & Hs & Hw & Hd & Hi & Hb & Hset) Hk.
  unfold on_train_batch_start. rewrite Ho, Hs, Hw, Hb.
  apply Nat.ltb_lt in Hk. rewrite Hk. cbn [mbind option_bind set_all].
  unfold warmup_lr. rewrite Hs, Hw.
  destruct (w =? 0) eqn:Ew; [apply Nat.eqb_eq in Ew; apply Nat.ltb_lt in Hk; lia|].
  cbn [mbind option_bind]. eexists. split; [reflexivity|].
  cbn [fst snd]. rewrite Hset. split; [|split; reflexivity].
  eexists. cbn [fst snd advance load_state_dict state steps warmup_steps decay invsqrt].
  unfold infer_base. cbn [state base_lr].
  repeat apply conj; auto. intros x. apply set_lr_set_lr.
Qed.

Lemma decay_step (w dec : nat) (o : optimizer) (b : Q) (k : nat) (r : t * optimizers) :
  reached w dec true o b k r -> w <= k -> k - w + dec <> 0 ->
  exists r',
    on_train_batch_start fl pow_half r.1 r.2 = Some r' /\
    reached w dec true o b (S k) r' /\
    r'.2 = Single (set_lr o (fl (b * pow_half (fl (of_nat dec / of_nat (k - w + dec)))))) /\
    base_lr (state r'.1) = Some (Scalar b).
Proof.
  intros (o' & Ho & Hs & Hw & Hd & Hi & Hb & Hset) Hk Hden.
  unfold on_train_batch_start. rewrite Ho, Hs, Hw, Hb, Hi.
  destruct (k <? w) eqn:Ek; [apply Nat.ltb_lt in Ek; lia|].
  cbn [mbind option_bind set_all]. unfold decayed_lr. rewrite Hs, Hw, Hd.
  cbv zeta. destruct (k - w + dec =? 0) eqn:Ed; [apply Nat.eqb_eq in Ed; lia|].
  cbn [mbind option_bind]. eexists. split; [reflexivity|].
  cbn [fst snd]. rewrite Hset. split; [|split; reflexivity].
  eexists. cbn [fst snd advance load_state_dict state steps warmup_steps decay invsqrt].
  unfold infer_base. cbn [state base_lr].
  repeat apply conj; auto. intros x. apply set_lr_set_lr.
Qed.

Lemma rest_step (w dec : nat) (o : optimizer) (b : Q) (k : nat) (r : t * optimizers) :
  reached w dec false o b k r -> w <= k ->
  on_train_batch_start fl pow_half r.1 r.2 = Some r.
Proof.
  intros (o' & Ho & Hs & Hw & Hd & Hi & Hb & Hset) Hk.
  unfold on_train_batch_start. rewrite Hs, Hw, Hi.
  destruct (k <? w) eqn:Ek; [apply Nat.ltb_lt in Ek; lia|].
  destruct r; reflexivity.
Qed.

Lemma run_warmup (w : nat) (d : option nat) (inv : bool) (o : optimizer) (b : Q) (k : nat) :
  head o = Some b -> k < w ->
  exists r,
    run fl pow_half (S k) (init w None inv d) (Single o) = Some r /\
    reached w (default w d) inv o b (S k) r /\
    r.2 = Single (set_lr o (fl (fl (of_nat k / of_nat w) * b))) /\
    base_lr (state r.1) = Some (Scalar b).
Proof.
  intros Hb. induction k as [|k IH]; intros Hk.
  - cbn [run mbind option_bind].
    destruct (warm_step w (default w d) inv o b 0 _ (reached_init w d inv o b Hb) Hk)
      as (r' & H1 & H2 & H3 & H4).
    exists r'. auto.
  - destruct (IH ltac:(lia)) as (r & Hr & Hreach & _).
    change (run fl pow_half (S (S k)) (init w None inv d) (Single o))
      with (r ← run fl pow_half (S k) (init w None inv d) (Single o);
            on_train_batch_start fl pow_half r.1 r.2).
    rewrite Hr. cbn [mbind option_bind].
    destruct (warm_step w (default w d) inv o b (S k) r Hreach Hk)
      as (r' & H1 & H2 & H3 & H4).
    exists r'. auto.
Qed.

Lemma run_reaches_warmup_end (w : nat) (d : option nat) (inv : bool) (o : optimizer)
    (b : Q) :
  head o = Some b ->
  exists r,
    run fl pow_half w (init w None inv d) (Single o) = Some r /\
    reached w (default w d) inv o b w r.
Proof.
  intros Hb. destruct w as [|w].
  - eexists. split; [reflexivity|]. apply reached_init. exact Hb.
  - destruct (run_warmup (S w) d inv o b w Hb ltac:(lia)) as (r & Hr & Hreach & _).
    exists r. auto.
Qed.

(** X19.  During the warm-up the rate rises linearly from zero.  With one
    optimizer and no base rate given, the base is the rate that the
    optimizer has before the first batch, read once; batch number [k + 1]
    of the first [warmup_steps] batches runs at [k / warmup_steps] times
    the base, in every parameter group, and the counter is then
    [k + 1].  The first batch runs at [0 / warmup_steps] times the
    base. *)
Theorem warmup_ramps_linearly (w : nat) (d : option nat) (inv : bool) (o : optimizer)
    (b : Q) (k : nat) :
  head o = Some b ->
  k < w ->
  exists cb,
    run fl pow_half (S k) (init w None inv d) (Single o)
    = Some (cb, Single (set_lr o (fl (fl (of_nat k / of_nat w) * b)))) /\
    steps (state cb) = S k /\
    base_lr (state cb) = Some (Scalar b) /\
    warmup_steps cb = w /\ decay cb = default w d /\ invsqrt cb = inv.
Proof.
  intros Hb Hk.
  destruct (run_warmup w d inv o b k Hb Hk)
    as ([cb opts] & Hr & (o' & _ & Hs & Hw & Hd & Hi & _) & Ho & Hbase).
  cbn [fst snd] in *. subst opts. exists cb. auto 10.
Qed.

(** X20.  Without the inverse square root the schedule stops at the end
    of the warm-up and never restores the base rate: from batch
    [warmup_steps] on, the counter stays at [warmup_steps] and the rate
    at [(warmup_steps - 1) / warmup_steps] times the base, which in exact
    arithmetic is below a positive base. *)
Theorem without_invsqrt_the_rate_stays_below_base (w : nat) (d : option nat)
    (o : optimizer) (b : Q) (k : nat) :
  head o = Some b ->
  1 <= w -> w <= k ->
  (exists cb,
     run fl pow_half k (init w None false d) (Single o)
     = Some (cb, Single (set_lr o (fl (fl (of_nat (w - 1) / of_nat w) * b)))) /\
     steps (state cb) = w) /\
  ((0 < b)%Q -> (of_nat (w - 1) / of_nat w * b < b)%Q).
Proof.
  intros Hb Hw Hk. split.
  - destruct (run_warmup w d false o b (w - 1) Hb ltac:(lia))
      as (r & Hr & Hreach & Ho & _).
    replace (S (w - 1)) with w in Hr, Hreach by lia.
    assert (Hrun : run fl pow_half k (init w None false d) (Single o) = Some r).
    { induction k as [|k IH]; [lia|].
      destruct (decide (w = S k)) as [<-|Hne]; [exact Hr|].
      cbn [run]. rewrite IH by lia. cbn [mbind option_bind].
      apply (rest_step w (default w d) o b w r Hreach). lia. }
    destruct r as [cb opts]. cbn [fst snd] in *. subst opts.
    exists cb. split; [exact Hrun|].
    destruct Hreach as (o' & _ & Hs & _). exact Hs.
  - intros Hpos.
    assert (Hw0 : (0 < of_nat w)%Q).
    { unfold of_nat. change 0%Q with (inject_Z 0). rewrite <- Zlt_Qlt. lia. }
    assert (Hlt : (of_nat (w - 1) < of_nat w)%Q).
    { unfold of_nat. rewrite <- Zlt_Qlt. lia. }
    assert (Hfrac : (of_nat (w - 1) / of_nat w < 1)%Q).
    { apply Qlt_shift_div_r; [exact Hw0|]. rewrite Qmult_1_l. exact Hlt. }
    apply Qlt_le_trans with (1 * b)%Q.
    + apply Qmult_lt_compat_r; assumption.
    + rewrite Qmult_1_l. apply Qle_refl.
Qed.

(** X21.  With the inverse square root and a positive decay, batch
    number [k + 1] after the warm-up runs at the base rate times
    [(decay / (k - warmup_steps + decay)) ** 0.5], and the counter keeps
    counting.  The first such batch has the factor [(decay / decay) **
    0.5]: in exact arithmetic, with a power that sends 1 to 1, it runs at
    the base rate. *)
Theorem after_warmup_the_rate_decays (w : nat) (d : option nat) (o : optimizer)
    (b : Q) (k : nat) :
  head o = Some b ->
  0 < default w d ->
  w <= k ->
  (exists cb,
     run fl pow_half (S k) (init w None true d) (Single o)
     = Some (cb, Single (set_lr o
               (fl (b * pow_half (fl (of_nat (default w d)
                                      / of_nat (k - w + default w d))))))) /\
     steps (state cb) = S k /\
     base_lr (state cb) = Some (Scalar b)) /\
  ((forall q, fl q = q) -> (forall q, (q == 1)%Q -> (pow_half q == 1)%Q) ->
   (fl (b * pow_half (fl (of_nat (default w d) / of_nat (w - w + default w d)))) == b)%Q).
Proof.
  intros Hb Hd Hk. split.
  - assert (Hrun : exists r,
              run fl pow_half (S k) (init w None true d) (Single o) = Some r /\
              reached w (default w d) true o b (S k) r /\
              r.2 = Single (set_lr o
                      (fl (b * pow_half (fl (of_nat (default w d)
                                             / of_nat (k - w + default w d)))))) /\
              base_lr (state r.1) = Some (Scalar b)).
    { induction k as [|k IH].
      - assert (w = 0) by lia. subst w.
        destruct (run_reaches_warmup_end 0 d true o b Hb) as (r & Hr & Hreach).
        cbn [run] in Hr |- *. injection Hr as <-. cbn [mbind option_bind].
        destruct (decay_step 0 (default 0 d) o b 0 _ Hreach ltac:(lia) ltac:(lia))
          as (r' & H1 & H2 & H3 & H4).
        exists r'. auto.
      - change (run fl pow_half (S (S k)) (init w None true d) (Single o))
          with (r ← run fl pow_half (S k) (init w None true d) (Single o);
                on_train_batch_start fl pow_half r.1 r.2).
        destruct (decide (w = S k)) as [Hw|Hne].
        + destruct (run_reaches_warmup_end w d true o b Hb) as (r & Hr & Hreach).
          rewrite <- Hw. rewrite Hr. cbn [mbind option_bind].
          destruct (decay_step w (default w d) o b w r Hreach ltac:(lia) ltac:(lia))
            as (r' & H1 & H2 & H3 & H4).
          exists r'. auto.
        + destruct (IH ltac:(lia)) as (r & Hr & Hreach & _).
          rewrite Hr. cbn [mbind option_bind].
          destruct (decay_step w (default w d) o b (S k) r Hreach ltac:(lia) ltac:(lia))
            as (r' & H1 & H2 & H3 & H4).
          exists r'. auto. }
    destruct Hrun as ([cb opts] & Hr & (o' & _ & Hs & _) & Ho & Hbase).
    cbn [fst snd] in *. subst opts. exists cb. auto.
  - intros Hfl Hpow. rewrite !Hfl, Nat.sub_diag, Nat.add_0_l.
    rewrite Hpow; [ring|].
    assert (Hne : ~ (of_nat (default w d) == 0)%Q).
    { unfold of_nat, Qeq. cbn. lia. }
    unfold Qdiv. apply Qmult_inv_r. exact Hne.
Qed.

(** X22.  A decay of zero makes the schedule raise as soon as the
    warm-up is over: the factor is then [0 / 0].  The warm-up itself goes
    through.  With the defaults of the constructor and no warm-up,
    [WarmUpCallback(steps=0)], the decay is zero and the very first batch
    raises. *)
Theorem zero_decay_raises_after_the_warmup (w : nat) (o : optimizer) (b : Q) :
  head o = Some b ->
  is_Some (run fl pow_half w (init w None true (Some 0)) (Single o)) /\
  run fl pow_half (S w) (init w None true (Some 0)) (Single o) = None /\
  forall lr o', on_train_batch_start fl pow_half (init 0 lr true None) (Single o') = None.
Proof.
  intros Hb.
  destruct (run_reaches_warmup_end w (Some 0) true o b Hb) as (r & Hr & Hreach).
  split; [rewrite Hr; eexists; reflexivity|]. split.
  - cbn [run]. rewrite Hr. cbn [mbind option_bind].
    destruct Hreach as (o' & Ho & Hs & Hw & Hd & Hi & Hbase & _).
    unfold on_train_batch_start. rewrite Ho, Hs, Hw, Hi, Hbase.
    rewrite Nat.ltb_irrefl. cbn [mbind option_bind set_all].
    unfold decayed_lr. rewrite Hs, Hw, Hd. cbn [default].
    rewrite Nat.sub_diag. reflexivity.
  - intros lr o'. unfold on_train_batch_start, init, infer_base.
    cbn [state steps warmup_steps invsqrt base_lr fmap option_fmap option_map].
    cbn [Nat.ltb Nat.leb].
    destruct lr as [q|]; cbn [mbind option_bind set_all option_map].
    + reflexivity.
    + destruct (first_lr o'); reflexivity.
Qed.

(** X23.  A base rate given to the constructor is a float; with a list
    of optimizers the loop over [zip(optimizers, base_lr)] cannot iterate
    over it, and the first batch that the schedule handles raises. *)
Theorem float_base_with_a_list_of_optimizers_raises (w : nat) (lr : Q) (inv : bool)
    (d : option nat) (l : list optimizer) :
  0 < w \/ inv = true ->
  on_train_batch_start fl pow_half (init w (Some lr) inv d) (Several l) = None.
Proof.
  intros H. unfold on_train_batch_start, init, infer_base.
  cbn [state steps warmup_steps invsqrt base_lr fmap option_fmap option_map].
  destruct (0 <? w) eqn:Ew; [reflexivity|].
  destruct H as [H| ->]; [apply Nat.ltb_lt in H; congruence|reflexivity].
Qed.

End Schedule.

Section ScheduleRuns.

Import Torch WarmUpCallback ScheduleSpec.


Lemma warmup_ramps_linearly_witness :
  exists cb,
    run exact sqrt 3 (init 4 None true None) (Single [1 # 10; 1 # 5])
    = Some (cb, Single [exact (exact (of_nat 2 / of_nat 4) * (1 # 10));
                        exact (exact (of_nat 2 / of_nat 4) * (1 # 10))]) /\
    steps (state cb) = 3 /\ base_lr (state cb) = Some (Scalar (1 # 10)).
Proof.
  destruct (warmup_ramps_linearly exact sqrt 4 None true [1 # 10; 1 # 5] (1 # 10) 2
              eq_refl ltac:(lia)) as (cb & H1 & H2 & H3 & _).
  exists cb. auto.
Defined.

Lemma without_invsqrt_the_rate_stays_below_base_witness :
  exists cb,
    run exact sqrt 10 (init 4 None false None) (Single [1 # 10])
    = Some (cb, Single [exact (exact (of_nat 3 / of_nat 4) * (1 # 10))]) /\
    steps (state cb) = 4 /\
    (of_nat 3 / of_nat 4 * (1 # 10) < 1 # 10)%Q.
Proof.
  destruct (without_invsqrt_the_rate_stays_below_base exact sqrt 4 None [1 # 10] (1 # 10) 10
              eq_refl ltac:(lia) ltac:(lia)) as ((cb & H1 & H2) & H3).
  exists cb. split; [exact H1|]. split; [exact H2|]. apply H3. reflexivity.
Defined.

Lemma after_warmup_the_rate_decays_witness :
  exists cb,
    run exact sqrt 8 (init 4 None true None) (Single [1 # 10])
    = Some (cb, Single [exact ((1 # 10) * sqrt (exact (of_nat 4 / of_nat (7 - 4 + 4))))]) /\
    steps (state cb) = 8.
Proof.
  destruct (after_warmup_the_rate_decays exact sqrt 4 None [1 # 10] (1 # 10) 7
              eq_refl ltac:(cbn; lia) ltac:(lia)) as ((cb & H1 & H2 & _) & _).
  exists cb. auto.
Defined.

Lemma zero_decay_raises_after_the_warmup_witness :
  is_Some (run exact sqrt 3 (init 3 None true (Some 0)) (Single [1 # 10])) /\
  run exact sqrt 4 (init 3 None true (Some 0)) (Single [1 # 10]) = None.
Proof.
  destruct (zero_decay_raises_after_the_warmup exact sqrt 3 [1 # 10] (1 # 10) eq_refl)
    as (H1 & H2 & _).
  split; [exact H1|exact H2].
Defined.

Lemma float_base_with_a_list_of_optimizers_raises_witness :
  on_train_batch_start exact sqrt (init 1000 (Some (3 # 10000)) true None)
    (Several [[3 # 10000]; [1 # 1000]]) = None.
Proof.
  apply float_base_with_a_list_of_optimizers_raises. left. lia.
Defined.

End ScheduleRuns.

(** ** Averaging models *)

Section Averaging.

Import Torch Model AverageModels AverageSpec.

Variable tensor_add : param -> param -> option param.
Variable tensor_div : param -> nat -> param.
Variable copy_ : param -> param -> list Q.

Lemma foldlM_sum_needs_key (k : string) (rest : list state_dict) :
  forall (acc r : param),
  foldlM (fun acc sd => t ← dict_get sd k; tensor_add acc t) rest acc = Some r ->
  forall sd, sd ∈ rest -> is_Some (dict_get sd k).
Proof.
  induction rest as [|sd' rest IH]; intros acc r H sd Hin.
  - apply elem_of_nil in Hin. contradiction.
  - cbn [foldlM] in H.
    destruct (dict_get sd' k) as [t|] eqn:Et; cbn [mbind option_bind] in H; [|discriminate].
    destruct (tensor_add acc t) as [acc'|]; cbn [mbind option_bind] in H; [|discriminate].
    apply elem_of_cons in Hin as [->|Hin].
    + rewrite Et. eexists. reflexivity.
    + exact (IH acc' r H sd Hin).
Qed.

Lemma foldlM_keys_succeed {A B : Type} (f : string -> option A) (g : A -> B)
    (ks : list string) :
  forall av av' : list (string * B),
  foldlM (fun av k => s ← f k; Some (dict_set av k (g s))) ks av = Some av' ->
  forall k, k ∈ ks -> is_Some (f k).
Proof.
  induction ks as [|k1 ks IH]; intros av av' H k Hin.
  - apply elem_of_nil in Hin. contradiction.
  - cbn [foldlM] in H.
    destruct (f k1) as [s|] eqn:Ef; cbn [mbind option_bind] in H; [|discriminate].
    apply elem_of_cons in Hin as [->|Hin].
    + rewrite Ef. eexists. reflexivity.
    + exact (IH _ av' H k Hin).
Qed.

Lemma load_state_dict_entries (own new m0 : state_dict) :
  load_state_dict copy_ own new = Some m0 ->
  Forall2 (fun e0 e => e.1 = e0.1 /\ shape e.2 = shape e0.2 /\
                       exists p p', dict_get new e0.1 = Some p
                                    /\ first_entry e0.2 p = Some p'
                                    /\ shape p' = shape e0.2
                                    /\ values e.2 = copy_ e0.2 p') own m0.
Proof.
  unfold load_state_dict. destruct (forallb _ new); [|discriminate].
  intros H. apply mapM_Some in H.
  eapply Forall2_impl; [exact H|]. intros e0 e He. cbv beta in He.
  destruct (dict_get new e0.1) as [p|]; cbn [mbind option_bind] in He; [|discriminate].
  destruct (first_entry e0.2 p) as [p'|] eqn:Ep; cbn [mbind option_bind] in He;
    [|discriminate].
  destruct (shape_eqb (shape p') (shape e0.2)) eqn:Es; [|discriminate].
  injection He as <-. cbn [fst snd shape values].
  unfold shape_eqb in Es. apply bool_decide_eq_true in Es.
  split; [reflexivity|]. split; [reflexivity|]. exists p, p'. auto.
Qed.

(** X24.  When [average_models] returns, the first model has been
    overwritten and is the one returned, the other models are as they
    were; the first model keeps its keys, their order and the shapes of
    its tensors; and every other model holds every key of the first one,
    for a key that one of them lacks makes the call raise, as does an
    empty list of models. *)
Theorem average_keeps_the_layout_of_the_first_model (models after : list state_dict) :
  average_models tensor_add tensor_div copy_ models = Some after ->
  exists sd0 rest m0,
    models = sd0 :: rest /\ after = m0 :: rest /\
    map fst m0 = map fst sd0 /\
    Forall2 (fun e0 e => shape e.2 = shape e0.2) sd0 m0 /\
    forall sd k, sd ∈ rest -> k ∈ map fst sd0 -> is_Some (dict_get sd k).
Proof.
  intros H. destruct models as [|sd0 rest]; [discriminate H|].
  unfold average_models in H. cbv zeta in H.
  destruct (foldlM _ (map fst sd0) []) as [averaged|] eqn:Ea;
    cbn [mbind option_bind] in H; [|discriminate].
  destruct (load_state_dict copy_ sd0 averaged) as [m0|] eqn:El;
    cbn [mbind option_bind] in H; [|discriminate].
  injection H as <-. exists sd0, rest, m0.
  pose proof (load_state_dict_entries _ _ _ El) as Hent.
  repeat apply conj; auto.
  - clear - Hent. induction Hent as [|e0 e own m0 (He & _) _ IH]; [reflexivity|].
    cbn [map]. f_equal; auto.
  - eapply Forall2_impl; [exact Hent|]. intros e0 e (_ & Hs & _). exact Hs.
  - intros sd k Hsd Hk.
    destruct (foldlM_keys_succeed (sum_key tensor_add sd0 rest)
                (fun s => tensor_div s (length (sd0 :: rest))) _ _ _ Ea k Hk) as [s Hs].
    unfold sum_key in Hs.
    destruct (dict_get sd0 k) as [p0|]; cbn [mbind option_bind] in Hs; [|discriminate].
    exact (foldlM_sum_needs_key k rest p0 s Hs sd Hsd).
Qed.

End Averaging.

Section AveragingRuns.

Import Torch Model AverageModels AverageSpec.

Lemma average_keeps_the_layout_of_the_first_model_witness :
  exists after m0,
    average_models (add_same_shape float32) (div_float float32) copy_float
      [model_state_dict Examples.current_module;
       ckpt_state_dict Further.own_checkpoint] = Some after /\
    after = [m0; ckpt_state_dict Further.own_checkpoint] /\
    map fst m0 = ["head.0.weight"; "tab_encoder.0.weight"].
Proof.
  destruct (average_models (add_same_shape float32) (div_float float32) copy_float
              [model_state_dict Examples.current_module;
               ckpt_state_dict Further.own_checkpoint]) as [after|] eqn:E;
    [|vm_compute in E; discriminate E].
  destruct (average_keeps_the_layout_of_the_first_model
              (add_same_shape float32) (div_float float32) copy_float _ _ E)
    as (sd0 & rest & m0 & H1 & H2 & H3 & _).
  injection H1 as <- <-.
  exists after, m0. split; [reflexivity|]. split; [exact H2|exact H3].
Defined.

End AveragingRuns.

(** ** From the data loader to the padded batch *)

Section PaddedBatch.

Import Torch Model FeatsToInput.

Variable randn : nat -> nat -> nat -> Q.
Variable rand : nat -> nat -> Q.
Variable randn_static : nat -> nat -> Q.

Lemma mapM_imap_Some {A B : Type} (l : list A) (f : nat -> A -> option B)
    (g : nat -> A -> B) :
  (forall i s, l !! i = Some s -> f i s = Some (g i s)) ->
  mapM (fun e => f e.1 e.2) (imap (fun i s => (i, s)) l) = Some (imap g l).
Proof.
  intros H. apply mapM_Some_2. apply Forall2_same_length_lookup_2.
  - rewrite !length_imap. reflexivity.
  - intros i e y He Hy. rewrite list_lookup_imap in He. rewrite list_lookup_imap in Hy.
    destruct (l !! i) as [s|] eqn:Es; [|discriminate He].
    cbn [fmap option_fmap option_map] in He, Hy.
    injection He as <-. injection Hy as <-. cbn [fst snd]. exact (H i s Es).
Qed.

Lemma np_max_upper (l : list nat) (P : nat) :
  np_max l = Some P -> Forall (fun n => n <= P) l.
Proof.
  destruct l as [|n r]; [discriminate|]. cbn [np_max]. intros [= <-].
  assert (H : forall a, a <= foldr Nat.max a r /\ Forall (fun k => k <= foldr Nat.max a r) r).
  { induction r as [|k r IH]; intros a; cbn [foldr]; [split; [lia|constructor]|].
    destruct (IH a) as [H1 H2]. split; [lia|].
    constructor; [lia|]. eapply Forall_impl; [exact H2|]. cbv beta. lia. }
  destruct (H n) as [H1 H2]. constructor; assumption.
Qed.

(** The rows of a grid as they are without noise: each with its flag. *)
Lemma prepare_without_noise (m : Model.t) (a : mode) (i : nat) (s : sample) :
  augmenting a (aug_noise a) = false ->
  length (x_ts s) <= max_len m ->
  0 < cols s ->
  prepare randn rand m a i s
  = Some (imap (fun t row =>
                  if augmenting a (aug_mask a) && negb (Qle_bool (aug_mask a) (rand i t))
                  then set_last 1 (replicate (length row + 1) 0%Q)
                  else row ++ [0%Q]) (x_ts s)).
Proof.
  intros Hnoise Hlen Hc. unfold prepare, add_noise. rewrite Hnoise.
  destruct (max_len m <? length (x_ts s)) eqn:E; [apply Nat.ltb_lt in E; lia|].
  cbn [mbind option_bind]. unfold mask_rows, with_flag, flag_cols.
  replace (Nat.min (cols s) 1) with 1 by lia. cbn [replicate].
  destruct (cols s =? 0) eqn:E0; [apply Nat.eqb_eq in E0; lia|].
  destruct (augmenting a (aug_mask a)); cbn [andb]; f_equal.
  - rewrite imap_fmap. apply imap_ext. intros t row _. unfold compose.
    rewrite length_app. reflexivity.
  - symmetry. apply (imap_const (fun row : list Q => row ++ [0%Q])).
Qed.

(** Without the noise, what [feats_to_input] returns. *)
Lemma feats_to_input_without_noise (m : Model.t) (a : mode) (x : list sample) :
  augmenting a (aug_noise a) = false ->
  x <> [] ->
  Forall (fun s => length (x_ts s) <= max_len m /\ 0 < cols s) x ->
  uniform cols x = true ->
  uniform (fun s => length (x_static s)) x = true ->
  exists P,
    np_max (map (fun s => length (bin_ends s)) x) = Some P /\
    feats_to_input randn rand randn_static m a x
    = Some {| xs_static := map x_static x;
              xs_feats :=
                imap (fun i s =>
                        pad_rows P (cols s + 1)
                          (imap (fun t row =>
                                   if augmenting a (aug_mask a)
                                      && negb (Qle_bool (aug_mask a) (rand i t))
                                   then set_last 1 (replicate (length row + 1) 0%Q)
                                   else row ++ [0%Q]) (x_ts s))) x;
              xs_times :=
                map (fun s => bin_ends s ++ replicate (P - length (bin_ends s)) 0%Q) x;
              n_timesteps := map (fun s => length (bin_ends s)) x |}.
Proof.
  intros Hnoise Hx Hlen Hc Hs. unfold feats_to_input.
  rewrite (mapM_imap_Some x (prepare randn rand m a)
             (fun i s => imap (fun t row =>
                                 if augmenting a (aug_mask a)
                                    && negb (Qle_bool (aug_mask a) (rand i t))
                                 then set_last 1 (replicate (length row + 1) 0%Q)
                                 else row ++ [0%Q]) (x_ts s))).
  2:{ intros i s Hi. rewrite Forall_lookup in Hlen. destruct (Hlen i s Hi) as [H1 H2].
      apply prepare_without_noise; assumption. }
  cbn [mbind option_bind].
  destruct (np_max (map (fun s => length (bin_ends s)) x)) as [P|] eqn:EP.
  2:{ destruct x; [contradiction|discriminate EP]. }
  cbn [mbind option_bind]. rewrite Hc, Hs, Hnoise. cbn [andb].
  exists P. split; [reflexivity|]. f_equal. f_equal.
  - exact (imap_const x_static x).
  - apply list_eq. intros i. rewrite lookup_zip_with, !list_lookup_imap.
    destruct (x !! i) as [s|] eqn:Es; [|reflexivity].
    cbn [fmap option_fmap option_map mbind option_bind].
    rewrite Forall_lookup in Hlen. destruct (Hlen i s Es) as [_ H2].
    unfold flag_cols. replace (Nat.min (cols s) 1) with 1 by lia. reflexivity.
Qed.

Lemma set_last_flag (n : nat) :
  last (set_last 1 (replicate (n + 1) 0%Q)) = Some 1%Q.
Proof.
  unfold set_last. rewrite length_replicate.
  replace (n + 1 - 1) with n by lia. replace (n + 1) with (S n) by lia.
  rewrite replicate_S_end, insert_app_r_alt by (rewrite length_replicate; lia).
  rewrite length_replicate, Nat.sub_diag. cbn [insert list_insert]. apply last_snoc.
Qed.

Lemma zeros_flag (n : nat) : last (zeros (n + 1)) = Some 0%Q.
Proof.
  unfold zeros. replace (n + 1) with (S n) by lia.
  rewrite replicate_S_end. apply last_snoc.
Qed.

(** A row of a padded record. *)
Lemma padded_row (a : mode) (i : nat) (s : sample) (P t : nat) :
  t < P ->
  pad_rows P (cols s + 1)
    (imap (fun t row =>
             if augmenting a (aug_mask a) && negb (Qle_bool (aug_mask a) (rand i t))
             then set_last 1 (replicate (length row + 1) 0%Q)
             else row ++ [0%Q]) (x_ts s)) !! t
  = Some (match x_ts s !! t with
          | Some row =>
            if augmenting a (aug_mask a) && negb (Qle_bool (aug_mask a) (rand i t))
            then set_last 1 (replicate (length row + 1) 0%Q)
            else row ++ [0%Q]
          | None => zeros (cols s + 1)
          end).
Proof.
  intros Ht. unfold pad_rows. rewrite length_imap.
  destruct (length (x_ts s) <=? P) eqn:E.
  - destruct (x_ts s !! t) as [row|] eqn:Et.
    + rewrite lookup_app_l by (rewrite length_imap; eapply lookup_lt_Some; exact Et).
      rewrite list_lookup_imap, Et. reflexivity.
    + apply lookup_ge_None in Et. rewrite lookup_app_r by (rewrite length_imap; lia).
      rewrite lookup_replicate_2 by (rewrite length_imap; lia). reflexivity.
  - rewrite lookup_take_lt by exact Ht. rewrite list_lookup_imap.
    apply Nat.leb_gt in E.
    destruct (x_ts s !! t) as [row|] eqn:Et; [reflexivity|].
    apply lookup_ge_None in Et. lia.
Qed.

(** X26.  A batch of the data loader becomes an input of the model
    exactly when it is not empty, no record has more than [max_len] bins,
    the grids have the same number of columns and the static features
    the same length, and the augmentations fit the grids: noise needs a
    number of columns that is even or one, masking needs a column.  In
    particular a record with more than [max_len] bins makes
    [feats_to_input] raise instead of being cut. *)
Theorem batch_becomes_input_exactly_when (m : Model.t) (a : mode)
    (batch : list (sample * Q)) :
  let x := map fst batch in
  is_Some (xy ← collate_into_seqs batch;
           feats_to_input randn rand randn_static m a xy.1)
  <-> batch <> [] /\
      Forall (fun s => length (x_ts s) <= max_len m) x /\
      uniform cols x = true /\
      uniform (fun s => length (x_static s)) x = true /\
      (augmenting a (aug_noise a) = true ->
       Forall (fun s => Nat.even (cols s) || (cols s =? 1) = true) x) /\
      (augmenting a (aug_mask a) = true -> Forall (fun s => cols s <> 0) x).
Proof.
  intros x. destruct batch as [|e batch].
  { cbn. split; [intros [? H]; discriminate H|intros [H _]; contradiction]. }
  cbn [collate_into_seqs mbind option_bind fst]. fold x.
  assert (Hprep : forall i s,
            is_Some (prepare randn rand m a i s)
            <-> length (x_ts s) <= max_len m
                /\ (augmenting a (aug_noise a) = true
                    -> Nat.even (cols s) || (cols s =? 1) = true)
                /\ (augmenting a (aug_mask a) = true -> cols s <> 0)).
  { intros i s. unfold prepare, add_noise, mask_rows.
    destruct (max_len m <? length (x_ts s)) eqn:E.
    { apply Nat.ltb_lt in E. split; [intros [? H]; discriminate H|intros [H _]; lia]. }
    apply Nat.ltb_ge in E.
    destruct (augmenting a (aug_noise a));
      [destruct (Nat.even (cols s) || (cols s =? 1))|]; cbn [mbind option_bind].
    2:{ split; [intros [? H]; discriminate H|intros (_ & H & _); discriminate (H eq_refl)]. }
    all: destruct (augmenting a (aug_mask a)); [destruct (Nat.eqb_spec (cols s) 0)|].
    all: split;
      [ intros [? H]; try discriminate H; repeat split; auto; try discriminate
      | intros (_ & _ & H); try (exfalso; apply (H eq_refl); assumption);
        eexists; reflexivity ]. }
  assert (HmapM : is_Some (mapM (fun e => prepare randn rand m a e.1 e.2)
                                (imap (fun i s => (i, s)) x))
                  <-> Forall (fun s => length (x_ts s) <= max_len m
                                       /\ (augmenting a (aug_noise a) = true
                                           -> Nat.even (cols s) || (cols s =? 1) = true)
                                       /\ (augmenting a (aug_mask a) = true
                                           -> cols s <> 0)) x).
  { rewrite mapM_is_Some, !Forall_lookup. split.
    - intros H i s Hi. apply (Hprep i s).
      apply (H i (i, s)). rewrite list_lookup_imap, Hi. reflexivity.
    - intros H i e' He'. rewrite list_lookup_imap in He'.
      destruct (x !! i) as [s|] eqn:Es; [|discriminate He'].
      injection He' as <-. apply (Hprep i s). exact (H i s Es). }
  unfold feats_to_input.
  destruct (np_max (map (fun s => length (bin_ends s)) x)) as [P|] eqn:EP.
  2:{ discriminate EP. }
  split.
  - intros Hsome.
    destruct (mapM _ _) as [fs|] eqn:Em; cbn [mbind option_bind] in Hsome;
      [|destruct Hsome as [? H]; discriminate H].
    assert (Hall := proj1 HmapM ltac:(eexists; reflexivity)).
    destruct (uniform cols x && uniform (fun s => length (x_static s)) x) eqn:Eu;
      [|destruct Hsome as [? H]; discriminate H].
    apply andb_prop in Eu as [Eu1 Eu2].
    split; [discriminate|]. split.
    { eapply Forall_impl; [exact Hall|]. intros s [H _]. exact H. }
    split; [exact Eu1|]. split; [exact Eu2|]. split.
    + intros Ha. eapply Forall_impl; [exact Hall|]. intros s (_ & H & _). exact (H Ha).
    + intros Ha. eapply Forall_impl; [exact Hall|]. intros s (_ & _ & H). exact (H Ha).
  - intros (_ & Hlen & Hu1 & Hu2 & Hn & Hm).
    assert (Hall : is_Some (mapM (fun e => prepare randn rand m a e.1 e.2)
                                 (imap (fun i s => (i, s)) x))).
    { apply HmapM. apply Forall_forall. intros s Hs. split; [|split].
      - rewrite Forall_forall in Hlen. exact (Hlen s Hs).
      - intros Ha. specialize (Hn Ha). rewrite Forall_forall in Hn. exact (Hn s Hs).
      - intros Ha. specialize (Hm Ha). rewrite Forall_forall in Hm. exact (Hm s Hs). }
    destruct Hall as [fs Hfs]. rewrite Hfs. cbn [mbind option_bind].
    rewrite Hu1, Hu2. cbn [andb]. eexists. reflexivity.
Qed.

(** X27.  Without noise, the padded batch row by row.  Every record is
    brought to the length of the longest [bin_ends] of the batch.  A row
    that the record has is the row of the item with a flag appended: the
    flag is 0, unless the masking augmentation hits the row, which is
    then zero but for its flag 1.  A row that the record does not have is
    a padding row of zeros, its flag included.  The static features are
    stacked as they are, and [n_timesteps] holds the lengths of the
    [bin_ends]. *)
Theorem padded_batch_row_by_row (m : Model.t) (a : mode) (x : list sample) :
  augmenting a (aug_noise a) = false ->
  x <> [] ->
  Forall (fun s => length (x_ts s) <= max_len m /\ 0 < cols s) x ->
  uniform cols x = true ->
  uniform (fun s => length (x_static s)) x = true ->
  exists out P,
    feats_to_input randn rand randn_static m a x = Some out /\
    np_max (map (fun s => length (bin_ends s)) x) = Some P /\
    n_timesteps out = map (fun s => length (bin_ends s)) x /\
    xs_static out = map x_static x /\
    Forall (fun rows => length rows = P) (xs_feats out) /\
    Forall (fun ts => length ts = P) (xs_times out) /\
    forall i s t, x !! i = Some s -> t < P ->
      (rows ← xs_feats out !! i; rows !! t)
      = Some (match x_ts s !! t with
              | Some row =>
                if augmenting a (aug_mask a) && negb (Qle_bool (aug_mask a) (rand i t))
                then set_last 1 (replicate (length row + 1) 0%Q)
                else row ++ [0%Q]
              | None => zeros (cols s + 1)
              end).
Proof.
  intros Hnoise Hx Hlen Hc Hs.
  destruct (feats_to_input_without_noise m a x Hnoise Hx Hlen Hc Hs) as (P & HP & Hout).
  eexists _, P. split; [exact Hout|]. split; [exact HP|].
  cbn [n_timesteps xs_static xs_feats xs_times].
  split; [reflexivity|]. split; [reflexivity|]. split; [|split].
  - apply Forall_forall. intros rows Hin. apply list_elem_of_lookup in Hin.
    destruct Hin as [i Hi]. rewrite list_lookup_imap in Hi.
    destruct (x !! i); [|discriminate Hi]. injection Hi as <-.
    apply length_pad_rows.
  - pose proof (np_max_upper _ _ HP) as Hup. rewrite Forall_fmap in Hup.
    apply Forall_fmap. eapply Forall_impl; [exact Hup|]. intros s Hle.
    cbv beta. unfold compose in *. rewrite length_app, length_replicate. lia.
  - intros i s t Hi Ht. rewrite list_lookup_imap, Hi.
    cbn [fmap option_fmap option_map mbind option_bind].
    apply padded_row. exact Ht.
Qed.

(** X28.  A bin of the padded batch is flagged exactly when the masking
    augmentation hit it.  A padding row is never flagged, and in
    evaluation or in pre-training no bin is. *)
Theorem only_augmentation_flags_a_bin (m : Model.t) (a : mode) (x : list sample)
    (i t : nat) (s : sample) :
  augmenting a (aug_noise a) = false ->
  x <> [] ->
  Forall (fun s => length (x_ts s) <= max_len m /\ 0 < cols s) x ->
  uniform cols x = true ->
  uniform (fun s => length (x_static s)) x = true ->
  x !! i = Some s ->
  exists out P,
    feats_to_input randn rand randn_static m a x = Some out /\
    np_max (map (fun s => length (bin_ends s)) x) = Some P /\
    mask_inds (xs_feats out) i t
    = bool_decide (t < P) && bool_decide (t < length (x_ts s))
      && augmenting a (aug_mask a) && negb (Qle_bool (aug_mask a) (rand i t)) /\
    (training a = false \/ pretrain a = true ->
     forall b t', mask_inds (xs_feats out) b t' = false).
Proof.
  intros Hnoise Hx Hlen Hc Hs Hi.
  destruct (feats_to_input_without_noise m a x Hnoise Hx Hlen Hc Hs) as (P & HP & Hout).
  eexists _, P. split; [exact Hout|]. split; [exact HP|].
  cbn [xs_feats].
  assert (Hcell : forall b sb tb, x !! b = Some sb ->
            mask_inds (imap (fun i s =>
                         pad_rows P (cols s + 1)
                           (imap (fun t row =>
                                    if augmenting a (aug_mask a)
                                       && negb (Qle_bool (aug_mask a) (rand i t))
                                    then set_last 1 (replicate (length row + 1) 0%Q)
                                    else row ++ [0%Q]) (x_ts s))) x)
                      b tb
            = bool_decide (tb < P) && bool_decide (tb < length (x_ts sb))
              && augmenting a (aug_mask a) && negb (Qle_bool (aug_mask a) (rand b tb))).
  { intros b sb tb Hb. unfold mask_inds. rewrite list_lookup_imap, Hb.
    cbn [fmap option_fmap option_map mbind option_bind].
    destruct (decide (tb < P)) as [Ht|Ht].
    - rewrite (bool_decide_eq_true_2 _ Ht). cbn [andb].
      rewrite (padded_row a b sb P tb Ht). cbn [mbind option_bind].
      destruct (x_ts sb !! tb) as [row|] eqn:Et.
      + rewrite (bool_decide_eq_true_2 _ (lookup_lt_Some _ _ _ Et)). cbn [andb].
        destruct (augmenting a (aug_mask a) && negb (Qle_bool (aug_mask a) (rand b tb))).
        * rewrite set_last_flag. reflexivity.
        * rewrite last_snoc. reflexivity.
      + apply lookup_ge_None in Et.
        rewrite bool_decide_eq_false_2 by lia. rewrite zeros_flag. reflexivity.
    - rewrite (bool_decide_eq_false_2 _ Ht). cbn [andb].
      match goal with
      | |- context [pad_rows P ?w ?r !! tb] =>
        rewrite (lookup_ge_None_2 (pad_rows P w r) tb) by (rewrite length_pad_rows; lia)
      end.
      reflexivity. }
  split; [exact (Hcell i s t Hi)|].
  intros Hmode b t'.
  assert (Haug : augmenting a (aug_mask a) = false).
  { unfold augmenting. destruct Hmode as [-> | ->]; [reflexivity|].
    rewrite andb_false_r. reflexivity. }
  destruct (x !! b) as [sb|] eqn:Eb.
  - rewrite (Hcell b sb t' Eb), Haug, andb_false_r. reflexivity.
  - unfold mask_inds. rewrite list_lookup_imap, Eb. reflexivity.
Qed.

End PaddedBatch.

Section PaddedBatchRuns.

Import Torch Model FeatsToInput.

Lemma batch_becomes_input_exactly_when_witness :
  collate_into_seqs [(Further.short_sample, 0%Q); (Further.oversized_sample, 1%Q)]
    = Some ([Further.short_sample; Further.oversized_sample], [0%Q; 1%Q]) /\
  feats_to_input (fun _ _ _ => 0%Q) (fun _ t => of_nat t) (fun _ _ => 0%Q)
    (Examples.model 1 "rep_token" false) Further.eval_mode
    [Further.short_sample; Further.oversized_sample] = None.
Proof.
  split; [reflexivity|].
  apply eq_None_not_Some. intros Hsome.
  apply (proj1 (batch_becomes_input_exactly_when (fun _ _ _ => 0%Q) (fun _ t => of_nat t)
                  (fun _ _ => 0%Q) (Examples.model 1 "rep_token" false) Further.eval_mode
                  [(Further.short_sample, 0%Q); (Further.oversized_sample, 1%Q)]))
    in Hsome.
  destruct Hsome as (_ & Hlen & _).
  apply Forall_cons in Hlen as [_ Hlen]. apply Forall_cons in Hlen as [Hlen _].
  vm_compute in Hlen. lia.
Defined.

Lemma padded_batch_row_by_row_witness :
  exists out,
    feats_to_input (fun _ _ _ => 0%Q) (fun _ t => of_nat t) (fun _ _ => 0%Q)
      (Examples.model 1 "rep_token" false) Further.fine_tune_mode
      [Further.short_sample; Further.long_sample] = Some out /\
    n_timesteps out = [1; 2] /\
    xs_feats out = [[[0; 0; 1]; [0; 0; 0]]; [[0; 0; 1]; [8; 3; 0]]]%Q.
Proof.
  destruct (padded_batch_row_by_row (fun _ _ _ => 0%Q) (fun _ t => of_nat t)
              (fun _ _ => 0%Q) (Examples.model 1 "rep_token" false) Further.fine_tune_mode
              [Further.short_sample; Further.long_sample] eq_refl)
    as (out & P & Hout & _ & Hn & _);
    [discriminate|repeat constructor; cbn; lia|reflexivity|reflexivity|].
  exists out. split; [exact Hout|]. split; [exact Hn|].
  vm_compute in Hout. injection Hout as <-. reflexivity.
Defined.

Lemma only_augmentation_flags_a_bin_witness :
  exists out,
    feats_to_input (fun _ _ _ => 0%Q) (fun _ t => of_nat t) (fun _ _ => 0%Q)
      (Examples.model 1 "rep_token" false) Further.eval_mode
      [Further.short_sample; Further.long_sample] = Some out /\
    xs_feats out = [[[5; 1; 0]; [0; 0; 0]]; [[7; 1; 0]; [8; 3; 0]]]%Q /\
    forall b t, mask_inds (xs_feats out) b t = false.
Proof.
  destruct (only_augmentation_flags_a_bin (fun _ _ _ => 0%Q) (fun _ t => of_nat t)
              (fun _ _ => 0%Q) (Examples.model 1 "rep_token" false) Further.eval_mode
              [Further.short_sample; Further.long_sample] 0 0 Further.short_sample eq_refl)
    as (out & P & Hout & _ & _ & Hflag);
    [discriminate|repeat constructor; cbn; lia|reflexivity|reflexivity|reflexivity|].
  exists out. split; [exact Hout|]. split; [|apply Hflag; left; reflexivity].
  vm_compute in Hout. injection Hout as <-. reflexivity.
Defined.

End PaddedBatchRuns.

(** ** The bins of the observations *)

Section Bins.

Import Torch PhysioNetDataset.

Lemma trunc_nonneg (q : Q) : (0 <= q)%Q -> (0 <= trunc q)%Z.
Proof.
  intros H. unfold trunc. destruct q as [n d]. unfold Qle in H. cbn in *.
  apply Z.quot_pos; lia.
Qed.

Lemma trunc_mono (p q : Q) : (0 <= p)%Q -> (p <= q)%Q -> (trunc p <= trunc q)%Z.
Proof.
  intros Hp Hpq. unfold trunc. destruct p as [n1 d1], q as [n2 d2].
  unfold Qle in *. cbn in *.
  rewrite !Z.quot_div_nonneg by lia.
  apply Z.div_le_lower_bound; [lia|].
  pose proof (Z.mul_div_le n1 (Z.pos d1) ltac:(lia)) as H.
  nia.
Qed.

Lemma trunc_below (q : Q) (T : nat) :
  (0 <= q)%Q -> (q < of_nat T)%Q -> (trunc q <= Z.of_nat T - 1)%Z.
Proof.
  intros H0 H. unfold trunc. destruct q as [n d]. unfold of_nat, Qlt, Qle in *. cbn in *.
  rewrite Z.quot_div_nonneg by lia.
  assert (n / Z.pos d < Z.of_nat T)%Z; [|lia].
  apply Z.div_lt_upper_bound; lia.
Qed.

Lemma trunc_above (q : Q) (T : nat) :
  (of_nat T <= q)%Q -> (Z.of_nat T <= trunc q)%Z.
Proof.
  intros H. unfold trunc. destruct q as [n d]. unfold of_nat, Qle in *. cbn in *.
  assert (0 <= n)%Z by nia.
  rewrite Z.quot_div_nonneg by lia.
  apply Z.div_le_lower_bound; lia.
Qed.

(** X29.  In exact arithmetic the bins follow the time stamps.  With
    [n_timesteps] positive and a positive last time stamp, an observation
    between zero and the last time stamp falls into a bin between 0 and
    [n_timesteps - 1], a later observation never into an earlier bin than
    an earlier one, and an observation at the last time stamp into the
    last bin.  An observation later than the last row has no bin: its
    index is out of range. *)
Theorem bins_follow_the_time_stamps (T : nat) (t1 t2 tlast : Q) :
  0 < T ->
  (0 < tlast)%Q ->
  (0 <= t1)%Q -> (t1 <= t2)%Q ->
  (t2 <= tlast ->
   exists b1 b2,
     bin_of exact T t1 tlast = Some b1 /\ bin_of exact T t2 tlast = Some b2 /\
     (0 <= b1 <= b2)%Z /\ (b2 <= Z.of_nat T - 1)%Z /\
     is_Some (index T b1) /\ is_Some (index T b2) /\
     (t2 == tlast -> b2 = (Z.of_nat T - 1)%Z))%Q /\
  (tlast < t2 ->
   exists b2, bin_of exact T t2 tlast = Some b2 /\ index T b2 = None)%Q.
Proof.
  intros HT Hl H1 H12.
  assert (Hl0 : Qeq_bool tlast 0 = false).
  { apply not_true_is_false. intros E. apply Qeq_bool_iff in E.
    rewrite E in Hl. exact (Qlt_irrefl 0 Hl). }
  assert (HT0 : (0 <= of_nat T)%Q).
  { unfold of_nat. change 0%Q with (inject_Z 0). rewrite <- Zle_Qle. lia. }
  assert (Hbin : forall t, (0 <= t)%Q -> (t <= tlast)%Q ->
            exists b, bin_of exact T t tlast = Some b /\
              (0 <= b <= Z.of_nat T - 1)%Z /\
              (Qeq_bool t tlast = true -> b = (Z.of_nat T - 1)%Z) /\
              (Qeq_bool t tlast = false -> b = trunc (t / tlast * of_nat T))).
  { intros t H0 Hle. unfold bin_of, exact. destruct (Qeq_bool t tlast) eqn:E.
    - eexists. split; [reflexivity|]. split; [lia|]. split; [reflexivity|discriminate].
    - rewrite Hl0. eexists. split; [reflexivity|].
      assert (Hlt : (t < tlast)%Q).
      { apply Qle_lteq in Hle as [Hlt|Heq]; [exact Hlt|].
        apply Qeq_bool_iff in Heq. congruence. }
      assert (Hfrac0 : (0 <= t / tlast)%Q).
      { apply Qle_shift_div_l; [exact Hl|]. rewrite Qmult_0_l. exact H0. }
      assert (Hfrac1 : (t / tlast < 1)%Q).
      { apply Qlt_shift_div_r; [exact Hl|]. rewrite Qmult_1_l. exact Hlt. }
      split; [split|split; [discriminate|reflexivity]].
      + apply trunc_nonneg. apply Qmult_le_0_compat; assumption.
      + apply trunc_below; [apply Qmult_le_0_compat; assumption|].
        assert (HTpos : (0 < of_nat T)%Q).
        { unfold of_nat. change 0%Q with (inject_Z 0). rewrite <- Zlt_Qlt. lia. }
        apply Qlt_le_trans with (1 * of_nat T)%Q.
        * apply Qmult_lt_compat_r; assumption.
        * rewrite Qmult_1_l. apply Qle_refl. }
  assert (Hidx : forall b, (0 <= b <= Z.of_nat T - 1)%Z -> is_Some (index T b)).
  { intros b Hb. unfold index.
    destruct (0 <=? b)%Z eqn:E1; [|apply Z.leb_gt in E1; lia].
    destruct (b <? Z.of_nat T)%Z eqn:E2; [|apply Z.ltb_ge in E2; lia].
    eexists. reflexivity. }
  split.
  - intros H2.
    destruct (Hbin t1 H1 (Qle_trans _ _ _ H12 H2)) as (b1 & Hb1 & Hr1 & He1 & Hn1).
    destruct (Hbin t2 (Qle_trans _ _ _ H1 H12) H2) as (b2 & Hb2 & Hr2 & He2 & Hn2).
    exists b1, b2. repeat apply conj; auto; try lia.
    + destruct (Qeq_bool t2 tlast) eqn:E2; [rewrite (He2 eq_refl); lia|].
      destruct (Qeq_bool t1 tlast) eqn:E1.
      * exfalso. apply Qeq_bool_iff in E1.
        assert (Heq : (t2 == tlast)%Q).
        { apply Qle_antisym; [exact H2|]. rewrite <- E1. exact H12. }
        apply Qeq_bool_iff in Heq. congruence.
      * rewrite (Hn1 eq_refl), (Hn2 eq_refl). apply trunc_mono.
        -- apply Qmult_le_0_compat; [|exact HT0].
           apply Qle_shift_div_l; [exact Hl|]. rewrite Qmult_0_l. exact H1.
        -- apply Qmult_le_compat_r; [|exact HT0].
           unfold Qdiv. apply Qmult_le_compat_r; [exact H12|].
           apply Qlt_le_weak, Qinv_lt_0_compat, Hl.
    + intros Heq. apply He2. apply Qeq_bool_iff. exact Heq.
  - intros H2. unfold bin_of, exact.
    destruct (Qeq_bool t2 tlast) eqn:E.
    { apply Qeq_bool_iff in E. rewrite E in H2. exfalso. exact (Qlt_irrefl _ H2). }
    rewrite Hl0. eexists. split; [reflexivity|].
    assert (Hge : (Z.of_nat T <= trunc (t2 / tlast * of_nat T))%Z).
    { apply trunc_above.
      apply Qle_trans with (1 * of_nat T)%Q; [rewrite Qmult_1_l; apply Qle_refl|].
      apply Qmult_le_compat_r; [|exact HT0].
      apply Qle_shift_div_l; [exact Hl|]. rewrite Qmult_1_l. apply Qlt_le_weak, H2. }
    unfold index.
    destruct (_ <? Z.of_nat T)%Z eqn:E2; [apply Z.ltb_lt in E2; lia|].
    rewrite andb_false_r.
    destruct (_ <? 0)%Z eqn:E3; [apply Z.ltb_lt in E3; lia|].
    rewrite andb_false_r. reflexivity.
Qed.

Lemma bins_follow_the_time_stamps_witness :
  exists b1 b2,
    bin_of exact 32 (1 # 3) 2 = Some b1 /\ bin_of exact 32 (3 # 2) 2 = Some b2 /\
    (0 <= b1 <= b2)%Z /\ (b2 <= 31)%Z.
Proof.
  destruct (proj1 (bins_follow_the_time_stamps 32 (1 # 3) (3 # 2) 2 ltac:(lia)
                     eq_refl ltac:(discriminate) ltac:(discriminate)))
    as (b1 & b2 & H1 & H2 & H3 & H4 & _); [discriminate|].
  exists b1, b2. auto.
Defined.

End Bins.
